(** * Sunset precipitation figure pipeline: classification, summaries,
      configuration lookups and the composite driver.

    The development embeds three Python files:
    - [analysis/data_loader.py]       (module [data_loader]),
    - [analysis/figure1_components.py] (module [figure1_components]),
    - [composite_figure1.py]          (module [composite_figure1]).

    Number model.  Python [int] and finite [float] values are embedded in
    the rationals [Q]; a decimal literal of the source is the rational it
    denotes.  The percentage of the map panel is the result of two float
    operations, and the result of a float operation is the exact result,
    rounded: the rounding is a parameter ([float.Rounding]).  Under
    [float.exact] nothing is rounded (the code read over the reals);
    under [float.binary64] a result is rounded as IEEE 754 rounds a
    binary64 result in the normal range.  The pandas reductions are taken
    over the reals.  NaN and the infinities are not values of the model,
    except as the result of a pandas reduction over an empty series
    ([pd.NaN]). *)

From Stdlib Require Import QArith Qabs Lqa Qround Qpower Sorting.Sorted Ascii String.
From stdpp Require Import base option list gmap strings pretty.

(** ** Python runtime: exceptions, strings *)

Module Py.

(** An exception is identified by the name of its class. *)
Record exn := Exception { exn_class : string }.

Definition ZeroDivisionError : exn := Exception "ZeroDivisionError".
Definition IndexError : exn := Exception "IndexError".
Definition ValueError : exn := Exception "ValueError".
Definition FileNotFoundError : exn := Exception "FileNotFoundError".

(** [str.replace(old, new)] for a non-empty [old]: every occurrence of
    [old], scanning from the left without overlap, becomes [new].
    [skip] counts the characters of a matched occurrence still to drop. *)
Fixpoint replace_from (old new : string) (skip : nat) (s : string) : string :=
  match s with
  | EmptyString => EmptyString
  | String c s' =>
      match skip with
      | S k => replace_from old new k s'
      | O =>
          if String.prefix old s
          then String.append new (replace_from old new (String.length old - 1) s')
          else String c (replace_from old new 0 s')
      end
  end.

(** [str.replace] with an empty [old] puts [new] before every character
    and at the end. *)
Fixpoint replace_empty (new : string) (s : string) : string :=
  match s with
  | EmptyString => new
  | String c s' => String.append new (String c (replace_empty new s'))
  end.

Definition str_replace (s old new : string) : string :=
  match old with
  | EmptyString => replace_empty new s
  | String _ _ => replace_from old new 0 s
  end.

(** [old in s] *)
Fixpoint contains (old s : string) : bool :=
  if String.prefix old s then true
  else match s with
       | EmptyString => false
       | String _ s' => contains old s'
       end.

End Py.

(** ** Float arithmetic: the rounding of a result *)

Module float.

(** [fl x] is the float that an operation returns when its exact result
    is [x]. *)
Class Rounding := { fl : Q → Q }.

(** No rounding: the code read over the reals.  This is the rounding of
    every statement below that does not name another. *)
#[global] Instance exact : Rounding := {| fl q := q |}.

(** The integer nearest to [y]; of two integers equally near, the even
    one. *)
Definition nearest_even (y : Q) : Z :=
  let f := Qfloor y in
  match (y - inject_Z f ?= 1 # 2)%Q with
  | Lt => f
  | Gt => (f + 1)%Z
  | Eq => if Z.even f then f else (f + 1)%Z
  end.

(** The binary exponent of a positive [x]: the [e] with
    [2^e ≤ x < 2^(e+1)].  The difference of the bit lengths of numerator
    and denominator is [e] or [e + 1]. *)
Definition exponent (x : Q) : Z :=
  let e := (Z.log2 (Qnum x) - Z.log2 (Zpos (Qden x)))%Z in
  if Qle_bool (2 ^ e) x then e else (e - 1)%Z.

(** A positive [x] rounded to 53 significant bits: the nearest multiple
    of the unit in the last place of its binade. *)
Definition round_pos (x : Q) : Q :=
  let ulp := (2 ^ (exponent x - 52))%Q in
  (inject_Z (nearest_even (x / ulp)) * ulp)%Q.

Definition round (x : Q) : Q :=
  match Qnum x with
  | Z0 => 0%Q
  | Zpos _ => round_pos x
  | Zneg _ => (- round_pos (- x))%Q
  end.

(** IEEE 754 binary64 with rounding to nearest, ties to even, for
    results in the normal range (between 2^-1022 and 2^1024 in
    magnitude, or zero); the exponent is not bounded here. *)
Definition binary64 : Rounding := {| fl := round |}.

End float.

(** ** numpy: two-dimensional arrays of observations, argsort, indexing *)

Module np.

(** One row of a spatial array: columns [lat, lon, value]
    (column 2 is the value). *)
Record row := Row { lat : Q; lon : Q; value : Q }.

(** [a[:, 2]] *)
Definition column2 (a : list row) : list Q := value <$> a.

(** [ndarray.argsort()].  numpy offers several sorting kinds and leaves
    the order of equal keys open for the default one, so the function
    is an interface: the result is a permutation of the positions
    [0 .. n-1] along which the keys ascend. *)
Class Argsort := {
  argsort : list Q → list nat;
  argsort_perm : ∀ ks, argsort ks ≡ₚ seq 0 (length ks);
  argsort_sorted : ∀ ks, Sorted Qle ((λ i, nth i ks 0%Q) <$> argsort ks)
}.

(** [a[idx]] with an integer index array: a fresh array holding the
    rows picked by [idx]; a position out of range is an [IndexError]
    ([None]). *)
Definition index_rows (a : list row) (idx : list nat) : option (list row) :=
  mapM (λ i, a !! i) idx.

(** [np.argmax(a)]: position of the first maximum; undefined on an
    empty array (numpy raises [ValueError]). *)
Fixpoint argmax_from (best : Q) (besti i : nat) (a : list Q) : nat :=
  match a with
  | [] => besti
  | x :: a' =>
      if Qlt_le_dec best x then argmax_from x i (S i) a'
      else argmax_from best besti (S i) a'
  end.

Definition argmax (a : list Q) : option nat :=
  match a with
  | [] => None
  | x :: a' => Some (argmax_from x 0 1 a')
  end.

(** [a[lo:hi]] *)
Definition slice (lo hi : nat) (a : list Q) : list Q :=
  List.firstn (hi - lo) (List.skipn lo a).

(** [a[a[:, 2].argsort()]] as a function of the rows of [a]: every
    position that [argsort] returns is in range, so the rows are picked
    with a default that is never used. *)
Definition row0 : row := Row 0 0 0.

Definition sorted_rows `{!Argsort} (rows : list row) : list row :=
  (λ i, nth i rows row0) <$> argsort (column2 rows).

(** An insertion sort on positions, one implementation of [argsort]. *)
Fixpoint insert_by (key : nat → Q) (i : nat) (l : list nat) : list nat :=
  match l with
  | [] => [i]
  | j :: l' =>
      if Qlt_le_dec (key j) (key i) then j :: insert_by key i l'
      else i :: j :: l'
  end.

Definition insertion_argsort (ks : list Q) : list nat :=
  foldr (insert_by (λ i, nth i ks 0%Q)) [] (seq 0 (length ks)).

End np.

(** ** pandas: reductions of a numeric series *)

Module pd.

(** Result of a reduction: a number, or NaN for an empty series. *)
Inductive pyfloat := NaN | Num (q : Q).

Definition Qsum (s : list Q) : Q := foldr Qplus 0%Q s.

(** [Series.mean()] *)
Definition mean (s : list Q) : pyfloat :=
  match s with
  | [] => NaN
  | _ :: _ => Num (Qsum s / inject_Z (Z.of_nat (length s)))
  end.

(** [Series.min()] *)
Definition min (s : list Q) : pyfloat :=
  match s with
  | [] => NaN
  | x :: s' => Num (foldl (λ m y, if Qlt_le_dec y m then y else m) x s')
  end.

(** [Series.max()] *)
Definition max (s : list Q) : pyfloat :=
  match s with
  | [] => NaN
  | x :: s' => Num (foldl (λ m y, if Qlt_le_dec m y then y else m) x s')
  end.

End pd.

(** ** The process state and the monad of the plotting code

    The plotting functions act on three things outside themselves: the
    numpy arrays they are handed by reference, the matplotlib axes they
    draw on, and the files they read and write.  [world] holds them; a
    computation threads a [world] and either returns or raises. *)

Module Fig.

Definition rgb : Type := Q * Q * Q.

(** Arguments of a call on the rendering surface. *)
#[warnings="-register-all"] Inductive arg :=
| ANum (q : Q)
| AStr (s : string)
| ABool (b : bool)
| ANums (l : list Q)
| AStrs (l : list string)
| ARows (l : list np.row)      (* a (Geo)DataFrame: its rows, in row order *)
| AColor (c : rgb)
| AColors (l : list rgb)
| AFormat (q : Q) (spec rest : string)  (* f-string: a number, its format, the text after it *)
| ARef (name : string)         (* an object of the library, by name *)
| APair (x y : Q)
| ARect (w h : Q) (fc : rgb) (label : string)
| AList (l : list arg)
| ADict (l : list (string * arg)).

Record call := Call {
  method : string;
  args : list arg;
  kwargs : list (string * arg)
}.

Inductive file :=
| Npy (a : list Q)
| Txt (rows : list np.row).

Record world := World {
  disk : gmap string file;            (* input files, by path *)
  arrays : gmap positive (list np.row); (* two-dimensional arrays, by reference *)
  n_axes : nat;                       (* axes created so far *)
  canvas : list (nat * call);         (* calls made on axes, oldest first *)
  saved : list string;                (* paths of the savefig calls that returned *)
  stdout : list string                (* printed lines, oldest first *)
}.

Definition M (A : Type) : Type := world → world * (Py.exn + A).

Definition ret {A} (a : A) : M A := λ w, (w, inr a).

Definition bind {A B} (m : M A) (k : A → M B) : M B :=
  λ w, match m w with
       | (w', inl e) => (w', inl e)
       | (w', inr a) => k a w'
       end.

Definition raise {A} (e : Py.exn) : M A := λ w, (w, inl e).

#[global] Instance M_ret : MRet M := @ret.
#[global] Instance M_bind : MBind M := λ A B k m, bind m k.

(** Reading the array behind a reference.  A Python reference always has
    its object; the error case is there to make the function total. *)
Definition deref (l : positive) : M (list np.row) :=
  λ w, match arrays w !! l with
       | Some a => (w, inr a)
       | None => (w, inl (Py.Exception "ReferenceError"))
       end.

(** A new array: stored under a reference not in use. *)
Definition alloc (a : list np.row) : M positive :=
  λ w, let l := fresh (dom (arrays w)) in
       (World (disk w) (<[l := a]> (arrays w)) (n_axes w) (canvas w) (saved w) (stdout w),
        inr l).

(** One call on an axes. *)
Definition draw (ax : nat) (c : call) : M unit :=
  λ w, (World (disk w) (arrays w) (n_axes w) (canvas w ++ [(ax, c)]) (saved w) (stdout w),
        inr tt).

(** [fig.add_subplot(...)] *)
Definition add_subplot : M nat :=
  λ w, (World (disk w) (arrays w) (S (n_axes w)) (canvas w) (saved w) (stdout w),
        inr (n_axes w)).

(** What [plt.savefig] does with a path is decided outside the program:
    the directory of the path has to exist and the extension has to name
    a format that matplotlib writes; otherwise the call raises
    ([FileNotFoundError], [ValueError]) and writes no file.
    [savefig_error path] is the exception raised for [path], if any. *)
Class Savefig := { savefig_error : string → option Py.exn }.

(** [plt.savefig(path, ...)]: the path of a call that returns is
    recorded, after those recorded before; the keyword arguments ([dpi],
    [bbox_inches], colors) are not. *)
Definition savefig `{!Savefig} (path : string) : M unit :=
  λ w, match savefig_error path with
       | Some e => (w, inl e)
       | None =>
           (World (disk w) (arrays w) (n_axes w) (canvas w) (saved w ++ [path])
              (stdout w),
            inr tt)
       end.

(** [print(line)] *)
Definition print (line : string) : M unit :=
  λ w, (World (disk w) (arrays w) (n_axes w) (canvas w) (saved w) (stdout w ++ [line]),
        inr tt).

(** [np.load(path)] *)
Definition np_load (path : string) : M (list Q) :=
  λ w, match disk w !! path with
       | Some (Npy a) => (w, inr a)
       | Some (Txt _) => (w, inl Py.ValueError)
       | None => (w, inl Py.FileNotFoundError)
       end.

(** [np.loadtxt(path)]: a new array with the rows of the file.  (For a
    table of two or more rows this is the two-dimensional array that
    numpy returns; numpy gives the single row of a one-row table as a
    one-dimensional array, which the panels cannot index by column.) *)
Definition np_loadtxt (path : string) : M positive :=
  λ w, match disk w !! path with
       | Some (Txt rows) => alloc rows w
       | Some (Npy _) => (w, inl Py.ValueError)
       | None => (w, inl Py.FileNotFoundError)
       end.

(** [a[idx]] on an array held by reference: a new array. *)
Definition index_rows (a : positive) (idx : list nat) : M positive :=
  rows ← deref a;
  match np.index_rows rows idx with
  | Some rows' => alloc rows'
  | None => raise Py.IndexError
  end.

(** [len(a)] *)
Definition len (a : positive) : M nat :=
  rows ← deref a; ret (length rows).

(** [x / y] on two ints: a float, the quotient rounded once. *)
Definition truediv `{!float.Rounding} (x y : nat) : M Q :=
  match y with
  | O => raise Py.ZeroDivisionError
  | S _ => ret (float.fl (inject_Z (Z.of_nat x) / inject_Z (Z.of_nat y))%Q)
  end.

(** [a[i]] on a one-dimensional array *)
Definition item (a : list Q) (i : nat) : M Q :=
  match a !! i with
  | Some x => ret x
  | None => raise Py.IndexError
  end.

Definition newline : string := String (Ascii.ascii_of_nat 10) EmptyString.

End Fig.

(** ** analysis/data_loader.py *)

Module data_loader.

(** Table of [get_intensity_label]. *)
Definition labels : gmap string string :=
  list_to_map [
    ("low", "0.2-0.5 mm/hr");
    ("moderate", "0.5-1 mm/hr");
    ("other", ">1 mm/hr");
    ("low_moderate", "0.2-1 mm/hr");
    ("all", "All intensities")
  ].

Definition get_intensity_label (intensity_key : string) : string :=
  default intensity_key (labels !! intensity_key).

(** Axis limits: [((y_min, y_max), y_ticks)]. *)
Definition axis_limits : Type := (Q * Q) * list Q.

Definition limits_urban_rural : gmap string axis_limits :=
  list_to_map [
    ("low", ((6.8, 9.8), [7; 8; 9]));
    ("moderate", ((5, 8), [5; 6; 7; 8]));
    ("other", ((8, 16), [8; 10; 12; 14; 16]));
    ("low_moderate", ((12, 18), [12; 14; 16; 18]));
    ("all", ((20, 35), [20; 25; 30; 35]))
  ]%Q.

Definition limits_turban : gmap string axis_limits :=
  list_to_map [
    ("low", ((2.8, 4.2), [3.0; 3.5; 4.0]));
    ("moderate", ((0.9, 1.3), [0.9; 1.0; 1.1; 1.2; 1.3]));
    ("other", ((0.3, 0.7), [0.3; 0.4; 0.5; 0.6; 0.7]));
    ("low_moderate", ((3.5, 5.5), [3.5; 4.0; 4.5; 5.0; 5.5]));
    ("all", ((4, 7), [4; 5; 6; 7]))
  ]%Q.

Definition get_y_axis_limits (intensity_key : string) (data_type : string)
  : axis_limits :=
  let limits :=
    if String.eqb data_type "urban_rural" then limits_urban_rural
    else limits_turban in
  default ((0, 10), [0; 2; 4; 6; 8; 10])%Q (limits !! intensity_key).

(** The [temporal_stability] data frame, by column. *)
Record DataFrame := {
  year : list Z;
  n_cities : list Z;
  enhancement_pct : list Q
}.

Definition temporal_stability : DataFrame := {|
  year := seqZ 2001 20;
  n_cities := [491; 506; 494; 510; 524; 533; 527; 486; 523; 542;
               500; 530; 494; 491; 504; 500; 509; 487; 515; 514]%Z;
  enhancement_pct := [64.8; 63.0; 61.3; 62.0; 61.4; 59.8; 64.1; 61.7; 60.8; 60.3;
                      59.8; 60.0; 63.0; 58.4; 59.9; 64.6; 63.9; 67.3; 59.0; 63.8]%Q
|}.

(** The color table [COLORS]: a dict used as a struct. *)
Record Colors := {
  urban : string;
  rural : string;
  urban_only : string;
  enhance_strong : Fig.rgb;
  enhance_weak : Fig.rgb;
  suppress_weak : Fig.rgb;
  suppress_strong : Fig.rgb
}.

Definition COLORS : Colors := {|
  urban := "#D32F2F";
  rural := "#B8860B";
  urban_only := "#2E8B57";
  enhance_strong := (255 / 255, 120 / 255, 130 / 255)%Q;
  enhance_weak := (255 / 255, 179 / 255, 186 / 255)%Q;
  suppress_weak := (180 / 255, 210 / 255, 100 / 255)%Q;
  suppress_strong := (120 / 255, 200 / 255, 150 / 255)%Q
|}.

End data_loader.

(** ** analysis/figure1_components.py *)

Module figure1_components.
Import Fig data_loader.

(** Body of the loop [for value in spatial_2020_sorted[:, 2]], on the
    pair of its two accumulators [colors] and [enhancement_count]. *)
Definition loop_body (COLORS : Colors) (acc : list rgb * nat) (value : Q)
  : list rgb * nat :=
  let '(colors, enhancement_count) := acc in
  if Qlt_le_dec value (-0.1) then
    (colors ++ [enhance_strong COLORS], enhancement_count)
  else if Qlt_le_dec value 0 then
    (colors ++ [enhance_weak COLORS], enhancement_count)
  else if Qlt_le_dec value 0.1 then
    (colors ++ [suppress_weak COLORS], enhancement_count + 1)
  else
    (colors ++ [suppress_strong COLORS], enhancement_count + 1).

(** The whole loop, from [colors = []] and [enhancement_count = 0]. *)
Definition classify_loop (COLORS : Colors) (values : list Q) : list rgb * nat :=
  foldl (loop_body COLORS) ([], 0) values.

(** The four legend patches. *)
Definition legend_elements (COLORS : Colors) (marker_size : Q) : arg :=
  AList [
    ARect marker_size marker_size (enhance_strong COLORS) "< -10%";
    ARect marker_size marker_size (enhance_weak COLORS) "-10% to 0%";
    ARect marker_size marker_size (suppress_weak COLORS) "0% to 10%";
    ARect marker_size marker_size (suppress_strong COLORS) "> 10%"
  ].

(** [aspect] is a name or a number; [legend_position] a name or a pair. *)
Definition aspect_arg (aspect : string + Q) : arg :=
  match aspect with inl s => AStr s | inr q => ANum q end.

Section with_argsort.
Context `{!float.Rounding, !np.Argsort}.

Definition create_global_map_only
    (ax : nat) (spatial_2020 : positive) (COLORS : Colors)
    (show_enhancement_text : bool)
    (legend_position : string + Q * Q)
    (legend_fontsize legend_markerscale legend_columnspacing : Q)
    (aspect : string + Q) : M Q :=
  (* Sort and color spatial data *)
  a ← deref spatial_2020;
  spatial_2020_sorted ← index_rows spatial_2020 (np.argsort (np.column2 a));
  sorted ← deref spatial_2020_sorted;
  let '(colors, enhancement_count) := classify_loop COLORS (np.column2 sorted) in
  n ← len spatial_2020;
  q ← truediv enhancement_count n;
  let enhancement_pct := float.fl (q * 100)%Q in
  (* Create GeoDataFrame and plot *)
  draw ax (Call "gdf.plot" [ARows sorted]
             [("markersize", ANum 20); ("c", AColors colors); ("alpha", ANum 0.8)]);;
  draw ax (Call "ctx.add_basemap" []
             [("source", ARef "ctx.providers.CartoDB.PositronNoLabels");
              ("attribution", AStr EmptyString)]);;
  (* Configure map *)
  draw ax (Call "set_xlim" [ANum (-18000000); ANum 18000000] []);;
  draw ax (Call "set_ylim" [ANum (-8000000); ANum 9000000] []);;
  draw ax (Call "set_aspect" [aspect_arg aspect] []);;
  draw ax (Call "set_xticks" [ANums [-18000000; -9000000; 0; 9000000; 18000000]%Q] []);;
  draw ax (Call "set_xticklabels" [AStrs ["-180°"; "-90°"; "0°"; "90°"; "180°"]]
             [("fontsize", ANum 9)]);;
  draw ax (Call "set_yticks" [ANums [-6000000; -3000000; 0; 3000000; 6000000]%Q] []);;
  draw ax (Call "set_yticklabels" [AStrs ["-60°"; "-30°"; "0°"; "30°"; "60°"]]
             [("fontsize", ANum 9)]);;
  draw ax (Call "set_title" [AStr "Global Distribution (2020)"]
             [("fontsize", ANum 13); ("pad", ANum 10)]);;
  (* Add enhancement annotation (only if requested) *)
  (if show_enhancement_text then
     draw ax (Call "text"
                [ANum 0.02; ANum 0.95;
                 AFormat enhancement_pct ".1f"
                   ("% of cities" +:+ newline +:+ "show enhancement")]
                [("transform", ARef "ax.transAxes"); ("fontsize", ANum 10);
                 ("fontweight", AStr "bold"); ("va", AStr "top"); ("ha", AStr "left");
                 ("bbox", ADict [("boxstyle", AStr "round"); ("facecolor", AStr "white");
                                 ("alpha", ANum 0.9)])])
   else ret tt);;
  (* Add legend with customizable size *)
  let marker_size := (0.8 * legend_markerscale)%Q in
  let common :=
    [("title", AStr "Urban Impact"); ("fontsize", ANum legend_fontsize);
     ("title_fontsize", ANum legend_fontsize); ("frameon", ABool true);
     ("framealpha", ANum 0.9);
     ("handlelength", ANum (1.0 * legend_markerscale));
     ("handleheight", ANum (1.0 * legend_markerscale));
     ("columnspacing", ANum legend_columnspacing);
     ("borderpad", ANum 0.3); ("handletextpad", ANum 0.5);
     ("labelspacing", ANum 0.3)] in
  match legend_position with
  | inr (x, y) =>
      draw ax (Call "legend" []
                 ([("handles", legend_elements COLORS marker_size);
                   ("bbox_to_anchor", APair x y); ("loc", AStr "center")] ++ common))
  | inl loc =>
      draw ax (Call "legend" []
                 ([("handles", legend_elements COLORS marker_size);
                   ("loc", AStr loc)] ++ common))
  end;;
  ret enhancement_pct.

End with_argsort.

(** The statistics that [create_temporal_stability_standalone] takes
    from the [enhancement_pct] column of the [temporal_stability] frame:
    [avg_enhancement], [min_val] and [max_val] ([std_dev] is a square
    root and has no rational value; it is left out). *)
Record stability_stats := {
  avg_enhancement : pd.pyfloat;
  min_val : pd.pyfloat;
  max_val : pd.pyfloat
}.

Definition stability_summary (temporal_stability : DataFrame) : stability_stats := {|
  avg_enhancement := pd.mean (enhancement_pct temporal_stability);
  min_val := pd.min (enhancement_pct temporal_stability);
  max_val := pd.max (enhancement_pct temporal_stability)
|}.

End figure1_components.

(** ** composite_figure1.py *)

Module composite_figure1.
Import Fig.

(** The script has its own copy of the color table. *)
Definition COLORS : data_loader.Colors := {|
  data_loader.urban := "#D32F2F";
  data_loader.rural := "#B8860B";
  data_loader.urban_only := "#2E8B57";
  data_loader.enhance_strong := (255 / 255, 120 / 255, 130 / 255)%Q;
  data_loader.enhance_weak := (255 / 255, 179 / 255, 186 / 255)%Q;
  data_loader.suppress_weak := (180 / 255, 210 / 255, 100 / 255)%Q;
  data_loader.suppress_strong := (120 / 255, 200 / 255, 150 / 255)%Q
|}.

(** The font-size table [FONT_SIZE]. *)
Record FontSize := {
  panel_label : Q;
  axis_label : Q;
  tick_label : Q;
  legend : Q;
  annotation : Q
}.

Definition FONT_SIZE : FontSize := {|
  panel_label := 12;
  axis_label := 10;
  tick_label := 9;
  legend := 9;
  annotation := 10
|}.

(** The dict returned by [load_temporal_data], by key. *)
Record temporal := {
  urban_mean : list Q; urban_low : list Q; urban_high : list Q;
  rural_mean : list Q; rural_low : list Q; rural_high : list Q;
  turban_mean : list Q; turban_low : list Q; turban_high : list Q
}.

Definition load_temporal_data (data_dir : string) : M temporal :=
  um ← np_load (data_dir +:+ "/urban_02_05_mean.npy");
  ul ← np_load (data_dir +:+ "/urban_02_05_low.npy");
  uh ← np_load (data_dir +:+ "/urban_02_05_high.npy");
  rm ← np_load (data_dir +:+ "/rural_02_05_mean.npy");
  rl ← np_load (data_dir +:+ "/rural_02_05_low.npy");
  rh ← np_load (data_dir +:+ "/rural_02_05_high.npy");
  tm ← np_load (data_dir +:+ "/turban_02_05_mean.npy");
  tl ← np_load (data_dir +:+ "/turban_02_05_low.npy");
  th ← np_load (data_dir +:+ "/turban_02_05_high.npy");
  ret {| urban_mean := um; urban_low := ul; urban_high := uh;
         rural_mean := rm; rural_low := rl; rural_high := rh;
         turban_mean := tm; turban_low := tl; turban_high := th |}.

Definition load_spatial_data (year : Z) (data_dir : string) : M positive :=
  let filename := data_dir +:+ "/spa_" +:+ pretty year +:+ ".txt" in
  np_loadtxt filename.

(** The classification loop of [plot_global_map], on the script's own
    [COLORS]. *)
Definition map_loop_body (acc : list rgb * nat) (value : Q) : list rgb * nat :=
  let '(colors, enhancement_count) := acc in
  if Qlt_le_dec value (-0.1) then
    (colors ++ [data_loader.enhance_strong COLORS], enhancement_count)
  else if Qlt_le_dec value 0 then
    (colors ++ [data_loader.enhance_weak COLORS], enhancement_count)
  else if Qlt_le_dec value 0.1 then
    (colors ++ [data_loader.suppress_weak COLORS], enhancement_count + 1)
  else
    (colors ++ [data_loader.suppress_strong COLORS], enhancement_count + 1).

Definition add_map_legend (ax : nat) : M unit :=
  let legend_elements :=
    AList [
      ARect 1 1 (data_loader.enhance_strong COLORS) "< -10%";
      ARect 1 1 (data_loader.enhance_weak COLORS) "-10% to 0%";
      ARect 1 1 (data_loader.suppress_weak COLORS) "0% to 10%";
      ARect 1 1 (data_loader.suppress_strong COLORS) "> 10%"
    ] in
  draw ax (Call "legend" []
             [("handles", legend_elements); ("loc", AStr "lower right");
              ("title", AStr "Urban Impact"); ("fontsize", ANum (legend FONT_SIZE));
              ("title_fontsize", ANum (legend FONT_SIZE)); ("frameon", ABool true);
              ("fancybox", ABool true); ("framealpha", ANum 0.9)]).

(** [ax.plot(x, y, ...)]: matplotlib refuses two series of different
    lengths with a [ValueError]. *)
Definition plot_xy (ax : nat) (x y : list Q) (kw : list (string * arg)) : M unit :=
  if Nat.eqb (length x) (length y)
  then draw ax (Call "plot" [ANums x; ANums y] kw)
  else raise Py.ValueError.

(** One-dimensional arrays of these lengths broadcast to one shape: the
    lengths other than 1 are all the same. *)
Definition broadcastable (lengths : list nat) : bool :=
  match List.filter (λ n, negb (Nat.eqb n 1)) lengths with
  | [] => true
  | n :: others => forallb (Nat.eqb n) others
  end.

(** [ax.fill_between(x, y1, y2, ...)]: matplotlib broadcasts the three
    series (a series of one sample stands for a constant) and refuses
    series that do not broadcast with a [ValueError]. *)
Definition fill_between (ax : nat) (x y1 y2 : list Q) (kw : list (string * arg))
  : M unit :=
  if broadcastable [length x; length y1; length y2]
  then draw ax (Call "fill_between" [ANums x; ANums y1; ANums y2] kw)
  else raise Py.ValueError.

(** [np.arange(1000)] *)
Definition arange_1000 : list Q := (λ i, inject_Z (Z.of_nat i)) <$> seq 0 1000.

Section with_argsort.
Context `{!float.Rounding, !np.Argsort, !Savefig}.

Definition plot_global_map (ax : nat) (spatial_data : positive) : M unit :=
  (* Sort by difference index for proper layering *)
  a ← deref spatial_data;
  spatial_data ← index_rows spatial_data (np.argsort (np.column2 a));
  (* Assign colors based on thresholds *)
  total_cities ← len spatial_data;
  sorted ← deref spatial_data;
  let '(colors, enhancement_count) := foldl map_loop_body ([], 0) (np.column2 sorted) in
  (* Calculate percentage *)
  q ← truediv enhancement_count total_cities;
  let enhancement_pct := float.fl (q * 100)%Q in
  (* Plot points *)
  draw ax (Call "gdf.plot" [ARows sorted]
             [("markersize", ANum 3); ("c", AColors colors); ("alpha", ANum 0.8)]);;
  (* Add basemap *)
  draw ax (Call "ctx.add_basemap" []
             [("source", ARef "ctx.providers.CartoDB.PositronNoLabels");
              ("attribution", AStr EmptyString)]);;
  (* Set extent and labels *)
  draw ax (Call "set_xlim" [ANum (-18000000); ANum 18000000] []);;
  draw ax (Call "set_ylim" [ANum (-8000000); ANum 9000000] []);;
  draw ax (Call "set_xticks" [ANums [-18000000; -9000000; 0; 9000000; 18000000]%Q] []);;
  draw ax (Call "set_xticklabels" [AStrs ["-180°"; "-90°"; "0°"; "90°"; "180°"]]
             [("fontsize", ANum (tick_label FONT_SIZE))]);;
  draw ax (Call "set_yticks" [ANums [-6000000; -3000000; 0; 3000000; 6000000]%Q] []);;
  draw ax (Call "set_yticklabels" [AStrs ["-60°"; "-30°"; "0°"; "30°"; "60°"]]
             [("fontsize", ANum (tick_label FONT_SIZE))]);;
  (* Add title and annotation *)
  draw ax (Call "set_title" [AStr "Global Distribution"]
             [("fontsize", ANum (axis_label FONT_SIZE)); ("pad", ANum 10)]);;
  (* Add enhancement percentage *)
  draw ax (Call "text"
             [ANum 0.02; ANum 0.95;
              AFormat enhancement_pct ".1f"
                ("% of cities" +:+ newline +:+ "show enhancement")]
             [("transform", ARef "ax.transAxes");
              ("fontsize", ANum (annotation FONT_SIZE));
              ("fontweight", AStr "bold"); ("va", AStr "top"); ("ha", AStr "left");
              ("bbox", ADict [("boxstyle", AStr "round"); ("facecolor", AStr "white");
                              ("alpha", ANum 0.8)])]);;
  (* Add mini colorbar/legend *)
  add_map_legend ax.

Definition plot_temporal_comparison (ax : nat) (data : temporal) : M unit :=
  let x := arange_1000 in
  (* Plot lines *)
  plot_xy ax x (urban_mean data)
    [("color", AStr (data_loader.urban COLORS)); ("linewidth", ANum 1.5);
     ("label", AStr "Urban Area"); ("alpha", ANum 0.9)];;
  plot_xy ax x (rural_mean data)
    [("color", AStr (data_loader.rural COLORS)); ("linewidth", ANum 1.5);
     ("label", AStr "Rural Area"); ("alpha", ANum 0.9)];;
  (* Add confidence intervals *)
  fill_between ax x (urban_low data) (urban_high data)
    [("color", AStr (data_loader.urban COLORS)); ("alpha", ANum 0.2)];;
  fill_between ax x (rural_low data) (rural_high data)
    [("color", AStr (data_loader.rural COLORS)); ("alpha", ANum 0.2)];;
  (* Mark sunset *)
  draw ax (Call "axvline" [ANum 856]
             [("color", AStr "black"); ("linestyle", AStr "--");
              ("linewidth", ANum 1.2); ("alpha", ANum 0.7)]);;
  draw ax (Call "text" [ANum 856; ARef "ax.get_ylim()[1]*0.95"; AStr "Sunset"]
             [("ha", AStr "center"); ("fontsize", ANum (annotation FONT_SIZE));
              ("fontweight", AStr "bold")]);;
  (* Set labels and ticks *)
  draw ax (Call "set_xticks" [ANums [143; 856]%Q] []);;
  draw ax (Call "set_xticklabels" [AStrs ["Midday"; EmptyString]]
             [("fontsize", ANum (tick_label FONT_SIZE))]);;
  draw ax (Call "set_ylabel" [AStr "Count of wet hour"]
             [("fontsize", ANum (axis_label FONT_SIZE))]);;
  draw ax (Call "set_ylim" [ANum 6.8; ANum 9.8] []);;
  draw ax (Call "set_yticks" [ANums [7; 8; 9]%Q] []);;
  (* Title and legend *)
  draw ax (Call "set_title" [AStr "Light Precipitation (0.2-0.5 mm/hr)"]
             [("fontsize", ANum (axis_label FONT_SIZE)); ("pad", ANum 10)]);;
  draw ax (Call "legend" []
             [("loc", AStr "upper left"); ("fontsize", ANum (legend FONT_SIZE));
              ("frameon", ABool false)]);;
  (* Highlight sunset peak *)
  let sunset_idx := 856 in
  urban_sunset ← item (urban_mean data) sunset_idx;
  draw ax (Call "plot" [ANum (inject_Z (Z.of_nat sunset_idx)); ANum urban_sunset; AStr "o"]
             [("color", AStr (data_loader.urban COLORS)); ("markersize", ANum 6);
              ("markeredgecolor", AStr "white"); ("markeredgewidth", ANum 1)]).

Definition plot_urban_only (ax : nat) (data : temporal) : M unit :=
  let x := arange_1000 in
  (* Plot line *)
  plot_xy ax x (turban_mean data)
    [("color", AStr (data_loader.urban_only COLORS)); ("linewidth", ANum 1.5);
     ("label", AStr ("Precipitation only" +:+ newline +:+ "in Urban Area"));
     ("alpha", ANum 0.9)];;
  (* Add confidence interval *)
  fill_between ax x (turban_low data) (turban_high data)
    [("color", AStr (data_loader.urban_only COLORS)); ("alpha", ANum 0.2)];;
  (* Mark sunset *)
  draw ax (Call "axvline" [ANum 856]
             [("color", AStr "black"); ("linestyle", AStr "--");
              ("linewidth", ANum 1.2); ("alpha", ANum 0.7)]);;
  draw ax (Call "text" [ANum 856; ARef "ax.get_ylim()[1]*0.95"; AStr "Sunset"]
             [("ha", AStr "center"); ("fontsize", ANum (annotation FONT_SIZE));
              ("fontweight", AStr "bold")]);;
  (* Mark peaks *)
  midday_peak_idx ←
    match np.argmax (np.slice 400 500 (turban_mean data)) with
    | Some i => ret (i + 400)
    | None => raise Py.ValueError
    end;
  let sunset_peak_idx := 856 in
  midday_peak ← item (turban_mean data) midday_peak_idx;
  draw ax (Call "plot" [ANum (inject_Z (Z.of_nat midday_peak_idx)); ANum midday_peak; AStr "o"]
             [("color", AStr (data_loader.urban_only COLORS)); ("markersize", ANum 6);
              ("markeredgecolor", AStr "white"); ("markeredgewidth", ANum 1)]);;
  sunset_peak ← item (turban_mean data) sunset_peak_idx;
  draw ax (Call "plot" [ANum (inject_Z (Z.of_nat sunset_peak_idx)); ANum sunset_peak; AStr "o"]
             [("color", AStr (data_loader.urban_only COLORS)); ("markersize", ANum 6);
              ("markeredgecolor", AStr "white"); ("markeredgewidth", ANum 1)]);;
  (* Set labels and ticks *)
  draw ax (Call "set_xticks" [ANums [143; 856]%Q] []);;
  draw ax (Call "set_xticklabels" [AStrs ["Midday"; EmptyString]]
             [("fontsize", ANum (tick_label FONT_SIZE))]);;
  draw ax (Call "set_ylabel" [AStr "Count of wet hour"]
             [("fontsize", ANum (axis_label FONT_SIZE))]);;
  draw ax (Call "set_ylim" [ANum 2.8; ANum 4.2] []);;
  draw ax (Call "set_yticks" [ANums [3.0; 3.5; 4.0]%Q] []);;
  (* Title and legend *)
  draw ax (Call "set_title" [AStr "Urban-Specific Events"]
             [("fontsize", ANum (axis_label FONT_SIZE)); ("pad", ANum 10)]);;
  draw ax (Call "legend" []
             [("loc", AStr "upper left"); ("fontsize", ANum (legend FONT_SIZE));
              ("frameon", ABool false)]).

(** The panel label drawn on each of the three axes. *)
Definition panel_label_call (label : string) : call :=
  Call "text" [ANum 0.02; ANum 0.98; AStr label]
    [("transform", ARef "ax.transAxes"); ("fontsize", ANum (panel_label FONT_SIZE));
     ("fontweight", AStr "bold"); ("va", AStr "top"); ("ha", AStr "left")].

(** The driver.  [plt.figure], the grid specification and [plt.show]
    leave no trace in the world; the three [add_subplot] calls create
    the axes. *)
Definition create_composite_figure (output_path : string) : M unit :=
  print "Loading data...";;
  temporal_data ← load_temporal_data "data/";
  spatial_data ← load_spatial_data 2020 "data/";
  print "Creating figure...";;
  (* Create subplots *)
  ax1 ← add_subplot;
  ax2 ← add_subplot;
  ax3 ← add_subplot;
  print "Plotting global map...";;
  plot_global_map ax1 spatial_data;;
  print "Plotting temporal comparison...";;
  plot_temporal_comparison ax2 temporal_data;;
  print "Plotting urban-only events...";;
  plot_urban_only ax3 temporal_data;;
  (* Add panel labels *)
  draw ax1 (panel_label_call "a");;
  draw ax2 (panel_label_call "b");;
  draw ax3 (panel_label_call "c");;
  (* Save figure *)
  print ("Saving figure to " +:+ output_path +:+ "...");;
  savefig output_path;;
  (* Also save as PNG for quick viewing *)
  let png_path := Py.str_replace output_path ".pdf" ".png" in
  savefig png_path;;
  print "Figure saved successfully!";;
  print ("PDF: " +:+ output_path);;
  print ("PNG: " +:+ png_path).

End with_argsort.

End composite_figure1.

(** ** The vocabulary of the specification

    Definitions that follow the words of the specification, to compare
    with what the code computes. *)

Module Spec.

(** The four ordered categories. *)
Inductive category := StrongNegative | WeakNegative | WeakPositive | StrongPositive.

(** The half-open interval rule with cut points [t1] and [t2]. *)
Definition in_category (t1 t2 : Q) (c : category) (value : Q) : Prop :=
  match c with
  | StrongNegative => (value < t1)%Q
  | WeakNegative => (t1 <= value)%Q ∧ (value < 0)%Q
  | WeakPositive => (0 <= value)%Q ∧ (value < t2)%Q
  | StrongPositive => (t2 <= value)%Q
  end.

(** The two positive categories. *)
Definition is_positive (c : category) : bool :=
  match c with
  | StrongNegative | WeakNegative => false
  | WeakPositive | StrongPositive => true
  end.

(** The color that shows a category on the map. *)
Definition category_color (COLORS : data_loader.Colors) (c : category) : Fig.rgb :=
  match c with
  | StrongNegative => data_loader.enhance_strong COLORS
  | WeakNegative => data_loader.enhance_weak COLORS
  | WeakPositive => data_loader.suppress_weak COLORS
  | StrongPositive => data_loader.suppress_strong COLORS
  end.

(** A color list shows, value by value, the category of each value
    under the cut points -0.1 and 0.1. *)
Definition colors_of (COLORS : data_loader.Colors) (values : list Q)
    (colors : list Fig.rgb) : Prop :=
  Forall2 (λ value color,
             ∃ c, in_category (-0.1) 0.1 c value ∧ color = category_color COLORS c)
          values colors.

(** The ten values of the worked example and their categories. *)
Definition example_values : list Q :=
  [-0.2; -0.15; -0.05; -0.01; 0; 0.02; 0.08; 0.1; 0.5; 1.0]%Q.

Definition example_categories : list category :=
  [StrongNegative; StrongNegative; WeakNegative; WeakNegative;
   WeakPositive; WeakPositive; WeakPositive;
   StrongPositive; StrongPositive; StrongPositive].

(** Number of observations in the positive categories: those with
    [value ≥ 0]. *)
Definition positive_count (values : list Q) : nat :=
  length (List.filter (Qle_bool 0) values).

(** [100 × positive / total] *)
Definition percentage (positive total : nat) : Q :=
  (100 * inject_Z (Z.of_nat positive) / inject_Z (Z.of_nat total))%Q.

(** Two numbers agree within a tolerance. *)
Definition within (tolerance x y : Q) : Prop := (Qabs (x - y) <= tolerance)%Q.

(** A summary with the given mean, minimum and maximum, each within the
    tolerance. *)
Definition summary_within (tolerance : Q) (s : figure1_components.stability_stats)
    (mean min max : Q) : Prop :=
  ∃ m lo hi,
    s = {| figure1_components.avg_enhancement := pd.Num m;
           figure1_components.min_val := pd.Num lo;
           figure1_components.max_val := pd.Num hi |}
    ∧ within tolerance m mean ∧ within tolerance lo min ∧ within tolerance hi max.

(** The keys of the label table and of the two axis-limit tables. *)
Definition intensity_keys : list string :=
  ["low"; "moderate"; "other"; "low_moderate"; "all"].

(** The error the specification names for an empty input. *)
Definition DegenerateInputError : Py.exn := Py.Exception "DegenerateInputError".

(** The two output files of the specification: one base path, two
    extensions. *)
Definition output_files (base : string) : list string :=
  [base +:+ ".pdf"; base +:+ ".png"].

(** The input files of the driver are in place: the nine series of the
    light-intensity profile, a thousand samples each, and a spatial
    snapshot for 2020 of two rows or more (a table that [np.loadtxt]
    reads as a two-dimensional array). *)
Definition inputs_ready (w : Fig.world) (data : composite_figure1.temporal)
    (rows : list np.row) : Prop :=
  Fig.disk w !! "data//urban_02_05_mean.npy" = Some (Fig.Npy (composite_figure1.urban_mean data))
  ∧ Fig.disk w !! "data//urban_02_05_low.npy" = Some (Fig.Npy (composite_figure1.urban_low data))
  ∧ Fig.disk w !! "data//urban_02_05_high.npy" = Some (Fig.Npy (composite_figure1.urban_high data))
  ∧ Fig.disk w !! "data//rural_02_05_mean.npy" = Some (Fig.Npy (composite_figure1.rural_mean data))
  ∧ Fig.disk w !! "data//rural_02_05_low.npy" = Some (Fig.Npy (composite_figure1.rural_low data))
  ∧ Fig.disk w !! "data//rural_02_05_high.npy" = Some (Fig.Npy (composite_figure1.rural_high data))
  ∧ Fig.disk w !! "data//turban_02_05_mean.npy" = Some (Fig.Npy (composite_figure1.turban_mean data))
  ∧ Fig.disk w !! "data//turban_02_05_low.npy" = Some (Fig.Npy (composite_figure1.turban_low data))
  ∧ Fig.disk w !! "data//turban_02_05_high.npy" = Some (Fig.Npy (composite_figure1.turban_high data))
  ∧ Fig.disk w !! "data//spa_2020.txt" = Some (Fig.Txt rows)
  ∧ 1 < length rows
  ∧ length (composite_figure1.urban_mean data) = 1000
  ∧ length (composite_figure1.urban_low data) = 1000
  ∧ length (composite_figure1.urban_high data) = 1000
  ∧ length (composite_figure1.rural_mean data) = 1000
  ∧ length (composite_figure1.rural_low data) = 1000
  ∧ length (composite_figure1.rural_high data) = 1000
  ∧ length (composite_figure1.turban_mean data) = 1000
  ∧ length (composite_figure1.turban_low data) = 1000
  ∧ length (composite_figure1.turban_high data) = 1000.

End Spec.

(** ** Sample inputs *)

Module Example.
Import Fig.

(** Ten cities carrying the values of the worked example. *)
Definition cities : list np.row :=
  zip_with (λ i value, np.Row (inject_Z (Z.of_nat i) - 40) (inject_Z (Z.of_nat i) * 12) value)
    (seq 0 10) Spec.example_values.

(** Twenty-five cities, seven of them with a value of 0 or more. *)
Definition cities_25 : list np.row :=
  (λ i, np.Row (inject_Z (Z.of_nat i) - 12) (inject_Z (Z.of_nat i) * 7)
          ((inject_Z (Z.of_nat i) - 18) / 100)) <$> seq 0 25.

(** Three cities, not in order of value. *)
Definition unsorted_cities : list np.row :=
  [np.Row 48.85 2.35 0.3; np.Row 35.68 139.69 (-0.25); np.Row (-33.87) 151.21 0.04]%Q.

(** A world whose only array is [rows], held by reference 1, with
    nothing drawn, saved or printed. *)
Definition world_of (rows : list np.row) : world :=
  World ∅ {[1%positive := rows]} 1 [] [] [].

(** A thousand-sample series, and a profile made of it. *)
Definition series : list Q := replicate 1000 3.5%Q.

Definition profile : composite_figure1.temporal := {|
  composite_figure1.urban_mean := series;
  composite_figure1.urban_low := series;
  composite_figure1.urban_high := series;
  composite_figure1.rural_mean := series;
  composite_figure1.rural_low := series;
  composite_figure1.rural_high := series;
  composite_figure1.turban_mean := series;
  composite_figure1.turban_low := series;
  composite_figure1.turban_high := series
|}.

(** A world with the input files of the driver and nothing else. *)
Definition driver_world : world :=
  World
    (list_to_map [
       ("data//urban_02_05_mean.npy", Npy series);
       ("data//urban_02_05_low.npy", Npy series);
       ("data//urban_02_05_high.npy", Npy series);
       ("data//rural_02_05_mean.npy", Npy series);
       ("data//rural_02_05_low.npy", Npy series);
       ("data//rural_02_05_high.npy", Npy series);
       ("data//turban_02_05_mean.npy", Npy series);
       ("data//turban_02_05_low.npy", Npy series);
       ("data//turban_02_05_high.npy", Npy series);
       ("data//spa_2020.txt", Txt cities)
     ])
    ∅ 0 [] [] [].

(** A file system and a backend with which [savefig] accepts every
    path. *)
Definition writable : Savefig := {| savefig_error _ := None |}.

End Example.

(** ** analysis/data_loader.py: the loading functions *)

Module data_loader_files.
Import Fig.

(** A [for] loop over a list; [s] holds the variables the loop updates. *)
Fixpoint for_each {A S} (l : list A) (body : S → A → M S) (s : S) : M S :=
  match l with
  | [] => mret s
  | x :: l' => s' ← body s x; for_each l' body s'
  end.

(** [try: m  except FileNotFoundError: handler] *)
Definition except_FileNotFoundError {A} (m handler : M A) : M A :=
  λ w, match m w with
       | (w', inl e) =>
           if String.eqb (Py.exn_class e) "FileNotFoundError" then handler w'
           else (w', inl e)
       | (w', inr a) => (w', inr a)
       end.

(** The dict [intensities], in the order of its items. *)
Definition intensities : list (string * string) :=
  [("low", "02_05"); ("moderate", "05_1"); ("other", "1")].

(** The dict built by one pass of the loop of [load_temporal_data]: its
    nine [np.load] calls, in the order of the dict display. *)
Definition load_intensity (data_dir suffix : string)
  : M (gmap string (gmap string (list Q))) :=
  urban_mean ← np_load (data_dir +:+ "/urban_" +:+ suffix +:+ "_mean.npy");
  urban_low ← np_load (data_dir +:+ "/urban_" +:+ suffix +:+ "_low.npy");
  urban_high ← np_load (data_dir +:+ "/urban_" +:+ suffix +:+ "_high.npy");
  rural_mean ← np_load (data_dir +:+ "/rural_" +:+ suffix +:+ "_mean.npy");
  rural_low ← np_load (data_dir +:+ "/rural_" +:+ suffix +:+ "_low.npy");
  rural_high ← np_load (data_dir +:+ "/rural_" +:+ suffix +:+ "_high.npy");
  turban_mean ← np_load (data_dir +:+ "/turban_" +:+ suffix +:+ "_mean.npy");
  turban_low ← np_load (data_dir +:+ "/turban_" +:+ suffix +:+ "_low.npy");
  turban_high ← np_load (data_dir +:+ "/turban_" +:+ suffix +:+ "_high.npy");
  mret (list_to_map [
    ("urban", list_to_map [("mean", urban_mean); ("low", urban_low); ("high", urban_high)]);
    ("rural", list_to_map [("mean", rural_mean); ("low", rural_low); ("high", rural_high)]);
    ("turban", list_to_map [("mean", turban_mean); ("low", turban_low); ("high", turban_high)])
  ]).

Definition load_temporal_data (data_dir : string)
  : M (gmap string (gmap string (gmap string (list Q)))) :=
  for_each intensities
    (λ data '(name, suffix),
       entry ← load_intensity data_dir suffix;
       mret (<[name := entry]> data))
    ∅.

(** [year] is an int or a string; [str(year)] for the file name. *)
Definition str_of_year (year : string + Z) : string :=
  match year with inl s => s | inr z => pretty z end.

(** [year == 'all'] *)
Definition is_all (year : string + Z) : bool :=
  match year with inl s => String.eqb s "all" | inr _ => false end.

(** Body of the loop over [range(2001, 2021)]. *)
Definition load_year (data_dir : string) (spatial_data : gmap Z positive) (yr : Z)
  : M (gmap Z positive) :=
  except_FileNotFoundError
    (a ← np_loadtxt (data_dir +:+ "/spa_" +:+ pretty yr +:+ ".txt");
     mret (<[yr := a]> spatial_data))
    (print ("Warning: spa_" +:+ pretty yr +:+ ".txt not found");;
     mret spatial_data).

(** Returns a dict from years to arrays for [year == 'all'], one array
    otherwise. *)
Definition load_spatial_data (data_dir : string) (year : string + Z)
  : M (gmap Z positive + positive) :=
  if is_all year then
    spatial_data ← for_each (seqZ 2001 20) (load_year data_dir) ∅;
    mret (inl spatial_data)
  else
    a ← np_loadtxt (data_dir +:+ "/spa_" +:+ str_of_year year +:+ ".txt");
    mret (inr a).

End data_loader_files.

(** ** analysis/figure1_components.py: the other panels *)

Module figure1_panels.
Import Fig data_loader.

Definition TEMPORAL_ENHANCEMENT_COLOR : string := "#FF6B35".
Definition TEMPORAL_CITIES_COLOR : string := "#4A90E2".

(** A float that may be NaN, as an argument; [x + q]; and the f-string
    [f"{x:spec}rest"] (Python prints NaN as [nan]). *)
Definition float_arg (x : pd.pyfloat) : arg :=
  match x with pd.Num q => ANum q | pd.NaN => ARef "nan" end.

Definition float_add (x : pd.pyfloat) (q : Q) : pd.pyfloat :=
  match x with pd.Num p => pd.Num (p + q) | pd.NaN => pd.NaN end.

Definition float_format (x : pd.pyfloat) (spec rest : string) : arg :=
  match x with
  | pd.Num q => AFormat q spec rest
  | pd.NaN => AStr ("nan" +:+ rest)
  end.

(** [parent_ax.inset_axes(position)] and [ax.twinx()]: a call on the
    axes that is asked, and a new axes. *)
Definition inset_axes (parent_ax : nat) (position : list Q) : M nat :=
  draw parent_ax (Call "inset_axes" [ANums position] []);; add_subplot.

Definition twinx (ax : nat) : M nat :=
  draw ax (Call "twinx" [] []);; add_subplot.

(** The columns of a data frame have one length, so the two series of
    each [plot] call below match. *)
Definition create_temporal_stability_inset
    (parent_ax : nat) (temporal_stability : DataFrame) (position : list Q)
  : M (nat * nat) :=
  (* Create inset *)
  inset_ax ← inset_axes parent_ax position;
  (* Create second y-axis *)
  inset_ax2 ← twinx inset_ax;
  draw inset_ax
    (Call "plot" [ANums (inject_Z <$> year temporal_stability);
                  ANums (enhancement_pct temporal_stability)]
       [("color", AStr TEMPORAL_ENHANCEMENT_COLOR); ("linewidth", ANum 1.5);
        ("marker", AStr "o"); ("markersize", ANum 2); ("label", AStr "Enhancement %")]);;
  (* Plot number of cities on right axis *)
  draw inset_ax2
    (Call "plot" [ANums (inject_Z <$> year temporal_stability);
                  ANums (inject_Z <$> n_cities temporal_stability)]
       [("color", AStr TEMPORAL_CITIES_COLOR); ("linewidth", ANum 1.5);
        ("marker", AStr "s"); ("markersize", ANum 2);
        ("label", AStr "Number of Cities")]);;
  (* Add average line for enhancement *)
  let avg_enhancement := pd.mean (enhancement_pct temporal_stability) in
  draw inset_ax
    (Call "axhline" [float_arg avg_enhancement]
       [("color", AStr "black"); ("linestyle", AStr "--"); ("linewidth", ANum 0.8);
        ("alpha", ANum 0.7)]);;
  draw inset_ax
    (Call "text" [ANum 2002; float_arg (float_add avg_enhancement 0.5);
                  float_format avg_enhancement ".1f" "%"]
       [("fontsize", ANum 6); ("va", AStr "bottom"); ("fontweight", AStr "bold")]);;
  (* Configure left axis (enhancement %) *)
  draw inset_ax (Call "set_xlim" [ANum 2000; ANum 2021] []);;
  draw inset_ax (Call "set_ylim" [ANum 55; ANum 70] []);;
  draw inset_ax (Call "set_xticks" [ANums [2001; 2010; 2020]%Q] []);;
  draw inset_ax (Call "set_xticklabels" [AStrs ["2001"; "2010"; "2020"]]
                   [("fontsize", ANum 7)]);;
  draw inset_ax (Call "set_yticks" [ANums [55; 60; 65; 70]%Q] []);;
  draw inset_ax (Call "set_yticklabels" [AStrs ["55%"; "60%"; "65%"; "70%"]]
                   [("fontsize", ANum 7)]);;
  draw inset_ax (Call "set_ylabel" [AStr "Enhancement %"]
                   [("fontsize", ANum 7); ("color", AStr TEMPORAL_ENHANCEMENT_COLOR)]);;
  draw inset_ax (Call "tick_params" []
                   [("axis", AStr "y"); ("labelcolor", AStr TEMPORAL_ENHANCEMENT_COLOR)]);;
  (* Configure right axis (number of cities) *)
  draw inset_ax2 (Call "set_ylim" [ANum 480; ANum 550] []);;
  draw inset_ax2 (Call "set_yticks" [ANums [480; 500; 520; 540; 560]%Q] []);;
  draw inset_ax2 (Call "set_yticklabels" [AStrs ["480"; "500"; "520"; "540"; "560"]]
                    [("fontsize", ANum 7)]);;
  draw inset_ax2 (Call "set_ylabel" [AStr "Number of Cities"]
                    [("fontsize", ANum 7); ("color", AStr TEMPORAL_CITIES_COLOR)]);;
  draw inset_ax2 (Call "tick_params" []
                    [("axis", AStr "y"); ("labelcolor", AStr TEMPORAL_CITIES_COLOR)]);;
  (* Title and grid *)
  draw inset_ax (Call "grid" [ABool true] [("alpha", ANum 0.3); ("linewidth", ANum 0.5)]);;
  draw inset_ax (Call "set_facecolor" [AStr "white"] []);;
  draw inset_ax (Call "patch.set_alpha" [ANum 0.95] []);;
  mret (inset_ax, inset_ax2).

Definition create_urban_rural_comparison
    (ax : nat) (urban_mean urban_low urban_high rural_mean rural_low rural_high : list Q)
    (COLORS : Colors) (intensity_label : string) (y_lim : Q * Q) (y_ticks : list Q)
    (show_legend show_title show_ylabel show_xlabel : bool) : M unit :=
  let x := composite_figure1.arange_1000 in
  (* Plot lines *)
  composite_figure1.plot_xy ax x urban_mean
    [("color", AStr (urban COLORS)); ("linewidth", ANum 1.5);
     ("label", AStr "Urban"); ("alpha", ANum 0.9)];;
  composite_figure1.plot_xy ax x rural_mean
    [("color", AStr (rural COLORS)); ("linewidth", ANum 1.5);
     ("label", AStr "Rural"); ("alpha", ANum 0.9)];;
  (* Confidence intervals *)
  composite_figure1.fill_between ax x urban_low urban_high
    [("color", AStr (urban COLORS)); ("alpha", ANum 0.2)];;
  composite_figure1.fill_between ax x rural_low rural_high
    [("color", AStr (rural COLORS)); ("alpha", ANum 0.2)];;
  (* Mark sunset *)
  draw ax (Call "axvline" [ANum 856]
             [("color", AStr "black"); ("linestyle", AStr "--");
              ("linewidth", ANum 1.2); ("alpha", ANum 0.7)]);;
  (* Configure axes *)
  draw ax (Call "set_xticks" [ANums [143; 856]%Q] []);;
  (if show_xlabel then
     draw ax (Call "set_xticklabels" [AStrs ["Midday"; "Sunset"]] [("fontsize", ANum 9)]);;
     draw ax (Call "get_xticklabels()[1].set_fontweight" [AStr "bold"] [])
   else
     draw ax (Call "set_xticklabels" [AStrs []] []));;
  (if show_ylabel then
     draw ax (Call "set_ylabel" [AStr "Count of wet hour"] [("fontsize", ANum 10)])
   else mret tt);;
  draw ax (Call "set_ylim" [APair y_lim.1 y_lim.2] []);;
  draw ax (Call "set_yticks" [ANums y_ticks] []);;
  (if show_title then
     draw ax (Call "set_title" [AStr intensity_label]
                [("fontsize", ANum 10); ("pad", ANum 10)])
   else mret tt);;
  (if show_legend then
     draw ax (Call "legend" []
                [("bbox_to_anchor", APair 0.2 0.02); ("loc", AStr "lower left");
                 ("fontsize", ANum 9); ("frameon", ABool false)])
   else mret tt).

Definition create_urban_only_events
    (ax : nat) (turban_mean turban_low turban_high : list Q)
    (COLORS : Colors) (intensity_label : string) (y_lim : Q * Q) (y_ticks : list Q)
    (show_legend show_title show_ylabel show_xlabel : bool) : M unit :=
  let x := composite_figure1.arange_1000 in
  (* Plot line *)
  composite_figure1.plot_xy ax x turban_mean
    [("color", AStr (urban_only COLORS)); ("linewidth", ANum 1.5);
     ("label", AStr "Urban Only"); ("alpha", ANum 0.9)];;
  (* Confidence interval *)
  composite_figure1.fill_between ax x turban_low turban_high
    [("color", AStr (urban_only COLORS)); ("alpha", ANum 0.2)];;
  (* Mark sunset *)
  draw ax (Call "axvline" [ANum 856]
             [("color", AStr "black"); ("linestyle", AStr "--");
              ("linewidth", ANum 1.2); ("alpha", ANum 0.7)]);;
  (* Configure axes *)
  draw ax (Call "set_xticks" [ANums [143; 856]%Q] []);;
  (if show_xlabel then
     draw ax (Call "set_xticklabels" [AStrs ["Midday"; "Sunset"]] [("fontsize", ANum 9)]);;
     draw ax (Call "get_xticklabels()[1].set_fontweight" [AStr "bold"] [])
   else
     draw ax (Call "set_xticklabels" [AStrs []] []));;
  (if show_ylabel then
     draw ax (Call "set_ylabel" [AStr "Count of wet hour"] [("fontsize", ANum 10)])
   else mret tt);;
  draw ax (Call "set_ylim" [APair y_lim.1 y_lim.2] []);;
  draw ax (Call "set_yticks" [ANums y_ticks] []);;
  (if show_title then
     draw ax (Call "set_title" [AStr intensity_label]
                [("fontsize", ANum 10); ("pad", ANum 10)])
   else mret tt);;
  (if show_legend then
     draw ax (Call "legend" []
                [("bbox_to_anchor", APair 0.2 0.02); ("loc", AStr "lower left");
                 ("fontsize", ANum 9); ("frameon", ABool false)])
   else mret tt).

(** The lines that [create_urban_rural_comparison] and
    [create_urban_only_events] have in common after the sunset mark
    ("Configure axes"), named for the proofs. *)
Definition configure_axes (ax : nat) (intensity_label : string)
    (y_lim : Q * Q) (y_ticks : list Q)
    (show_legend show_title show_ylabel show_xlabel : bool) : M unit :=
  draw ax (Call "set_xticks" [ANums [143; 856]%Q] []);;
  (if show_xlabel then
     draw ax (Call "set_xticklabels" [AStrs ["Midday"; "Sunset"]] [("fontsize", ANum 9)]);;
     draw ax (Call "get_xticklabels()[1].set_fontweight" [AStr "bold"] [])
   else
     draw ax (Call "set_xticklabels" [AStrs []] []));;
  (if show_ylabel then
     draw ax (Call "set_ylabel" [AStr "Count of wet hour"] [("fontsize", ANum 10)])
   else mret tt);;
  draw ax (Call "set_ylim" [APair y_lim.1 y_lim.2] []);;
  draw ax (Call "set_yticks" [ANums y_ticks] []);;
  (if show_title then
     draw ax (Call "set_title" [AStr intensity_label]
                [("fontsize", ANum 10); ("pad", ANum 10)])
   else mret tt);;
  (if show_legend then
     draw ax (Call "legend" []
                [("bbox_to_anchor", APair 0.2 0.02); ("loc", AStr "lower left");
                 ("fontsize", ANum 9); ("frameon", ABool false)])
   else mret tt).

Section with_argsort.
Context `{!float.Rounding, !np.Argsort}.

(** [create_global_map_only] gets seven positional arguments; the column
    spacing and the aspect take their defaults, 1.0 and 'auto'.  The
    inset takes its default position. *)
Definition create_global_map_with_temporal_inset
    (ax1 : nat) (temporal_stability : DataFrame) (spatial_2020 : positive)
    (COLORS : Colors) (show_enhancement_text : bool)
    (legend_position : string + Q * Q) (legend_fontsize legend_markerscale : Q)
  : M Q :=
  (* Create the main map *)
  enhancement_pct ←
    figure1_components.create_global_map_only ax1 spatial_2020 COLORS
      show_enhancement_text legend_position legend_fontsize legend_markerscale
      1.0 (inl "auto");
  (* Add the temporal stability inset *)
  _ ← create_temporal_stability_inset ax1 temporal_stability [0.62; 0.65; 0.35; 0.28]%Q;
  mret enhancement_pct.

End with_argsort.

End figure1_panels.

(** ** Words for the further properties *)

Module Vocabulary.
Import Fig.

(** The place of a category in the order from strong-negative to
    strong-positive. *)
Definition rank (c : Spec.category) : nat :=
  match c with
  | Spec.StrongNegative => 0
  | Spec.WeakNegative => 1
  | Spec.WeakPositive => 2
  | Spec.StrongPositive => 3
  end.

(** The names of the methods called, in the order of the calls. *)
Definition methods (calls : list (nat * call)) : list string :=
  (λ c, method c.2) <$> calls.

(** The value of a keyword argument of a call. *)
Definition kwarg (name : string) (c : call) : option arg :=
  (list_to_map (kwargs c) : gmap string arg) !! name.

(** The calls made on one axes. *)
Definition calls_on (ax : nat) (calls : list (nat * call)) : list call :=
  snd <$> filter (λ c, c.1 = ax) calls.

(** The path of a series file and of a spatial snapshot, by the naming
    convention of the data directory. *)
Definition series_path (data_dir domain suffix stat : string) : string :=
  data_dir +:+ "/" +:+ domain +:+ "_" +:+ suffix +:+ "_" +:+ stat +:+ ".npy".

Definition snapshot_path (data_dir : string) (yr : Z) : string :=
  data_dir +:+ "/spa_" +:+ pretty yr +:+ ".txt".

Definition domains : list string := ["urban"; "rural"; "turban"].
Definition stats : list string := ["mean"; "low"; "high"].

(** The warning printed for a year without a snapshot. *)
Definition warning (yr : Z) : string :=
  "Warning: spa_" +:+ pretty yr +:+ ".txt not found".

(** The snapshot of a year is missing from the disk. *)
Definition missing (w : world) (data_dir : string) (yr : Z) : Prop :=
  disk w !! snapshot_path data_dir yr = None.

#[global] Instance missing_dec w data_dir yr : Decision (missing w data_dir yr).
Proof. unfold missing. apply _. Defined.

(** [entry[domain][stat]] and [data[name][domain][stat]] in the nested
    dicts of [load_temporal_data]. *)
Definition stat_of (entry : gmap string (gmap string (list Q)))
    (domain stat : string) : option (list Q) :=
  m ← entry !! domain; m !! stat.

Definition series_of (data : gmap string (gmap string (gmap string (list Q))))
    (name domain stat : string) : option (list Q) :=
  entry ← data !! name; stat_of entry domain stat.

(** A file of the profile of one suffix holds a text table instead of an
    array. *)
Definition text_in_profile (w : world) (data_dir suffix : string) : Prop :=
  ∃ domain stat rows,
    domain ∈ domains ∧ stat ∈ stats
    ∧ disk w !! series_path data_dir domain suffix stat = Some (Txt rows).

(** A computation that saves no figure. *)
Definition keeps_saved {A} (m : M A) : Prop :=
  ∀ w, saved (m w).1 = saved w.

(** A computation that ends with the two [savefig] calls of the driver.
    When it returns, it has saved to [pdf] and then to [png].  When it
    raises, it has saved nothing, or to [pdf] only: then [savefig] has
    refused [png], with the exception raised. *)
Definition saves_pair `{!Savefig} {A} (pdf png : string) (m : M A) : Prop :=
  ∀ w, match m w with
       | (w', inr _) =>
           saved w' = saved w ++ [pdf; png]
           ∧ savefig_error pdf = None ∧ savefig_error png = None
       | (w', inl e) =>
           saved w' = saved w
           ∨ (saved w' = saved w ++ [pdf]
              ∧ savefig_error pdf = None ∧ savefig_error png = Some e)
       end.

(** The years of the snapshots. *)
Definition years : list Z := seqZ 2001 20.

End Vocabulary.

(** ** More sample inputs *)

Module Sample.
Import Fig.

(** A data directory with the snapshots of 2019 and 2020 only. *)
Definition two_snapshots : world :=
  World
    (list_to_map [
       ("data/spa_2019.txt", Txt Example.unsorted_cities);
       ("data/spa_2020.txt", Txt Example.cities)
     ])
    ∅ 0 [] [] [].

(** The content of a series file of the profiles: three samples that
    tell the files apart by the lengths of their names. *)
Definition content (suffix domain stat : string) : list Q :=
  [inject_Z (Z.of_nat (String.length suffix));
   inject_Z (Z.of_nat (String.length domain));
   inject_Z (Z.of_nat (String.length stat))].

(** A data directory with the 27 series files of the three profiles. *)
Definition profiles : world :=
  World
    (list_to_map
       (suffix ← data_loader_files.intensities.*2;
        domain ← Vocabulary.domains;
        stat ← Vocabulary.stats;
        [(Vocabulary.series_path "data" domain suffix stat,
          Npy (content suffix domain stat))]))
    ∅ 0 [] [] [].

(** A world with nothing in it. *)
Definition empty_world : world := World ∅ ∅ 0 [] [] [].

(** The same three cities as [Example.unsorted_cities], in another order. *)
Definition shuffled_cities : list np.row :=
  [np.Row (-33.87) 151.21 0.04; np.Row 48.85 2.35 0.3; np.Row 35.68 139.69 (-0.25)]%Q.

End Sample.

(** * Properties *)

(** ** The definitions at work *)

Example str_replace_every_occurrence :
  Py.str_replace "a.pdf.d/fig.pdf" ".pdf" ".png" = "a.png.d/fig.png".
Proof. reflexivity. Qed.

Example str_replace_no_occurrence :
  Py.str_replace "figures/figure1.svg" ".pdf" ".png" = "figures/figure1.svg".
Proof. reflexivity. Qed.

Example str_replace_no_overlap : Py.str_replace "aaa" "aa" "b" = "ba".
Proof. reflexivity. Qed.

Example insertion_argsort_sample :
  np.insertion_argsort [0.3; -0.25; 0.04; -0.25]%Q = [1; 3; 2; 0].
Proof. reflexivity. Qed.

Example argmax_first_maximum : np.argmax [1; 3; 2; 3]%Q = Some 1.
Proof. reflexivity. Qed.

Example classify_loop_boundaries :
  figure1_components.classify_loop data_loader.COLORS [-0.1; 0; 0.1]%Q
  = ([data_loader.enhance_weak data_loader.COLORS;
      data_loader.suppress_weak data_loader.COLORS;
      data_loader.suppress_strong data_loader.COLORS], 2).
Proof. reflexivity. Qed.

Example get_y_axis_limits_low_turban :
  data_loader.get_y_axis_limits "low" "turban" = ((2.8, 4.2), [3.0; 3.5; 4.0])%Q.
Proof. reflexivity. Qed.

Example get_intensity_label_all : data_loader.get_intensity_label "all" = "All intensities".
Proof. reflexivity. Qed.

(** ** The insertion sort implements [argsort] *)

Section insertion_sort.
Variable key : nat → Q.

Lemma insert_by_perm i l : np.insert_by key i l ≡ₚ i :: l.
Proof.
  induction l as [|j l IH]; simpl; [done|].
  destruct (Qlt_le_dec (key j) (key i)); [|done].
  rewrite IH. apply Permutation_swap.
Qed.

Lemma insert_by_hd i j l :
  (key j <= key i)%Q → HdRel Qle (key j) (key <$> l) →
  HdRel Qle (key j) (key <$> np.insert_by key i l).
Proof.
  intros Hji Hl. destruct l as [|k l]; simpl.
  - by constructor.
  - destruct (Qlt_le_dec (key k) (key i)); simpl; constructor; try done.
    by inversion Hl.
Qed.

Lemma insert_by_sorted i l :
  Sorted Qle (key <$> l) → Sorted Qle (key <$> np.insert_by key i l).
Proof.
  induction l as [|j l IH]; simpl; intros Hs.
  - repeat constructor.
  - inversion Hs as [|? ? Hs' Hhd]; subst.
    destruct (Qlt_le_dec (key j) (key i)) as [Hlt|Hle]; simpl.
    + constructor; [by apply IH|].
      apply insert_by_hd; [by apply Qlt_le_weak|done].
    + constructor; [done|]. by constructor.
Qed.

Lemma foldr_insert_by_perm l : foldr (np.insert_by key) [] l ≡ₚ l.
Proof.
  induction l as [|i l IH]; simpl; [done|].
  by rewrite insert_by_perm, IH.
Qed.

Lemma foldr_insert_by_sorted l : Sorted Qle (key <$> foldr (np.insert_by key) [] l).
Proof.
  induction l as [|i l IH]; simpl; [constructor|]. by apply insert_by_sorted.
Qed.

End insertion_sort.

#[global] Instance insertion_Argsort : np.Argsort := {|
  np.argsort := np.insertion_argsort;
  np.argsort_perm ks := foldr_insert_by_perm _ _;
  np.argsort_sorted ks := foldr_insert_by_sorted _ _
|}.

(** ** Sorting a spatial array by its value column *)


Lemma fmap_nth_seq {A} (d : A) (l : list A) :
  (λ i, nth i l d) <$> seq 0 (length l) = l.
Proof.
  apply list_eq; intros i. rewrite list_lookup_fmap.
  destruct (l !! i) as [x|] eqn:Hi.
  - assert (i < length l) by (eapply lookup_lt_Some; eauto).
    assert (seq 0 (length l) !! i = Some i) as -> by (apply lookup_seq; lia).
    simpl. f_equal. by apply nth_lookup_Some.
  - assert (length l ≤ i) by (by apply lookup_ge_None).
    rewrite (proj2 (lookup_ge_None _ _)); [done|]. by rewrite length_seq.
Qed.

Lemma index_rows_perm (rows : list np.row) (idx : list nat) :
  idx ≡ₚ seq 0 (length rows) →
  np.index_rows rows idx = Some ((λ i, nth i rows np.row0) <$> idx).
Proof.
  intros Hp. apply mapM_Some, Forall2_fmap_r, Forall_Forall2_diag.
  apply Forall_forall. intros i Hi. simpl.
  rewrite Hp in Hi. apply elem_of_seq in Hi.
  destruct (lookup_lt_is_Some_2 rows i) as [x Hx]; [lia|].
  rewrite Hx. f_equal. symmetry. by apply nth_lookup_Some.
Qed.

Section sorting.
Context `{!np.Argsort}.

Lemma index_rows_argsort rows :
  np.index_rows rows (np.argsort (np.column2 rows)) = Some (np.sorted_rows rows).
Proof.
  apply index_rows_perm. rewrite np.argsort_perm.
  unfold np.column2. by rewrite length_fmap.
Qed.

Lemma sorted_rows_perm rows : np.sorted_rows rows ≡ₚ rows.
Proof.
  unfold np.sorted_rows. rewrite np.argsort_perm.
  unfold np.column2. rewrite length_fmap. by rewrite fmap_nth_seq.
Qed.

Lemma sorted_rows_length rows : length (np.sorted_rows rows) = length rows.
Proof. by rewrite sorted_rows_perm. Qed.

Lemma sorted_rows_sorted rows : Sorted Qle (np.column2 (np.sorted_rows rows)).
Proof.
  pose proof (np.argsort_sorted (np.column2 rows)) as Hs.
  unfold np.sorted_rows, np.column2 in *. rewrite <- list_fmap_compose.
  erewrite list_fmap_ext; [exact Hs|].
  intros _ i _. simpl. symmetry. apply (map_nth np.value rows np.row0).
Qed.

End sorting.

(** ** The classification loop *)

Section classification.
Import Spec.
Local Open Scope Q_scope.

Lemma in_category_exhaustive (t1 t2 value : Q) :
  t1 < 0 → 0 < t2 → ∃ c, in_category t1 t2 c value.
Proof.
  intros Ht1 Ht2.
  destruct (Qlt_le_dec value t1); [by exists StrongNegative|].
  destruct (Qlt_le_dec value 0); [by exists WeakNegative|].
  destruct (Qlt_le_dec value t2); [by exists WeakPositive|].
  by exists StrongPositive.
Qed.

Lemma in_category_exclusive (t1 t2 value : Q) (c c' : category) :
  t1 < 0 → 0 < t2 →
  in_category t1 t2 c value → in_category t1 t2 c' value → c = c'.
Proof.
  intros Ht1 Ht2 Hc Hc'.
  destruct c, c'; simpl in *; try done; exfalso; lra.
Qed.

Lemma loop_body_in_category COLORS colors n value c :
  in_category (-0.1) 0.1 c value →
  figure1_components.loop_body COLORS (colors, n) value
  = (colors ++ [category_color COLORS c], if is_positive c then (n + 1)%nat else n).
Proof.
  intros Hc. unfold figure1_components.loop_body.
  destruct (Qlt_le_dec value (-0.1)), (Qlt_le_dec value 0), (Qlt_le_dec value 0.1);
    destruct c; simpl in *; try done; exfalso; lra.
Qed.

Lemma map_loop_body_eq :
  composite_figure1.map_loop_body
  = figure1_components.loop_body composite_figure1.COLORS.
Proof. reflexivity. Qed.

End classification.

Section classification_loop.
Import Spec.
Local Open Scope Q_scope.

Lemma is_positive_Qle_bool c value :
  in_category (-0.1) 0.1 c value → is_positive c = Qle_bool 0 value.
Proof.
  intros Hc. destruct (Qle_bool 0 value) eqn:Hb.
  - apply Qle_bool_iff in Hb. destruct c; simpl in *; try done; exfalso; lra.
  - assert (¬ 0 <= value) as Hn by (rewrite <- Qle_bool_iff; congruence).
    destruct c; simpl in *; try done; exfalso; lra.
Qed.

Lemma foldl_loop_body COLORS values : ∀ colors n,
  ∃ colors', colors_of COLORS values colors'
    ∧ foldl (figure1_components.loop_body COLORS) (colors, n) values
      = (colors ++ colors', (n + positive_count values)%nat).
Proof.
  induction values as [|value values IH]; intros colors n.
  - exists []. split; [constructor|]. simpl. by rewrite app_nil_r, Nat.add_0_r.
  - destruct (in_category_exhaustive (-0.1) 0.1 value) as [c Hc]; [lra..|].
    cbn [foldl]. rewrite (loop_body_in_category _ _ _ _ c Hc).
    destruct (IH (colors ++ [category_color COLORS c])
                 (if is_positive c then (n + 1)%nat else n)) as (cs & Hcs & ->).
    exists (category_color COLORS c :: cs). split.
    + constructor; [by exists c|done].
    + rewrite <- app_assoc. simpl. f_equal.
      unfold positive_count. simpl.
      rewrite <- (is_positive_Qle_bool c value Hc).
      destruct (is_positive c); simpl; lia.
Qed.

Lemma classify_loop_spec COLORS values :
  ∃ colors, colors_of COLORS values colors
    ∧ figure1_components.classify_loop COLORS values = (colors, positive_count values).
Proof.
  destruct (foldl_loop_body COLORS values [] 0%nat) as (cs & Hcs & Heq).
  exists cs. split; [done|]. exact Heq.
Qed.

Lemma colors_of_categories COLORS values colors :
  colors_of COLORS values colors →
  ∃ cats, colors = category_color COLORS <$> cats
          ∧ Forall2 (in_category (-0.1) 0.1) cats values.
Proof.
  induction 1 as [|v col values colors (c & Hc & ->) _ (cats & -> & Hcats)].
  - by exists [].
  - exists (c :: cats). split; [done|by constructor].
Qed.

(** The colors of a loop are those of one list of categories, whatever
    the color table. *)
Lemma foldl_loop_body_categories values : ∀ cats,
  Forall2 (in_category (-0.1) 0.1) cats values →
  ∀ COLORS colors n,
    (foldl (figure1_components.loop_body COLORS) (colors, n) values).1
    = colors ++ (category_color COLORS <$> cats).
Proof.
  induction values as [|value values IH]; intros cats Hcats COLORS colors n.
  - apply Forall2_nil_inv_r in Hcats as ->. simpl. by rewrite app_nil_r.
  - apply Forall2_cons_inv_r in Hcats as (c & cats' & Hc & Hcats & ->).
    cbn [foldl]. rewrite (loop_body_in_category _ _ _ _ c Hc).
    rewrite (IH cats' Hcats). by rewrite <- app_assoc.
Qed.

Lemma positive_count_perm (l l' : list Q) :
  l ≡ₚ l' → positive_count l = positive_count l'.
Proof.
  unfold positive_count.
  induction 1 as [|x l l' _ IH|x y l|l l' l'' _ IH1 _ IH2]; simpl.
  - done.
  - destruct (Qle_bool 0 x); simpl; lia.
  - destruct (Qle_bool 0 x), (Qle_bool 0 y); simpl; lia.
  - lia.
Qed.

Lemma positive_count_le (l : list Q) : (positive_count l ≤ length l)%nat.
Proof. unfold positive_count. apply List.filter_length_le. Qed.

(** [(count / total) * 100] is the percentage of the specification and
    lies between 0 and 100. *)
Lemma percentage_eq (k n : nat) :
  (0 < n)%nat →
  inject_Z (Z.of_nat k) / inject_Z (Z.of_nat n) * 100 == percentage k n.
Proof.
  intros Hn. unfold percentage.
  assert (¬ inject_Z (Z.of_nat n) == 0).
  { intros H. change 0 with (inject_Z 0) in H.
    apply (proj1 (inject_Z_injective _ _)) in H. lia. }
  field. done.
Qed.

Lemma percentage_bounds (k n : nat) :
  (0 < n)%nat → (k ≤ n)%nat → 0 <= percentage k n <= 100.
Proof.
  intros Hn Hk. unfold percentage.
  assert (0 < inject_Z (Z.of_nat n)) as Hpos.
  { change 0 with (inject_Z 0). rewrite <- Zlt_Qlt. lia. }
  assert (0 <= inject_Z (Z.of_nat k)) as Hk0.
  { change 0 with (inject_Z 0). rewrite <- Zle_Qle. lia. }
  assert (inject_Z (Z.of_nat k) <= inject_Z (Z.of_nat n)) as Hkn.
  { rewrite <- Zle_Qle. lia. }
  split.
  - apply Qle_shift_div_l; [done|].
    rewrite Qmult_0_l. apply Qmult_le_0_compat; [done|exact Hk0].
  - apply Qle_shift_div_r; [done|]. by apply Qmult_le_l.
Qed.

End classification_loop.

(** ** Rounding to binary64 *)

Section rounding.
Local Open Scope Q_scope.
Import float.

Lemma pow2_pos (e : Z) : 0 < 2 ^ e.
Proof. by apply Qpower_0_lt. Qed.

Lemma pow2_plus (a b : Z) : 2 ^ (a + b) == 2 ^ a * 2 ^ b.
Proof. by apply Qpower_plus. Qed.

Lemma pow2_le (a b : Z) : (a ≤ b)%Z → 2 ^ a <= 2 ^ b.
Proof. intros. by apply Qpower_le_compat_l. Qed.

Lemma pow2_lt_inv (a b : Z) : 2 ^ a < 2 ^ b → (a < b)%Z.
Proof. intros. by apply (Qpower_lt_compat_l_inv 2). Qed.

Lemma pow2_succ (a : Z) : 2 ^ (a + 1) == 2 * 2 ^ a.
Proof. rewrite pow2_plus. change (2 ^ 1) with 2. ring. Qed.

(** The integer nearest to [y] is within a half of [y]. *)
Lemma nearest_even_bounds (y : Q) :
  y - (1 # 2) <= inject_Z (nearest_even y) <= y + (1 # 2).
Proof.
  unfold nearest_even.
  pose proof (Qfloor_le y) as Hlo. pose proof (Qlt_floor y) as Hhi.
  rewrite inject_Z_plus in Hhi. change (inject_Z 1) with 1 in Hhi.
  destruct (Qcompare_spec (y - inject_Z (Qfloor y)) (1 # 2)) as [Heq|Hlt|Hgt].
  - destruct (Z.even (Qfloor y)).
    + split; lra.
    + rewrite inject_Z_plus. change (inject_Z 1) with 1. split; lra.
  - split; lra.
  - rewrite inject_Z_plus. change (inject_Z 1) with 1. split; lra.
Qed.

Lemma nearest_even_le (y : Q) (k : Z) :
  y <= inject_Z k → (nearest_even y ≤ k)%Z.
Proof.
  intros Hy. destruct (nearest_even_bounds y) as [_ Hhi].
  assert (inject_Z (nearest_even y) < inject_Z (k + 1)) as Hlt.
  { rewrite inject_Z_plus. change (inject_Z 1) with 1. lra. }
  rewrite <- Zlt_Qlt in Hlt. lia.
Qed.

Lemma nearest_even_ge (y : Q) (k : Z) :
  inject_Z k <= y → (k ≤ nearest_even y)%Z.
Proof.
  intros Hy. destruct (nearest_even_bounds y) as [Hlo _].
  assert (inject_Z (k - 1) < inject_Z (nearest_even y)) as Hlt.
  { unfold Z.sub. rewrite inject_Z_plus, inject_Z_opp. change (inject_Z 1) with 1. lra. }
  rewrite <- Zlt_Qlt in Hlt. lia.
Qed.

(** A quotient of integers against a quotient of powers of two. *)
Lemma Qdiv_Z_lt (a b c d : Z) :
  (0 < b)%Z → (0 < d)%Z → (a * d < c * b)%Z →
  inject_Z a / inject_Z b < inject_Z c / inject_Z d.
Proof.
  intros Hb Hd H.
  assert (0 < inject_Z b) as Hb' by (change 0 with (inject_Z 0); by rewrite <- Zlt_Qlt).
  assert (0 < inject_Z d) as Hd' by (change 0 with (inject_Z 0); by rewrite <- Zlt_Qlt).
  apply Qlt_shift_div_l; [done|].
  assert (inject_Z a / inject_Z b * inject_Z d == inject_Z a * inject_Z d / inject_Z b)
    as Heq by (field; lra).
  rewrite Heq. apply Qlt_shift_div_r; [done|].
  rewrite <- !inject_Z_mult. by rewrite <- Zlt_Qlt.
Qed.

Lemma pow2_Z (n : Z) : (0 ≤ n)%Z → 2 ^ n == inject_Z (2 ^ n).
Proof. intros. by rewrite Zpower_Qpower. Qed.

Lemma pow2_diff (a b : Z) :
  (0 ≤ a)%Z → (0 ≤ b)%Z → 2 ^ (a - b) == inject_Z (2 ^ a) / inject_Z (2 ^ b).
Proof.
  intros Ha Hb. unfold Z.sub. rewrite pow2_plus, Qpower_opp.
  by rewrite !pow2_Z.
Qed.

(** The exponent of a positive number is that of its binade. *)
Lemma exponent_spec (x : Q) :
  0 < x → 2 ^ exponent x <= x ∧ x < 2 ^ (exponent x + 1).
Proof.
  intros Hx. destruct x as [p q].
  assert (0 < p)%Z as Hp by (unfold Qlt in Hx; simpl in Hx; lia).
  unfold exponent. cbn [Qnum Qden].
  pose proof (Z.log2_spec p Hp) as [Hp1 Hp2].
  pose proof (Z.log2_spec (Z.pos q) ltac:(lia)) as [Hq1 Hq2].
  pose proof (Z.log2_nonneg p) as Hlp.
  pose proof (Z.log2_nonneg (Z.pos q)) as Hlq.
  set (lp := Z.log2 p) in *. set (lq := Z.log2 (Z.pos q)) in *.
  assert (0 < 2 ^ lp)%Z as Hpp by (apply Z.pow_pos_nonneg; lia).
  assert (0 < 2 ^ lq)%Z as Hpq by (apply Z.pow_pos_nonneg; lia).
  rewrite Z.pow_succ_r in Hp2, Hq2 by done.
  assert (p # q < 2 ^ (lp - lq + 1)) as Hup.
  { replace (lp - lq + 1)%Z with ((lp + 1) - lq)%Z by lia.
    rewrite pow2_diff by lia. rewrite Qmake_Qdiv.
    apply Qdiv_Z_lt; [lia..|]. rewrite Z.pow_add_r by lia. nia. }
  assert (2 ^ (lp - lq - 1) < p # q) as Hlow.
  { replace (lp - lq - 1)%Z with (lp - (lq + 1))%Z by lia.
    rewrite pow2_diff by lia. rewrite Qmake_Qdiv.
    apply Qdiv_Z_lt; [|lia|]; rewrite Z.pow_add_r by lia; nia. }
  destruct (Qle_bool (2 ^ (lp - lq)) (p # q)) eqn:Hb.
  - apply Qle_bool_iff in Hb. done.
  - assert (¬ 2 ^ (lp - lq) <= p # q) as Hn by (rewrite <- Qle_bool_iff; congruence).
    apply Qnot_le_lt in Hn.
    replace (lp - lq - 1 + 1)%Z with (lp - lq)%Z by lia.
    split; [by apply Qlt_le_weak|done].
Qed.

Lemma exponent_unique (x : Q) (e : Z) :
  2 ^ e <= x → x < 2 ^ (e + 1) → exponent x = e.
Proof.
  intros Hlo Hhi.
  assert (0 < x) as Hx by (eapply Qlt_le_trans; [apply (pow2_pos e)|done]).
  destruct (exponent_spec x Hx) as [Hlo' Hhi'].
  assert (exponent x < e + 1)%Z.
  { apply pow2_lt_inv. eapply Qle_lt_trans; [exact Hlo'|done]. }
  assert (e < exponent x + 1)%Z.
  { apply pow2_lt_inv. eapply Qle_lt_trans; [exact Hlo|done]. }
  lia.
Qed.

Lemma exponent_le (x y : Q) : 0 < x → x <= y → (exponent x ≤ exponent y)%Z.
Proof.
  intros Hx Hxy.
  destruct (exponent_spec x Hx) as [Hlo _].
  destruct (exponent_spec y) as [_ Hhi]; [lra|].
  assert (exponent x < exponent y + 1)%Z; [|lia].
  apply pow2_lt_inv. lra.
Qed.

(** The scaled significand of a positive number lies in [2^52, 2^53). *)
Lemma significand_bounds (x : Q) :
  0 < x →
  inject_Z (2 ^ 52) <= x / 2 ^ (exponent x - 52)
  ∧ x / 2 ^ (exponent x - 52) < inject_Z (2 ^ 53).
Proof.
  intros Hx. destruct (exponent_spec x Hx) as [Hlo Hhi].
  pose proof (pow2_pos (exponent x - 52)) as Hulp.
  rewrite <- !pow2_Z by done. split.
  - apply Qle_shift_div_l; [done|]. rewrite <- pow2_plus.
    by replace (52 + (exponent x - 52))%Z with (exponent x) by lia.
  - apply Qlt_shift_div_r; [done|]. rewrite <- pow2_plus.
    by replace (53 + (exponent x - 52))%Z with (exponent x + 1)%Z by lia.
Qed.

(** Rounding stays within the binade and within half a unit in the last
    place. *)
Lemma round_pos_binade (x : Q) :
  0 < x → 2 ^ exponent x <= round_pos x <= 2 ^ (exponent x + 1).
Proof.
  intros Hx. destruct (significand_bounds x Hx) as [Hlo Hhi].
  pose proof (pow2_pos (exponent x - 52)) as Hulp.
  unfold round_pos. cbv zeta.
  apply nearest_even_ge in Hlo. apply Qlt_le_weak, nearest_even_le in Hhi.
  rewrite Zle_Qle in Hlo, Hhi. rewrite <- !pow2_Z in Hlo, Hhi by done.
  split.
  - replace (exponent x) with (52 + (exponent x - 52))%Z at 1 by lia.
    rewrite pow2_plus. by apply Qmult_le_compat_r; [|apply Qlt_le_weak].
  - replace (exponent x + 1)%Z with (53 + (exponent x - 52))%Z by lia.
    rewrite pow2_plus. by apply Qmult_le_compat_r; [|apply Qlt_le_weak].
Qed.

Lemma round_pos_error (x : Q) :
  0 < x → Qabs (round_pos x - x) <= x * (2 ^ (-53)).
Proof.
  intros Hx. destruct (exponent_spec x Hx) as [Hlo _].
  pose proof (pow2_pos (exponent x - 52)) as Hulp.
  set (ulp := 2 ^ (exponent x - 52)) in *.
  destruct (nearest_even_bounds (x / ulp)) as [Hn1 Hn2].
  assert (round_pos x - x == (inject_Z (nearest_even (x / ulp)) - x / ulp) * ulp) as ->.
  { unfold round_pos. cbv zeta. fold ulp. field. lra. }
  assert (ulp * (1 # 2) <= x * 2 ^ (-53)) as Hhalf.
  { assert (ulp == 2 ^ exponent x * 2 ^ (-52)) as ->.
    { unfold ulp. by rewrite <- pow2_plus. }
    change (2 ^ (-53)) with (1 # 9007199254740992).
    change (2 ^ (-52)) with (1 # 4503599627370496). lra. }
  apply Qabs_Qle_condition. split.
  - apply Qle_trans with (- (ulp * (1 # 2))); [lra|].
    assert (- (ulp * (1 # 2)) == (- (1 # 2)) * ulp) as -> by ring.
    apply Qmult_le_compat_r; lra.
  - apply Qle_trans with (ulp * (1 # 2)); [|lra].
    assert (ulp * (1 # 2) == (1 # 2) * ulp) as -> by ring.
    apply Qmult_le_compat_r; lra.
Qed.

(** A number with a 53-bit significand, and rounding below it. *)
Definition representable (t : Q) : Prop :=
  ∃ k : Z, t == inject_Z k * 2 ^ (exponent t - 52).

Lemma round_pos_le_representable (x t : Q) :
  0 < x → x <= t → representable t → round_pos x <= t.
Proof.
  intros Hx Hxt [k Hk].
  pose proof (exponent_le x t Hx Hxt) as He.
  destruct (Z.eq_dec (exponent x) (exponent t)) as [Heq|Hne].
  - unfold round_pos. cbv zeta. rewrite Heq.
    pose proof (pow2_pos (exponent t - 52)) as Hulp.
    set (ulp := 2 ^ (exponent t - 52)) in *.
    assert (x / ulp <= inject_Z k) as Hy.
    { apply Qle_shift_div_r; [done|]. by rewrite <- Hk. }
    apply nearest_even_le in Hy. rewrite Zle_Qle in Hy.
    rewrite Hk. by apply Qmult_le_compat_r; [|apply Qlt_le_weak].
  - destruct (round_pos_binade x Hx) as [_ Hhi].
    destruct (exponent_spec t) as [Hlo _]; [lra|].
    pose proof (pow2_le (exponent x + 1) (exponent t) ltac:(lia)). lra.
Qed.

Lemma round_zero (x : Q) : x == 0 → round x = 0.
Proof.
  intros Hx. unfold round. destruct x as [[|p|p] q]; try done.
Qed.

Lemma round_positive (x : Q) : 0 < x → round x = round_pos x.
Proof.
  intros Hx. unfold round. destruct x as [[|p|p] q]; try done.
Qed.

Lemma round_nonneg_cases (x : Q) : 0 <= x → (x == 0 ∧ round x = 0) ∨ (0 < x ∧ round x = round_pos x).
Proof.
  intros Hx. destruct (Qlt_le_dec 0 x) as [Hpos|Hle].
  - right. split; [done|by apply round_positive].
  - left. assert (x == 0) by lra. split; [done|by apply round_zero].
Qed.

Lemma round_nonneg (x : Q) : 0 <= x → 0 <= round x.
Proof.
  intros Hx. destruct (round_nonneg_cases x Hx) as [[_ ->]|[Hpos ->]]; [done|].
  destruct (round_pos_binade x Hpos) as [Hlo _].
  pose proof (pow2_pos (exponent x)). lra.
Qed.

Lemma round_le_representable (x t : Q) :
  0 <= x → x <= t → representable t → round x <= t.
Proof.
  intros Hx Hxt Ht. destruct (round_nonneg_cases x Hx) as [[H0 ->]|[Hpos ->]]; [lra|].
  by apply round_pos_le_representable.
Qed.

Lemma round_error (x : Q) : 0 <= x → Qabs (round x - x) <= x * 2 ^ (-53).
Proof.
  intros Hx. destruct (round_nonneg_cases x Hx) as [[H0 ->]|[Hpos ->]].
  - rewrite H0. done.
  - by apply round_pos_error.
Qed.

Lemma representable_1 : representable 1.
Proof. exists (2 ^ 52)%Z. by vm_compute. Qed.

Lemma representable_100 : representable 100.
Proof. exists (25 * 2 ^ 48)%Z. by vm_compute. Qed.

(** [(k / n) * 100] in binary64, for [k ≤ n]. *)
Lemma binary64_pct_bounds (k n : Q) :
  0 <= k → k <= n → 0 < n →
  0 <= round (round (k / n) * 100) <= 100.
Proof.
  intros Hk Hkn Hn.
  assert (0 <= k / n) as H0 by (apply Qle_shift_div_l; lra).
  assert (k / n <= 1) as H1 by (apply Qle_shift_div_r; lra).
  pose proof (round_nonneg _ H0) as Hr0.
  pose proof (round_le_representable _ 1 H0 H1 representable_1) as Hr1.
  split.
  - apply round_nonneg. lra.
  - apply round_le_representable; [lra|lra|apply representable_100].
Qed.

Lemma binary64_pct_error (k n : Q) :
  0 <= k → 0 < n →
  Qabs (round (round (k / n) * 100) - 100 * k / n)
  <= 100 * k / n * (2 ^ (-52) + 2 ^ (-106)).
Proof.
  intros Hk Hn.
  assert (0 <= k / n) as H0 by (apply Qle_shift_div_l; lra).
  pose proof (round_nonneg _ H0) as Hr0.
  pose proof (round_error _ H0) as He1.
  pose proof (round_error (round (k / n) * 100) ltac:(lra)) as He2.
  apply Qabs_Qle_condition in He1, He2. apply Qabs_Qle_condition.
  assert (100 * k / n == 100 * (k / n)) as -> by (field; lra).
  change (2 ^ (-53)) with (1 # 9007199254740992) in *.
  change (2 ^ (-52)) with (1 # 4503599627370496).
  change (2 ^ (-106)) with (1 # 81129638414606681695789005144064).
  set (q := k / n) in *. set (r := round q) in *.
  set (f := round (r * 100)) in *.
  lra.
Qed.

End rounding.

(** ** Stepping through a computation *)

Section monad_steps.
Import Fig.
Context {A : Type}.
Implicit Types (k : unit → M A) (w : world).

Lemma bind_ret {B} (b : B) (k : B → M A) w : (mret b ≫= k) w = k b w.
Proof. reflexivity. Qed.

Lemma bind_raise {B} e (k : B → M A) w : (raise e ≫= k) w = (w, inl e).
Proof. reflexivity. Qed.

Lemma bind_deref l a (k : list np.row → M A) w :
  arrays w !! l = Some a → (deref l ≫= k) w = k a w.
Proof. intros Hl. unfold mbind, M_bind, bind, deref. by rewrite Hl. Qed.

Lemma bind_alloc a (k : positive → M A) w :
  (alloc a ≫= k) w
  = k (fresh (dom (arrays w)))
      (World (disk w) (<[fresh (dom (arrays w)) := a]> (arrays w)) (n_axes w)
         (canvas w) (saved w) (stdout w)).
Proof. reflexivity. Qed.

Lemma bind_index_rows l a idx a' (k : positive → M A) w :
  arrays w !! l = Some a → np.index_rows a idx = Some a' →
  (index_rows l idx ≫= k) w
  = k (fresh (dom (arrays w)))
      (World (disk w) (<[fresh (dom (arrays w)) := a']> (arrays w)) (n_axes w)
         (canvas w) (saved w) (stdout w)).
Proof.
  intros Hl Ha. unfold index_rows, mbind, M_bind, bind, deref.
  by rewrite Hl, Ha.
Qed.

Lemma bind_len l a (k : nat → M A) w :
  arrays w !! l = Some a → (len l ≫= k) w = k (length a) w.
Proof. intros Hl. unfold len, mbind, M_bind, bind, deref. by rewrite Hl. Qed.

Lemma bind_truediv_S `{!float.Rounding} x y (k : Q → M A) w :
  (truediv x (S y) ≫= k) w
  = k (float.fl (inject_Z (Z.of_nat x) / inject_Z (Z.of_nat (S y)))%Q) w.
Proof. reflexivity. Qed.

Lemma bind_truediv_0 `{!float.Rounding} x (k : Q → M A) w :
  (truediv x 0 ≫= k) w = (w, inl Py.ZeroDivisionError).
Proof. reflexivity. Qed.

Lemma bind_draw ax c k w :
  (draw ax c ≫= k) w
  = k tt (World (disk w) (arrays w) (n_axes w) (canvas w ++ [(ax, c)])
            (saved w) (stdout w)).
Proof. reflexivity. Qed.

Lemma bind_print line k w :
  (print line ≫= k) w
  = k tt (World (disk w) (arrays w) (n_axes w) (canvas w) (saved w)
            (stdout w ++ [line])).
Proof. reflexivity. Qed.

Lemma bind_savefig `{!Savefig} path k w :
  savefig_error path = None →
  (savefig path ≫= k) w
  = k tt (World (disk w) (arrays w) (n_axes w) (canvas w) (saved w ++ [path])
            (stdout w)).
Proof. intros Hp. unfold mbind, M_bind, bind, savefig. by rewrite Hp. Qed.

Lemma bind_savefig_error `{!Savefig} path e k w :
  savefig_error path = Some e → (savefig path ≫= k) w = (w, inl e).
Proof. intros Hp. unfold mbind, M_bind, bind, savefig. by rewrite Hp. Qed.

Lemma bind_add_subplot (k : nat → M A) w :
  (add_subplot ≫= k) w
  = k (n_axes w) (World (disk w) (arrays w) (S (n_axes w)) (canvas w) (saved w)
                    (stdout w)).
Proof. reflexivity. Qed.

End monad_steps.

Ltac world_simpl :=
  cbn [Fig.disk Fig.arrays Fig.n_axes Fig.canvas Fig.saved Fig.stdout].

Ltac run_draws :=
  repeat (first [rewrite bind_draw | rewrite bind_print | rewrite bind_ret];
          world_simpl).

(** ** Running the map panel *)

Section map_panel.
Context `{!float.Rounding, !np.Argsort}.
Import Fig Spec.

Lemma sorted_rows_nil : np.sorted_rows [] = [].
Proof. apply Permutation_nil_r. by rewrite sorted_rows_perm. Qed.

Lemma fresh_lookup_ne (arrays : gmap positive (list np.row)) l rows :
  arrays !! l = Some rows → fresh (dom arrays) ≠ l.
Proof.
  intros Hl Heq. apply (is_fresh (dom arrays)).
  rewrite Heq. apply elem_of_dom. eauto.
Qed.

(** What [create_global_map_only] does to the world and what it returns,
    by the length of the input array. *)
Lemma create_global_map_only_run w ax l rows COLORS txt pos fs ms cs asp :
  arrays w !! l = Some rows →
  ∃ rest,
    figure1_components.create_global_map_only ax l COLORS txt pos fs ms cs asp w
    = let sorted := np.sorted_rows rows in
      let loop := figure1_components.classify_loop COLORS (np.column2 sorted) in
      let arrays' := <[fresh (dom (arrays w)) := sorted]> (arrays w) in
      match length rows with
      | O =>
          (World (disk w) arrays' (n_axes w) (canvas w) (saved w) (stdout w),
           inl Py.ZeroDivisionError)
      | S _ =>
          (World (disk w) arrays' (n_axes w)
             (canvas w ++
                (ax, Call "gdf.plot" [ARows sorted]
                       [("markersize", ANum 20); ("c", AColors loop.1);
                        ("alpha", ANum 0.8)]) :: rest)
             (saved w) (stdout w),
           inr (float.fl
                  (float.fl (inject_Z (Z.of_nat loop.2)
                             / inject_Z (Z.of_nat (length rows))) * 100))%Q)
      end.
Proof.
  intros Hl.
  unfold figure1_components.create_global_map_only.
  rewrite (bind_deref _ _ _ _ Hl).
  rewrite (bind_index_rows _ _ _ _ _ _ Hl (index_rows_argsort rows)).
  rewrite (bind_deref _ (np.sorted_rows rows)) by (world_simpl; apply lookup_insert_eq).
  cbv zeta.
  destruct (figure1_components.classify_loop COLORS (np.column2 (np.sorted_rows rows)))
    as [colors k].
  rewrite (bind_len _ rows)
    by (world_simpl; rewrite lookup_insert_ne by (by eapply fresh_lookup_ne); done).
  destruct (length rows) as [|n] eqn:Hn.
  - exists []. reflexivity.
  - rewrite bind_truediv_S. run_draws.
    destruct txt, pos as [loc|[x y]]; run_draws;
      unfold mret, M_ret, ret; rewrite <- !app_assoc; cbn [app fst snd];
      eexists; reflexivity.
Qed.

(** The same for [plot_global_map]; its percentage is the number shown
    by the annotation. *)
Lemma plot_global_map_run w ax l rows :
  arrays w !! l = Some rows →
  ∃ rest kw,
    composite_figure1.plot_global_map ax l w
    = (let sorted := np.sorted_rows rows in
       let loop := figure1_components.classify_loop composite_figure1.COLORS
                     (np.column2 sorted) in
       let arrays' := <[fresh (dom (arrays w)) := sorted]> (arrays w) in
       match length rows with
       | O =>
           (World (disk w) arrays' (n_axes w) (canvas w) (saved w) (stdout w),
            inl Py.ZeroDivisionError)
       | S _ =>
           (World (disk w) arrays' (n_axes w)
              (canvas w ++
                 (ax, Call "gdf.plot" [ARows sorted]
                        [("markersize", ANum 3); ("c", AColors loop.1);
                         ("alpha", ANum 0.8)]) :: rest)
              (saved w) (stdout w),
            inr tt)
       end)
    ∧ (rows ≠ [] →
       (ax, Call "text"
              [ANum 0.02; ANum 0.95;
               AFormat (float.fl
                          (float.fl (inject_Z (Z.of_nat
                             (figure1_components.classify_loop composite_figure1.COLORS
                                (np.column2 (np.sorted_rows rows))).2)
                           / inject_Z (Z.of_nat (length rows))) * 100))%Q ".1f"
                 ("% of cities" +:+ newline +:+ "show enhancement")] kw) ∈ rest).
Proof.
  intros Hl.
  unfold composite_figure1.plot_global_map.
  rewrite (bind_deref _ _ _ _ Hl).
  rewrite (bind_index_rows _ _ _ _ _ _ Hl (index_rows_argsort rows)).
  rewrite (bind_len _ (np.sorted_rows rows)) by (world_simpl; apply lookup_insert_eq).
  rewrite (bind_deref _ (np.sorted_rows rows)) by (world_simpl; apply lookup_insert_eq).
  rewrite sorted_rows_length, map_loop_body_eq. cbv zeta.
  change (foldl (figure1_components.loop_body ?C) ([], 0))
    with (figure1_components.classify_loop C).
  destruct (figure1_components.classify_loop composite_figure1.COLORS
              (np.column2 (np.sorted_rows rows))) as [colors k].
  destruct rows as [|r rows].
  - exists [], []. split; [reflexivity|done].
  - cbn [length]. rewrite bind_truediv_S. run_draws.
    unfold composite_figure1.add_map_legend, draw. world_simpl.
    rewrite <- !app_assoc; cbn [app]. eexists _, _. split; [reflexivity|].
    intros _. cbn [snd].
    repeat first [apply list_elem_of_here | apply list_elem_of_further].
Qed.

Lemma create_global_map_only_returns w ax l rows COLORS txt pos fs ms cs asp :
  arrays w !! l = Some rows → rows ≠ [] →
  ∃ rest,
    figure1_components.create_global_map_only ax l COLORS txt pos fs ms cs asp w
    = (World (disk w)
         (<[fresh (dom (arrays w)) := np.sorted_rows rows]> (arrays w)) (n_axes w)
         (canvas w ++
            (ax, Call "gdf.plot" [ARows (np.sorted_rows rows)]
                   [("markersize", ANum 20);
                    ("c", AColors (figure1_components.classify_loop COLORS
                                     (np.column2 (np.sorted_rows rows))).1);
                    ("alpha", ANum 0.8)]) :: rest)
         (saved w) (stdout w),
       inr (float.fl
              (float.fl (inject_Z (Z.of_nat (figure1_components.classify_loop COLORS
                                     (np.column2 (np.sorted_rows rows))).2)
                         / inject_Z (Z.of_nat (length rows))) * 100))%Q).
Proof.
  intros Hl Hne.
  destruct (create_global_map_only_run w ax l rows COLORS txt pos fs ms cs asp Hl)
    as [rest Hrun].
  exists rest. rewrite Hrun. by destruct rows.
Qed.

Lemma plot_global_map_returns w ax l rows :
  arrays w !! l = Some rows → rows ≠ [] →
  ∃ rest kw,
    composite_figure1.plot_global_map ax l w
    = (World (disk w)
         (<[fresh (dom (arrays w)) := np.sorted_rows rows]> (arrays w)) (n_axes w)
         (canvas w ++
            (ax, Call "gdf.plot" [ARows (np.sorted_rows rows)]
                   [("markersize", ANum 3);
                    ("c", AColors (figure1_components.classify_loop
                                     composite_figure1.COLORS
                                     (np.column2 (np.sorted_rows rows))).1);
                    ("alpha", ANum 0.8)]) :: rest)
         (saved w) (stdout w),
       inr tt)
    ∧ (ax, Call "text"
             [ANum 0.02; ANum 0.95;
              AFormat (float.fl
                         (float.fl (inject_Z (Z.of_nat
                            (figure1_components.classify_loop composite_figure1.COLORS
                               (np.column2 (np.sorted_rows rows))).2)
                          / inject_Z (Z.of_nat (length rows))) * 100))%Q ".1f"
                ("% of cities" +:+ newline +:+ "show enhancement")] kw) ∈ rest.
Proof.
  intros Hl Hne.
  destruct (plot_global_map_run w ax l rows Hl) as (rest & kw & Hrun & Hin).
  exists rest, kw. split; [|by apply Hin]. rewrite Hrun. by destruct rows.
Qed.

End map_panel.

(** ** The classifier: the claims *)

Section classifier_claims.
Import Fig Spec.
Local Open Scope Q_scope.

(** The colors of the table show the four categories apart. *)
Lemma category_color_inj (c c' : category) :
  category_color data_loader.COLORS c = category_color data_loader.COLORS c' → c = c'.
Proof. destruct c, c'; simpl; intros Heq; try done; vm_compute in Heq; discriminate. Qed.

End classifier_claims.

Section map_panel_claims.
Context `{!np.Argsort}.
Import Fig Spec.
Local Open Scope Q_scope.

Lemma classify_loop_count COLORS rows :
  (figure1_components.classify_loop COLORS (np.column2 (np.sorted_rows rows))).2
  = positive_count (np.column2 rows).
Proof.
  destruct (classify_loop_spec COLORS (np.column2 (np.sorted_rows rows)))
    as (colors & _ & ->). simpl.
  apply positive_count_perm. unfold np.column2. by rewrite sorted_rows_perm.
Qed.

Lemma classify_loop_colors COLORS values :
  colors_of COLORS values (figure1_components.classify_loop COLORS values).1.
Proof. by destruct (classify_loop_spec COLORS values) as (colors & ? & ->). Qed.

(** C1.  With cut points -0.1 and 0.1 every value is in exactly one of
    the four categories of the half-open interval rule ([value < -0.1],
    [-0.1 ≤ value < 0], [0 ≤ value < 0.1], [0.1 ≤ value]): some category
    holds (exhaustive) and any category that holds is that one (pairwise
    exclusive).  One pass of the loop body of [create_global_map_only]
    and of [plot_global_map] appends the color of exactly that category,
    and counts the value iff the category is one of the two positive
    ones.  The whole loop gives one color per value, in the order of the
    values: the colors of a list of categories that holds, entry by
    entry, the category of each value.  So for a non-empty dataset both
    functions return, and their scatter call draws every observation of
    the dataset (the drawn rows are a permutation of the input) with the
    color of the category of its value. *)
Theorem classifier_half_open_rule
    w ax l rows (COLORS : data_loader.Colors) txt pos fs ms cs asp :
  arrays w !! l = Some rows → rows ≠ [] →
  (∀ value : Q, ∃ c : category,
     in_category (-0.1) 0.1 c value
     ∧ (∀ c', in_category (-0.1) 0.1 c' value → c' = c)
     ∧ (∀ colors n,
          figure1_components.loop_body COLORS (colors, n) value
          = (colors ++ [category_color COLORS c],
             if is_positive c then (n + 1)%nat else n)
          ∧ composite_figure1.map_loop_body (colors, n) value
            = (colors ++ [category_color composite_figure1.COLORS c],
               if is_positive c then (n + 1)%nat else n)))
  ∧ (∀ values : list Q, ∃ cats : list category,
       Forall2 (in_category (-0.1) 0.1) cats values
       ∧ (figure1_components.classify_loop COLORS values).1
         = category_color COLORS <$> cats
       ∧ (foldl composite_figure1.map_loop_body ([], 0%nat) values).1
         = category_color composite_figure1.COLORS <$> cats)
  ∧ ∃ (drawn : list np.row) (cats : list category),
      drawn ≡ₚ rows
      ∧ Forall2 (in_category (-0.1) 0.1) cats (np.column2 drawn)
      ∧ (∃ w' pct rest,
           figure1_components.create_global_map_only ax l COLORS txt pos fs ms cs asp w
           = (w', inr pct)
           ∧ canvas w'
             = canvas w ++
                 (ax, Call "gdf.plot" [ARows drawn]
                        [("markersize", ANum 20);
                         ("c", AColors (category_color COLORS <$> cats));
                         ("alpha", ANum 0.8)]) :: rest)
      ∧ (∃ w' rest,
           composite_figure1.plot_global_map ax l w = (w', inr tt)
           ∧ canvas w'
             = canvas w ++
                 (ax, Call "gdf.plot" [ARows drawn]
                        [("markersize", ANum 3);
                         ("c", AColors (category_color composite_figure1.COLORS <$> cats));
                         ("alpha", ANum 0.8)]) :: rest).
Proof.
  intros Hl Hne. split; [|split].
  - intros value.
    destruct (in_category_exhaustive (-0.1) 0.1 value) as [c Hc]; [lra..|].
    exists c. split; [done|]. split.
    + intros c' Hc'. apply (in_category_exclusive (-0.1) 0.1 value); [lra..|done|done].
    + intros colors n. split; [by apply loop_body_in_category|].
      rewrite map_loop_body_eq. by apply loop_body_in_category.
  - intros values.
    destruct (colors_of_categories COLORS _ _ (classify_loop_colors COLORS values))
      as (cats & Hcolors & Hcats).
    exists cats. split; [done|]. split; [done|].
    rewrite map_loop_body_eq. apply (foldl_loop_body_categories values cats Hcats).
  - destruct (colors_of_categories COLORS _ _
                (classify_loop_colors COLORS (np.column2 (np.sorted_rows rows))))
      as (cats & Hcolors & Hcats).
    exists (np.sorted_rows rows), cats.
    split; [apply sorted_rows_perm|]. split; [done|].
    destruct (create_global_map_only_returns
                w ax l rows COLORS txt pos fs ms cs asp Hl Hne) as [rest ->].
    destruct (plot_global_map_returns w ax l rows Hl Hne) as (rest' & kw & -> & _).
    split.
    + eexists _, _, rest. split; [reflexivity|]. cbn [canvas]. by rewrite Hcolors.
    + eexists _, rest'. split; [reflexivity|]. cbn [canvas].
      unfold figure1_components.classify_loop.
      by rewrite (foldl_loop_body_categories _ cats Hcats).
Qed.

(** C2 (as the code has it).  For a non-empty dataset (of fewer than
    2^63 observations, the bound of a Python length)
    [create_global_map_only] returns a percentage computed from the
    counter of the one classification pass and the length of the input;
    the counter is the number of observations with [value ≥ 0].  The
    percentage is the binary64 value of [(enhancement_count / len) * 100]:
    the quotient rounded, times 100, rounded again.  It is within the
    relative error [2^-52 + 2^-106] of [100 × positive / total], and it
    lies in [0, 100].  [plot_global_map] shows a number with the same
    properties in its annotation. *)
Theorem enhancement_pct_from_counts
    w ax l rows COLORS txt pos fs ms cs asp :
  arrays w !! l = Some rows → rows ≠ [] → (Z.of_nat (length rows) < 2 ^ 63)%Z →
  (figure1_components.classify_loop COLORS (np.column2 (np.sorted_rows rows))).2
  = positive_count (np.column2 rows)
  ∧ (∃ w' pct,
       @figure1_components.create_global_map_only float.binary64 _
         ax l COLORS txt pos fs ms cs asp w
       = (w', inr pct)
       ∧ pct = float.round
                 (float.round
                    (inject_Z (Z.of_nat (figure1_components.classify_loop COLORS
                                           (np.column2 (np.sorted_rows rows))).2)
                     / inject_Z (Z.of_nat (length rows))) * 100)
       ∧ Qabs (pct - percentage (positive_count (np.column2 rows)) (length rows))
         <= percentage (positive_count (np.column2 rows)) (length rows)
            * (2 ^ (-52) + 2 ^ (-106))
       ∧ 0 <= pct <= 100)
  ∧ (∃ w' pct kw,
       @composite_figure1.plot_global_map float.binary64 _ ax l w = (w', inr tt)
       ∧ (ax, Call "text"
                [ANum 0.02; ANum 0.95;
                 AFormat pct ".1f" ("% of cities" +:+ newline +:+ "show enhancement")]
                kw) ∈ canvas w'
       ∧ Qabs (pct - percentage (positive_count (np.column2 rows)) (length rows))
         <= percentage (positive_count (np.column2 rows)) (length rows)
            * (2 ^ (-52) + 2 ^ (-106))
       ∧ 0 <= pct <= 100).
Proof.
  intros Hl Hne _.
  assert (0 < length rows)%nat as Hlen by (destruct rows; [done|simpl; lia]).
  assert (positive_count (np.column2 rows) ≤ length rows)%nat as Hle.
  { etrans; [apply positive_count_le|]. unfold np.column2. by rewrite length_fmap. }
  assert (0 <= inject_Z (Z.of_nat (positive_count (np.column2 rows)))) as Hk.
  { change 0 with (inject_Z 0). rewrite <- Zle_Qle. lia. }
  assert (inject_Z (Z.of_nat (positive_count (np.column2 rows)))
          <= inject_Z (Z.of_nat (length rows))) as Hkn.
  { rewrite <- Zle_Qle. lia. }
  assert (0 < inject_Z (Z.of_nat (length rows))) as Hn.
  { change 0 with (inject_Z 0). rewrite <- Zlt_Qlt. lia. }
  pose proof (binary64_pct_bounds _ _ Hk Hkn Hn) as Hbounds.
  pose proof (binary64_pct_error _ _ Hk Hn) as Herror.
  split; [apply classify_loop_count|]. split.
  - destruct (@create_global_map_only_returns float.binary64 _
                w ax l rows COLORS txt pos fs ms cs asp Hl Hne) as [rest ->].
    eexists _, _. split; [reflexivity|]. split; [reflexivity|].
    rewrite classify_loop_count. by split.
  - destruct (@plot_global_map_returns float.binary64 _ w ax l rows Hl Hne)
      as (rest & kw & -> & Hin).
    eexists _, _, kw. split; [reflexivity|]. cbn [canvas]. split.
    + apply elem_of_app. right. by apply list_elem_of_further.
    + rewrite classify_loop_count. by split.
Qed.

End map_panel_claims.

(** ** An ascending arrangement of distinct keys is unique *)

Lemma sorted_perm_unique {A} (key : A → Q) (l' : list A) : ∀ l : list A,
  l ≡ₚ l' → Sorted Qle (key <$> l) → StronglySorted Qlt (key <$> l') → l = l'.
Proof.
  induction l' as [|b t' IH]; intros l Hp Hs Hs'.
  - by apply Permutation_nil_r.
  - destruct l as [|a t]; [by apply Permutation_nil_cons in Hp|].
    apply Sorted_StronglySorted in Hs; [|intros x y z; apply Qle_trans].
    simpl in Hs, Hs'.
    apply StronglySorted_inv in Hs as [Hst Ha].
    apply StronglySorted_inv in Hs' as [Hst' Hb].
    assert (a = b) as ->.
    { assert (a ∈ b :: t') as Hin by (rewrite <- Hp; left).
      apply elem_of_cons in Hin as [->|Hin]; [done|].
      assert (key b < key a)%Q as Hlt.
      { rewrite List.Forall_forall in Hb. apply Hb.
        apply list_elem_of_In, list_elem_of_fmap. eauto. }
      assert (b ∈ a :: t) as Hin' by (rewrite Hp; left).
      apply elem_of_cons in Hin' as [->|Hin']; [by apply Qlt_irrefl in Hlt|].
      assert (key a <= key b)%Q as Hle.
      { rewrite List.Forall_forall in Ha. apply Ha.
        apply list_elem_of_In, list_elem_of_fmap. eauto. }
      exfalso. lra. }
    f_equal. apply IH; [by apply Permutation_cons_inv in Hp| |done].
    by apply StronglySorted_Sorted.
Qed.

Section map_panel_example.
Context `{!np.Argsort}.
Import Fig Spec.
Local Open Scope Q_scope.

Lemma example_values_ascending : StronglySorted Qlt example_values.
Proof. repeat (constructor; [|repeat constructor; reflexivity]). constructor. Qed.

Lemma example_classify_loop COLORS :
  figure1_components.classify_loop COLORS example_values
  = (category_color COLORS <$> example_categories, 6%nat).
Proof. reflexivity. Qed.

(** C3.  For ten observations with the values -0.2, -0.15, -0.05, -0.01,
    0, 0.02, 0.08, 0.1, 0.5, 1.0 (in this order) the map panel draws the
    rows in this order with the colors of the categories strong-negative
    (twice), weak-negative (twice), weak-positive (three times) and
    strong-positive (three times), and returns a percentage equal to 60. *)
Theorem example_ten_cities w ax l rows COLORS txt pos fs ms cs asp :
  arrays w !! l = Some rows → np.column2 rows = example_values →
  ∃ w' pct rest,
    figure1_components.create_global_map_only ax l COLORS txt pos fs ms cs asp w
    = (w', inr pct)
    ∧ canvas w'
      = canvas w ++
          (ax, Call "gdf.plot" [ARows rows]
                 [("markersize", ANum 20);
                  ("c", AColors (category_color COLORS <$> example_categories));
                  ("alpha", ANum 0.8)]) :: rest
    ∧ Forall2 (in_category (-0.1) 0.1) example_categories example_values
    ∧ pct == 60.
Proof.
  intros Hl Hvalues.
  assert (np.sorted_rows rows = rows) as Hsorted.
  { apply (sorted_perm_unique np.value).
    - apply sorted_rows_perm.
    - apply sorted_rows_sorted.
    - fold (np.column2 rows). rewrite Hvalues. apply example_values_ascending. }
  assert (length rows = 10%nat) as Hlen.
  { rewrite <- (length_fmap np.value). fold (np.column2 rows). by rewrite Hvalues. }
  destruct (create_global_map_only_run w ax l rows COLORS txt pos fs ms cs asp Hl)
    as [rest ->]. cbv zeta.
  rewrite Hsorted, Hvalues, Hlen, example_classify_loop.
  eexists _, _, rest. split; [reflexivity|]. cbn [canvas fst snd].
  split; [done|]. split; [|reflexivity].
  repeat (constructor; [simpl; lra|]). constructor.
Qed.

End map_panel_example.

Section map_panel_effects.
Context `{!np.Argsort}.
Import Fig Spec.
Local Open Scope Q_scope.

(** C4 (as the code has it).  On an empty dataset the division by the
    length raises Python's [ZeroDivisionError], in [create_global_map_only]
    and in [plot_global_map] alike, before any call on the axes: nothing
    is drawn and nothing is saved.  The reductions of an empty series do
    not raise: mean, minimum and maximum are NaN. *)
Theorem empty_dataset_raises_ZeroDivisionError
    w ax l COLORS txt pos fs ms cs asp (df : data_loader.DataFrame) :
  arrays w !! l = Some [] → data_loader.enhancement_pct df = [] →
  (∃ w',
     figure1_components.create_global_map_only ax l COLORS txt pos fs ms cs asp w
     = (w', inl Py.ZeroDivisionError)
     ∧ canvas w' = canvas w ∧ saved w' = saved w)
  ∧ (∃ w',
       composite_figure1.plot_global_map ax l w = (w', inl Py.ZeroDivisionError)
       ∧ canvas w' = canvas w ∧ saved w' = saved w)
  ∧ figure1_components.stability_summary df
    = {| figure1_components.avg_enhancement := pd.NaN;
         figure1_components.min_val := pd.NaN;
         figure1_components.max_val := pd.NaN |}.
Proof.
  intros Hl Hdf. split; [|split].
  - destruct (create_global_map_only_run w ax l [] COLORS txt pos fs ms cs asp Hl)
      as [rest ->]. by eexists.
  - destruct (plot_global_map_run w ax l [] Hl) as (rest & kw & -> & _). by eexists.
  - unfold figure1_components.stability_summary. by rewrite Hdf.
Qed.

(** C7.  The map panel draws the rows of a sorted copy of the dataset:
    the copy ascends on the value column (each row's value is at most
    that of every later row, so the strong-positive rows come last and
    are drawn on top) and is a permutation of the input rows.  For a
    non-empty dataset [create_global_map_only] and [plot_global_map]
    return and their scatter call draws exactly these rows in this
    order, each with the color of its category; for an empty dataset
    nothing is drawn. *)
Theorem rendering_order_ascending w ax l rows COLORS txt pos fs ms cs asp :
  arrays w !! l = Some rows →
  ∃ drawn,
    Sorted Qle (np.column2 drawn)
    ∧ StronglySorted Qle (np.column2 drawn)
    ∧ drawn ≡ₚ rows
    ∧ match rows with
      | [] =>
          (∃ w' e,
             figure1_components.create_global_map_only ax l COLORS txt pos fs ms cs asp w
             = (w', inl e) ∧ canvas w' = canvas w)
          ∧ (∃ w' e,
               composite_figure1.plot_global_map ax l w = (w', inl e)
               ∧ canvas w' = canvas w)
      | _ :: _ =>
          (∃ w' pct colors rest,
             figure1_components.create_global_map_only ax l COLORS txt pos fs ms cs asp w
             = (w', inr pct)
             ∧ colors_of COLORS (np.column2 drawn) colors
             ∧ canvas w'
               = canvas w ++
                   (ax, Call "gdf.plot" [ARows drawn]
                          [("markersize", ANum 20); ("c", AColors colors);
                           ("alpha", ANum 0.8)]) :: rest)
          ∧ (∃ w' colors rest,
               composite_figure1.plot_global_map ax l w = (w', inr tt)
               ∧ colors_of composite_figure1.COLORS (np.column2 drawn) colors
               ∧ canvas w'
                 = canvas w ++
                     (ax, Call "gdf.plot" [ARows drawn]
                            [("markersize", ANum 3); ("c", AColors colors);
                             ("alpha", ANum 0.8)]) :: rest)
      end.
Proof.
  intros Hl. exists (np.sorted_rows rows).
  split; [apply sorted_rows_sorted|]. split.
  { apply Sorted_StronglySorted; [intros x y z; apply Qle_trans|].
    apply sorted_rows_sorted. }
  split; [apply sorted_rows_perm|].
  destruct (create_global_map_only_run w ax l rows COLORS txt pos fs ms cs asp Hl)
    as [rest ->].
  destruct (plot_global_map_run w ax l rows Hl) as (rest' & kw & -> & _).
  cbv zeta. destruct rows as [|r rows]; cbn [length].
  - split; by eexists _, _.
  - split.
    + eexists _, _, _, rest. split; [reflexivity|].
      split; [apply classify_loop_colors|done].
    + eexists _, _, rest'. split; [reflexivity|].
      split; [apply classify_loop_colors|done].
Qed.

(** C9.  [create_global_map_only] leaves its input array as it was: the
    sorted rows go to a new array under a reference that was not in use,
    and every array that existed before the call, the input among them,
    holds the rows it held before, whether the call returns or raises. *)
Theorem input_array_unchanged w ax l rows COLORS txt pos fs ms cs asp :
  arrays w !! l = Some rows →
  ∃ w' r l',
    figure1_components.create_global_map_only ax l COLORS txt pos fs ms cs asp w
    = (w', r)
    ∧ arrays w' !! l = Some rows
    ∧ arrays w !! l' = None
    ∧ arrays w' = <[l' := np.sorted_rows rows]> (arrays w)
    ∧ (∀ k, is_Some (arrays w !! k) → arrays w' !! k = arrays w !! k).
Proof.
  intros Hl.
  destruct (create_global_map_only_run w ax l rows COLORS txt pos fs ms cs asp Hl)
    as [rest ->]. cbv zeta.
  assert (arrays w !! fresh (dom (arrays w)) = None) as Hfresh.
  { apply not_elem_of_dom, is_fresh. }
  assert (∀ k, is_Some (arrays w !! k) →
               <[fresh (dom (arrays w)) := np.sorted_rows rows]> (arrays w) !! k
               = arrays w !! k) as Hframe.
  { intros k [x Hk]. apply lookup_insert_ne. by eapply fresh_lookup_ne. }
  destruct (length rows);
    eexists _, _, (fresh (dom (arrays w))); (split; [reflexivity|]); cbn [arrays];
    (split; [by rewrite Hframe|]); done.
Qed.

End map_panel_effects.

(** ** Configuration lookups and the series summary *)

Section lookups.
Import Spec.

(** C10.  For a key that is none of 'low', 'moderate', 'other',
    'low_moderate', 'all', [get_intensity_label] returns the key itself. *)
Theorem get_intensity_label_identity_fallback (intensity_key : string) :
  intensity_key ∉ intensity_keys →
  data_loader.get_intensity_label intensity_key = intensity_key.
Proof.
  intros Hk. unfold data_loader.get_intensity_label, data_loader.labels.
  by rewrite not_elem_of_list_to_map_1 by exact Hk.
Qed.

(** C6.  For a key that is not in the axis-limit table, and whatever
    the kind of data, [get_y_axis_limits] returns the default
    [((0, 10), [0, 2, 4, 6, 8, 10])]; the lookup is a total function and
    has no exception to raise. *)
Theorem get_y_axis_limits_default (intensity_key data_type : string) :
  intensity_key ∉ intensity_keys →
  data_loader.get_y_axis_limits intensity_key data_type
  = ((0, 10), [0; 2; 4; 6; 8; 10])%Q.
Proof.
  intros Hk. unfold data_loader.get_y_axis_limits.
  destruct (String.eqb data_type "urban_rural").
  - unfold data_loader.limits_urban_rural.
    by rewrite not_elem_of_list_to_map_1 by exact Hk.
  - unfold data_loader.limits_turban.
    by rewrite not_elem_of_list_to_map_1 by exact Hk.
Qed.

(** C5 (as the code has it).  The summary of the twenty-element
    enhancement series has mean 61.945, minimum 58.4 and maximum 67.3;
    so it agrees with (61.945, 58.4, 67.3) within 0.01. *)
Theorem temporal_stability_summary :
  (∃ m lo hi,
     figure1_components.stability_summary data_loader.temporal_stability
     = {| figure1_components.avg_enhancement := pd.Num m;
          figure1_components.min_val := pd.Num lo;
          figure1_components.max_val := pd.Num hi |}
     ∧ (m == 61.945)%Q ∧ (lo == 58.4)%Q ∧ (hi == 67.3)%Q)
  ∧ summary_within 0.01
      (figure1_components.stability_summary data_loader.temporal_stability)
      61.945 58.4 67.3.
Proof.
  split.
  - eexists _, _, _. split; [reflexivity|]. by vm_compute.
  - eexists _, _, _. split; [reflexivity|]. unfold within. by vm_compute.
Qed.

(** The mean of the series is not within 0.01 of 61.63. *)
Lemma temporal_stability_mean_not_61_63 :
  ¬ summary_within 0.01
      (figure1_components.stability_summary data_loader.temporal_stability)
      61.63 58.4 67.3.
Proof.
  intros (m & lo & hi & Heq & Hm & _).
  apply (f_equal figure1_components.avg_enhancement) in Heq.
  vm_compute in Heq. injection Heq as <-.
  unfold within in Hm. vm_compute in Hm. by apply Hm.
Qed.

End lookups.

(** ** Strings: replacing the extension *)

Section strings.

Lemma append_cons (c : ascii) (s t : string) :
  String c s +:+ t = String c (s +:+ t).
Proof. reflexivity. Qed.

Lemma append_nil (t : string) : EmptyString +:+ t = t.
Proof. reflexivity. Qed.

Lemma append_inj_l (base x y : string) : base +:+ x = base +:+ y → x = y.
Proof.
  induction base as [|c base IH]; [done|].
  rewrite !append_cons. intros [= Heq]. by apply IH.
Qed.

Lemma prefix_pdf_append (c : ascii) (s : string) :
  String.prefix ".pdf" (String c s) = false →
  String.prefix ".pdf" (String c s +:+ ".pdf") = false.
Proof.
  destruct s as [|c2 [|c3 [|c4 s]]]; rewrite !append_cons, ?append_nil;
    cbn [String.prefix];
    repeat (match goal with
            | |- context [ascii_dec ?a ?b] =>
                destruct (ascii_dec a b) as [e|]; [try discriminate e; subst|done]
            end; cbn [String.prefix]); try done.
  by destruct s.
Qed.

Lemma replace_pdf_png (base : string) :
  Py.contains ".pdf" base = false →
  Py.str_replace (base +:+ ".pdf") ".pdf" ".png" = base +:+ ".png".
Proof.
  unfold Py.str_replace. induction base as [|c base IH]; [done|].
  intros Hc. cbn [Py.contains] in Hc.
  destruct (String.prefix ".pdf" (String c base)) eqn:Hp; [done|].
  change (String c base +:+ ".pdf") with (String c (base +:+ ".pdf")).
  cbn [Py.replace_from].
  change (String c (base +:+ ".pdf")) with (String c base +:+ ".pdf").
  rewrite (prefix_pdf_append _ _ Hp).
  change (String c base +:+ ".png") with (String c (base +:+ ".png")).
  f_equal. by apply IH.
Qed.

End strings.

(** ** Running the temporal panels and the driver *)

Section driver_steps.
Import Fig.
Context {A : Type}.

Lemma bind_returns {B} (m : M B) (k : B → M A) w w1 b :
  m w = (w1, inr b) → (m ≫= k) w = k b w1.
Proof. intros Hm. unfold mbind, M_bind, bind. by rewrite Hm. Qed.

Lemma bind_np_load path a (k : list Q → M A) w :
  disk w !! path = Some (Npy a) → (np_load path ≫= k) w = k a w.
Proof. intros Hp. unfold mbind, M_bind, bind, np_load. by rewrite Hp. Qed.

Lemma bind_item a i x (k : Q → M A) w :
  a !! i = Some x → (item a i ≫= k) w = k x w.
Proof. intros Hi. unfold item. by rewrite Hi. Qed.

Lemma length_arange_1000 : length composite_figure1.arange_1000 = 1000.
Proof. unfold composite_figure1.arange_1000. by rewrite length_fmap, length_seq. Qed.

Lemma bind_plot_xy ax y kw (k : unit → M A) w :
  length y = 1000 →
  (composite_figure1.plot_xy ax composite_figure1.arange_1000 y kw ≫= k) w
  = k tt (World (disk w) (arrays w) (n_axes w)
            (canvas w ++
               [(ax, Call "plot" [ANums composite_figure1.arange_1000; ANums y] kw)])
            (saved w) (stdout w)).
Proof.
  intros Hy. unfold composite_figure1.plot_xy.
  rewrite length_arange_1000, Hy, Nat.eqb_refl. apply bind_draw.
Qed.

Lemma bind_fill_between ax y1 y2 kw (k : unit → M A) w :
  length y1 = 1000 → length y2 = 1000 →
  (composite_figure1.fill_between ax composite_figure1.arange_1000 y1 y2 kw ≫= k) w
  = k tt (World (disk w) (arrays w) (n_axes w)
            (canvas w ++
               [(ax, Call "fill_between"
                       [ANums composite_figure1.arange_1000; ANums y1; ANums y2] kw)])
            (saved w) (stdout w)).
Proof.
  intros Hy1 Hy2. unfold composite_figure1.fill_between.
  rewrite length_arange_1000, Hy1, Hy2.
  assert (composite_figure1.broadcastable [1000; 1000; 1000] = true) as ->
    by (vm_compute; reflexivity).
  apply bind_draw.
Qed.

End driver_steps.

Section temporal_panels.
Import Fig.

Lemma argmax_from_lt a : ∀ best besti i,
  besti < i → np.argmax_from best besti i a < i + length a.
Proof.
  induction a as [|x a IH]; intros best besti i Hi; simpl; [lia|].
  destruct (Qlt_le_dec best x).
  - specialize (IH x i (S i)). lia.
  - specialize (IH best besti (S i)). lia.
Qed.

Lemma argmax_is_Some a :
  a ≠ [] → ∃ i, np.argmax a = Some i ∧ i < length a.
Proof.
  destruct a as [|x a]; [done|]. intros _. eexists. split; [reflexivity|].
  apply (argmax_from_lt a x 0 1). lia.
Qed.

Lemma length_slice_400_500 a : length a = 1000 → length (np.slice 400 500 a) = 100.
Proof.
  intros Ha. unfold np.slice.
  rewrite List.length_firstn, List.length_skipn, Ha. reflexivity.
Qed.

Lemma load_temporal_data_returns w data rows :
  Spec.inputs_ready w data rows →
  composite_figure1.load_temporal_data "data/" w = (w, inr data).
Proof.
  intros (H1 & H2 & H3 & H4 & H5 & H6 & H7 & H8 & H9 & _).
  unfold composite_figure1.load_temporal_data.
  erewrite bind_np_load by exact H1. erewrite bind_np_load by exact H2.
  erewrite bind_np_load by exact H3. erewrite bind_np_load by exact H4.
  erewrite bind_np_load by exact H5. erewrite bind_np_load by exact H6.
  erewrite bind_np_load by exact H7. erewrite bind_np_load by exact H8.
  erewrite bind_np_load by exact H9.
  by destruct data.
Qed.

Lemma load_spatial_data_returns w data rows :
  Spec.inputs_ready w data rows →
  composite_figure1.load_spatial_data 2020 "data/" w
  = (World (disk w) (<[fresh (dom (arrays w)) := rows]> (arrays w)) (n_axes w)
       (canvas w) (saved w) (stdout w),
     inr (fresh (dom (arrays w)))).
Proof.
  intros (_ & _ & _ & _ & _ & _ & _ & _ & _ & Hspa & _).
  unfold composite_figure1.load_spatial_data, np_loadtxt.
  change ("data/" +:+ "/spa_" +:+ pretty 2020%Z +:+ ".txt") with "data//spa_2020.txt".
  by rewrite Hspa.
Qed.

Lemma plot_temporal_comparison_returns w ax data rows :
  Spec.inputs_ready w data rows →
  ∃ calls,
    composite_figure1.plot_temporal_comparison ax data w
    = (World (disk w) (arrays w) (n_axes w) (canvas w ++ calls) (saved w) (stdout w),
       inr tt).
Proof.
  intros (_ & _ & _ & _ & _ & _ & _ & _ & _ & _ & _ &
          Hum & Hul & Huh & Hrm & Hrl & Hrh & _).
  destruct (lookup_lt_is_Some_2 (composite_figure1.urban_mean data) 856) as [x Hx];
    [lia|].
  unfold composite_figure1.plot_temporal_comparison. cbv zeta.
  rewrite !bind_plot_xy by done. world_simpl.
  rewrite !bind_fill_between by done. world_simpl.
  run_draws. rewrite (bind_item _ _ _ _ _ Hx).
  unfold draw. world_simpl. rewrite <- !app_assoc. by eexists.
Qed.

Lemma plot_urban_only_returns w ax data rows :
  Spec.inputs_ready w data rows →
  ∃ calls,
    composite_figure1.plot_urban_only ax data w
    = (World (disk w) (arrays w) (n_axes w) (canvas w ++ calls) (saved w) (stdout w),
       inr tt).
Proof.
  intros (_ & _ & _ & _ & _ & _ & _ & _ & _ & _ & _ &
          _ & _ & _ & _ & _ & _ & Htm & Htl & Hth).
  destruct (argmax_is_Some (np.slice 400 500 (composite_figure1.turban_mean data)))
    as (i & Hi & Hlt).
  { intros Hnil. apply (f_equal length) in Hnil.
    by rewrite length_slice_400_500 in Hnil. }
  rewrite length_slice_400_500 in Hlt by done.
  destruct (lookup_lt_is_Some_2 (composite_figure1.turban_mean data) (i + 400))
    as [x Hx]; [lia|].
  destruct (lookup_lt_is_Some_2 (composite_figure1.turban_mean data) 856) as [y Hy];
    [lia|].
  unfold composite_figure1.plot_urban_only. cbv zeta.
  rewrite !bind_plot_xy by done. world_simpl.
  rewrite !bind_fill_between by done. world_simpl.
  run_draws. rewrite Hi. rewrite bind_ret.
  rewrite (bind_item _ _ _ _ _ Hx). run_draws.
  rewrite (bind_item _ _ _ _ _ Hy). run_draws.
  unfold draw. world_simpl. rewrite <- !app_assoc. by eexists.
Qed.

End temporal_panels.

Section driver.
Context `{!float.Rounding, !np.Argsort, !Fig.Savefig}.
Import Fig Spec.

Lemma inputs_ready_rows w data rows : inputs_ready w data rows → rows ≠ [].
Proof.
  intros (_ & _ & _ & _ & _ & _ & _ & _ & _ & _ & Hrows & _) ->.
  simpl in Hrows. lia.
Qed.

Lemma inputs_ready_disk w w1 data rows :
  disk w1 = disk w → inputs_ready w data rows → inputs_ready w1 data rows.
Proof. unfold inputs_ready. by intros ->. Qed.

(** With its input files in place, and if [savefig] accepts the two
    paths, the driver returns; the paths saved to are the output path and
    then the output path with every [.pdf] replaced by [.png]. *)
Lemma create_composite_figure_returns w data rows output_path :
  inputs_ready w data rows →
  savefig_error output_path = None →
  savefig_error (Py.str_replace output_path ".pdf" ".png") = None →
  ∃ w',
    composite_figure1.create_composite_figure output_path w = (w', inr tt)
    ∧ saved w' = saved w ++ [output_path; Py.str_replace output_path ".pdf" ".png"].
Proof.
  intros Hin Hpdf Hpng.
  unfold composite_figure1.create_composite_figure.
  rewrite bind_print.
  match goal with |- context [_ ?w1 = (_, inr tt)] =>
    assert (inputs_ready w1 data rows) as Hin1 by (by eapply inputs_ready_disk) end.
  rewrite (bind_returns _ _ _ _ _ (load_temporal_data_returns _ _ _ Hin1)).
  rewrite (bind_returns _ _ _ _ _ (load_spatial_data_returns _ _ _ Hin1)).
  world_simpl. rewrite bind_print. world_simpl.
  rewrite !bind_add_subplot. world_simpl. rewrite bind_print. world_simpl.
  match goal with |- context [(composite_figure1.plot_global_map ?ax ?l ≫= _) ?w2] =>
    destruct (plot_global_map_returns w2 ax l rows) as (rest & kw & Hmap & _);
      [world_simpl; apply lookup_insert_eq | by eapply inputs_ready_rows |];
    rewrite (bind_returns _ _ _ _ _ Hmap); clear Hmap
  end.
  world_simpl. rewrite bind_print. world_simpl.
  match goal with
  |- context [(composite_figure1.plot_temporal_comparison ?ax _ ≫= _) ?w3] =>
    destruct (plot_temporal_comparison_returns w3 ax data rows) as (calls & Hb);
      [by eapply inputs_ready_disk|];
    rewrite (bind_returns _ _ _ _ _ Hb); clear Hb
  end.
  world_simpl. rewrite bind_print. world_simpl.
  match goal with
  |- context [(composite_figure1.plot_urban_only ?ax _ ≫= _) ?w4] =>
    destruct (plot_urban_only_returns w4 ax data rows) as (calls' & Hc);
      [by eapply inputs_ready_disk|];
    rewrite (bind_returns _ _ _ _ _ Hc); clear Hc
  end.
  world_simpl. rewrite !bind_draw. world_simpl.
  rewrite bind_print. world_simpl. rewrite bind_savefig by done. world_simpl.
  cbv zeta. rewrite bind_savefig by done. world_simpl.
  rewrite !bind_print. world_simpl.
  unfold print. world_simpl.
  eexists. split; [reflexivity|]. world_simpl. by rewrite <- app_assoc.
Qed.

(** X24.  The driver on the kind of path it is made for.  With its
    input files in place, an output path that ends in [.pdf] and has no
    other [.pdf] in it, and a [savefig] that accepts that path and the
    path with the extension [.png], one run of the driver returns and
    saves to exactly two paths: the output path, and the same base path
    with the extension [.png]. *)
Theorem composite_figure_saves_pdf_and_png w data rows base :
  inputs_ready w data rows → Py.contains ".pdf" base = false →
  savefig_error (base +:+ ".pdf") = None → savefig_error (base +:+ ".png") = None →
  ∃ w',
    composite_figure1.create_composite_figure (base +:+ ".pdf") w = (w', inr tt)
    ∧ saved w' = saved w ++ output_files base.
Proof.
  intros Hin Hbase Hpdf Hpng.
  destruct (create_composite_figure_returns w data rows (base +:+ ".pdf") Hin Hpdf)
    as (w' & Hrun & Hsaved); [by rewrite replace_pdf_png|].
  exists w'. split; [done|]. by rewrite Hsaved, replace_pdf_png.
Qed.

End driver.

(** ** The claims at sample inputs *)

Section samples.
Import Fig Spec.
Local Open Scope Q_scope.

Lemma driver_world_ready :
  inputs_ready Example.driver_world Example.profile Example.cities.
Proof.
  unfold inputs_ready. repeat split; try (vm_compute; reflexivity).
  vm_compute. lia.
Qed.

Lemma classifier_half_open_rule_witness :
  ∃ (drawn : list np.row) (cats : list category),
    drawn ≡ₚ Example.unsorted_cities
    ∧ Forall2 (in_category (-0.1) 0.1) cats (np.column2 drawn).
Proof.
  destruct (classifier_half_open_rule
              (Example.world_of Example.unsorted_cities) 0 1 Example.unsorted_cities
              data_loader.COLORS false (inl "lower right") 8 1 1 (inl "auto")
              eq_refl ltac:(discriminate))
    as (_ & _ & drawn & cats & Hperm & Hcats & _).
  exists drawn, cats. split; [exact Hperm|exact Hcats].
Defined.

Lemma enhancement_pct_from_counts_witness :
  ∃ w' pct,
    @figure1_components.create_global_map_only float.binary64 _
      0 1 data_loader.COLORS false
      (inl "lower right") 8 1 1 (inl "auto") (Example.world_of Example.cities_25)
    = (w', inr pct)
    ∧ 0 <= pct <= 100.
Proof.
  destruct (enhancement_pct_from_counts
              (Example.world_of Example.cities_25) 0 1 Example.cities_25
              data_loader.COLORS false (inl "lower right") 8 1 1 (inl "auto")
              eq_refl ltac:(discriminate) eq_refl)
    as (_ & (w' & pct & Hrun & _ & _ & Hb) & _).
  exists w', pct. split; [exact Hrun|exact Hb].
Defined.

(** Of 25 observations, 7 have a value of 0 or more: the percentage
    returned is 28.000000000000004 (28 + 2^-48), not 100 × 7 / 25 = 28. *)
Lemma enhancement_pct_7_of_25_not_exact :
  length Example.cities_25 = 25%nat
  ∧ positive_count (np.column2 Example.cities_25) = 7%nat
  ∧ ∃ pct,
      (@figure1_components.create_global_map_only float.binary64 _
         0 1 data_loader.COLORS false
         (inl "lower right") 8 1 1 (inl "auto") (Example.world_of Example.cities_25)).2
      = inr pct
      ∧ pct == 28 + 2 ^ (-48)
      ∧ ¬ pct == percentage (positive_count (np.column2 Example.cities_25))
                   (length Example.cities_25).
Proof.
  split; [reflexivity|]. split; [reflexivity|].
  eexists. split; [vm_compute; reflexivity|].
  split; [by vm_compute|]. intros Heq. vm_compute in Heq. discriminate Heq.
Qed.

Lemma example_ten_cities_witness :
  ∃ w' pct,
    figure1_components.create_global_map_only 0 1 data_loader.COLORS false
      (inl "lower right") 8 1 1 (inl "auto") (Example.world_of Example.cities)
    = (w', inr pct)
    ∧ pct == 60.
Proof.
  destruct (example_ten_cities
              (Example.world_of Example.cities) 0 1 Example.cities
              data_loader.COLORS false (inl "lower right") 8 1 1 (inl "auto")
              eq_refl eq_refl)
    as (w' & pct & rest & Hrun & _ & _ & Hpct).
  exists w', pct. split; [exact Hrun|exact Hpct].
Defined.

(** The ten cities under binary64 arithmetic: [(6 / 10) * 100] rounds
    to 60. *)
Example example_ten_cities_binary64 :
  ∃ pct,
    (@figure1_components.create_global_map_only float.binary64 _
       0 1 data_loader.COLORS false
       (inl "lower right") 8 1 1 (inl "auto") (Example.world_of Example.cities)).2
    = inr pct
    ∧ pct == 60.
Proof. eexists. split; [vm_compute; reflexivity|]. by vm_compute. Qed.

Lemma empty_dataset_raises_ZeroDivisionError_witness :
  ∃ w',
    figure1_components.create_global_map_only 0 1 data_loader.COLORS false
      (inl "lower right") 8 1 1 (inl "auto") (Example.world_of [])
    = (w', inl Py.ZeroDivisionError)
    ∧ canvas w' = [].
Proof.
  destruct (empty_dataset_raises_ZeroDivisionError
              (Example.world_of []) 0 1 data_loader.COLORS false
              (inl "lower right") 8 1 1 (inl "auto")
              {| data_loader.year := []; data_loader.n_cities := [];
                 data_loader.enhancement_pct := [] |}
              eq_refl eq_refl)
    as [(w' & Hrun & Hcanvas & _) _].
  exists w'. split; [exact Hrun|exact Hcanvas].
Defined.

(** On an empty dataset the map panel does not raise the error that the
    specification names. *)
Lemma empty_dataset_not_DegenerateInputError :
  (figure1_components.create_global_map_only 0 1 data_loader.COLORS false
     (inl "lower right") 8 1 1 (inl "auto") (Example.world_of [])).2
  ≠ inl DegenerateInputError.
Proof. vm_compute. discriminate. Qed.

Lemma rendering_order_ascending_witness :
  ∃ drawn,
    Sorted Qle (np.column2 drawn) ∧ drawn ≡ₚ Example.unsorted_cities.
Proof.
  destruct (rendering_order_ascending
              (Example.world_of Example.unsorted_cities) 0 1 Example.unsorted_cities
              data_loader.COLORS false (inl "lower right") 8 1 1 (inl "auto") eq_refl)
    as (drawn & Hsorted & _ & Hperm & _).
  exists drawn. split; [exact Hsorted|exact Hperm].
Defined.

Lemma input_array_unchanged_witness :
  ∃ w' r,
    figure1_components.create_global_map_only 0 1 data_loader.COLORS false
      (inl "lower right") 8 1 1 (inl "auto") (Example.world_of Example.unsorted_cities)
    = (w', r)
    ∧ arrays w' !! 1%positive = Some Example.unsorted_cities.
Proof.
  destruct (input_array_unchanged
              (Example.world_of Example.unsorted_cities) 0 1 Example.unsorted_cities
              data_loader.COLORS false (inl "lower right") 8 1 1 (inl "auto") eq_refl)
    as (w' & r & l' & Hrun & Hl & _).
  exists w', r. split; [exact Hrun|exact Hl].
Defined.

Lemma composite_figure_saves_pdf_and_png_witness :
  ∃ w',
    @composite_figure1.create_composite_figure _ _ Example.writable
      "figures/figure1_composite.pdf" Example.driver_world
    = (w', inr tt)
    ∧ saved w' = ["figures/figure1_composite.pdf"; "figures/figure1_composite.png"].
Proof.
  exact (@composite_figure_saves_pdf_and_png _ _ Example.writable
           Example.driver_world Example.profile Example.cities
           "figures/figure1_composite" driver_world_ready eq_refl eq_refl eq_refl).
Defined.

(** C8 (the code at a path that is not a PDF path).  Given the output
    path 'figures/figure1.svg', with the input files of the driver in
    place and a [savefig] that accepts every path, one run of the driver
    returns and has saved to the one path 'figures/figure1.svg' twice:
    [png_path] is the output path itself, the second file replaces the
    first, and the paths saved to are not a vector file and a raster
    file of one base path. *)
Theorem composite_figure_svg_path_saved_twice :
  Py.str_replace "figures/figure1.svg" ".pdf" ".png" = "figures/figure1.svg"
  ∧ ∃ w',
      @composite_figure1.create_composite_figure _ _ Example.writable
        "figures/figure1.svg" Example.driver_world
      = (w', inr tt)
      ∧ saved w' = ["figures/figure1.svg"; "figures/figure1.svg"]
      ∧ ¬ ∃ base, saved w' = output_files base.
Proof.
  split; [reflexivity|].
  destruct (@create_composite_figure_returns _ _ Example.writable
              Example.driver_world Example.profile Example.cities
              "figures/figure1.svg" driver_world_ready eq_refl eq_refl)
    as (w' & Hrun & Hsaved).
  exists w'. split; [exact Hrun|].
  change (Py.str_replace "figures/figure1.svg" ".pdf" ".png")
    with "figures/figure1.svg" in Hsaved.
  change (saved Example.driver_world) with (@nil string) in Hsaved.
  rewrite app_nil_l in Hsaved. split; [exact Hsaved|].
  intros [base Hbase]. rewrite Hsaved in Hbase.
  unfold output_files in Hbase.
  injection Hbase as Hpdf Hpng. rewrite Hpdf in Hpng.
  apply append_inj_l in Hpng. discriminate Hpng.
Qed.

Lemma get_intensity_label_identity_fallback_witness :
  data_loader.get_intensity_label "heavy" = "heavy".
Proof.
  apply (get_intensity_label_identity_fallback "heavy").
  unfold intensity_keys. rewrite !not_elem_of_cons. repeat split; try discriminate.
  apply not_elem_of_nil.
Defined.

Lemma get_y_axis_limits_default_witness :
  data_loader.get_y_axis_limits "unknown_key" "urban_rural"
  = ((0, 10), [0; 2; 4; 6; 8; 10]).
Proof.
  apply (get_y_axis_limits_default "unknown_key" "urban_rural").
  unfold intensity_keys. rewrite !not_elem_of_cons. repeat split; try discriminate.
  apply not_elem_of_nil.
Defined.

End samples.

(** * Further properties of the code *)

(** ** The configuration tables *)

Section tables.
Local Open Scope Q_scope.

Lemma lookup_table_cases {V} (table : list (string * V)) (k : string) (v : V) :
  (list_to_map table : gmap string V) !! k = Some v → (k, v) ∈ table.
Proof. apply elem_of_list_to_map_2. Qed.

(** X1.  Whatever the key and the kind of data, the limits that
    [get_y_axis_limits] returns are well formed: the lower limit is below
    the upper one, the ticks ascend strictly and every tick lies within
    the limits.  This holds for the ten table entries and for the
    default alike. *)
Theorem get_y_axis_limits_well_formed (intensity_key data_type : string) :
  let '((y_min, y_max), y_ticks) :=
    data_loader.get_y_axis_limits intensity_key data_type in
  y_min < y_max
  ∧ StronglySorted Qlt y_ticks
  ∧ Forall (λ t, y_min <= t <= y_max) y_ticks.
Proof.
  unfold data_loader.get_y_axis_limits.
  destruct (String.eqb data_type "urban_rural").
  - destruct (data_loader.limits_urban_rural !! intensity_key) as [v|] eqn:Hv.
    + apply lookup_table_cases in Hv.
      repeat (apply elem_of_cons in Hv as [[= -> ->]|Hv];
              [split; [reflexivity|split; repeat constructor; by vm_compute]|]).
      by apply elem_of_nil in Hv.
    + split; [reflexivity|split; repeat constructor; by vm_compute].
  - destruct (data_loader.limits_turban !! intensity_key) as [v|] eqn:Hv.
    + apply lookup_table_cases in Hv.
      repeat (apply elem_of_cons in Hv as [[= -> ->]|Hv];
              [split; [reflexivity|split; repeat constructor; by vm_compute]|]).
      by apply elem_of_nil in Hv.
    + split; [reflexivity|split; repeat constructor; by vm_compute].
Qed.

(** X2.  [get_y_axis_limits] knows one kind of data by name: every
    [data_type] other than 'urban_rural' gets the limits of the
    urban-only events, the same as 'turban'. *)
Theorem get_y_axis_limits_other_kind (intensity_key data_type : string) :
  data_type ≠ "urban_rural" →
  data_loader.get_y_axis_limits intensity_key data_type
  = data_loader.get_y_axis_limits intensity_key "turban".
Proof.
  intros Hne. unfold data_loader.get_y_axis_limits.
  by rewrite (proj2 (String.eqb_neq _ _) Hne).
Qed.

Lemma get_y_axis_limits_other_kind_witness :
  data_loader.get_y_axis_limits "moderate" "urban_only"
  = ((0.9, 1.3), [0.9; 1.0; 1.1; 1.2; 1.3]).
Proof.
  rewrite (get_y_axis_limits_other_kind "moderate" "urban_only"); [reflexivity|].
  discriminate.
Defined.

(** X3.  A label is never relabelled: applying [get_intensity_label] to
    its own result changes nothing, for every key. *)
Theorem get_intensity_label_idempotent (intensity_key : string) :
  data_loader.get_intensity_label (data_loader.get_intensity_label intensity_key)
  = data_loader.get_intensity_label intensity_key.
Proof.
  unfold data_loader.get_intensity_label at 2 3.
  destruct (data_loader.labels !! intensity_key) as [l|] eqn:Hl; simpl.
  - apply lookup_table_cases in Hl.
    repeat (apply elem_of_cons in Hl as [[= -> ->]|Hl]; [reflexivity|]).
    by apply elem_of_nil in Hl.
  - unfold data_loader.get_intensity_label. by rewrite Hl.
Qed.

End tables.

(** ** More on the classification *)

Section categories.
Import Fig Spec Vocabulary.
Local Open Scope Q_scope.

Lemma in_category_monotone (v v' : Q) (c c' : category) :
  v <= v' → in_category (-0.1) 0.1 c v → in_category (-0.1) 0.1 c' v' →
  (rank c ≤ rank c')%nat.
Proof.
  intros Hv Hc Hc'. destruct c, c'; simpl in *; try lia; exfalso; lra.
Qed.

Lemma categories_ascend values : ∀ cats,
  Sorted Qle values → Forall2 (in_category (-0.1) 0.1) cats values →
  StronglySorted (λ a b, rank a ≤ rank b)%nat cats.
Proof.
  intros cats Hs Hcats.
  apply Sorted_StronglySorted; [intros a b c; lia|].
  revert Hs. induction Hcats as [|c v cats values Hc Hcats IH]; intros Hs.
  - constructor.
  - apply Sorted_inv in Hs as [Hs Hhd]. constructor; [by apply IH|].
    destruct Hcats as [|c' v' cats' values' Hc' _]; constructor.
    apply HdRel_inv in Hhd. by eapply in_category_monotone.
Qed.

End categories.

(** ** The calls of the map panel *)

Section map_panel_calls.
Context `{!np.Argsort}.
Import Fig Spec Vocabulary.
Local Open Scope Q_scope.

(** Everything [create_global_map_only] adds to the canvas of a
    non-empty dataset. *)
Lemma create_global_map_only_calls w ax l rows COLORS txt pos fs ms cs asp :
  arrays w !! l = Some rows → rows ≠ [] →
  ∃ added legend,
    figure1_components.create_global_map_only ax l COLORS txt pos fs ms cs asp w
    = (World (disk w)
         (<[fresh (dom (arrays w)) := np.sorted_rows rows]> (arrays w)) (n_axes w)
         (canvas w ++ added) (saved w) (stdout w),
       inr (inject_Z (Z.of_nat (figure1_components.classify_loop COLORS
                                  (np.column2 (np.sorted_rows rows))).2)
            / inject_Z (Z.of_nat (length rows)) * 100))
    ∧ Forall (λ c, c.1 = ax) added
    ∧ methods added
      = ["gdf.plot"; "ctx.add_basemap"; "set_xlim"; "set_ylim"; "set_aspect";
         "set_xticks"; "set_xticklabels"; "set_yticks"; "set_yticklabels";
         "set_title"] ++ (if txt then ["text"] else []) ++ ["legend"]
    ∧ head added
      = Some (ax, Call "gdf.plot" [ARows (np.sorted_rows rows)]
                    [("markersize", ANum 20);
                     ("c", AColors (figure1_components.classify_loop COLORS
                                      (np.column2 (np.sorted_rows rows))).1);
                     ("alpha", ANum 0.8)])
    ∧ last added = Some (ax, legend)
    ∧ method legend = "legend"
    ∧ kwarg "handles" legend
      = Some (figure1_components.legend_elements COLORS (0.8 * ms))
    ∧ (kwarg "loc" legend, kwarg "bbox_to_anchor" legend)
      = match pos with
        | inl name => (Some (AStr name), None)
        | inr (x, y) => (Some (AStr "center"), Some (APair x y))
        end.
Proof.
  intros Hl Hne.
  unfold figure1_components.create_global_map_only.
  rewrite (bind_deref _ _ _ _ Hl).
  rewrite (bind_index_rows _ _ _ _ _ _ Hl (index_rows_argsort rows)).
  rewrite (bind_deref _ (np.sorted_rows rows)) by (world_simpl; apply lookup_insert_eq).
  cbv zeta.
  destruct (figure1_components.classify_loop COLORS (np.column2 (np.sorted_rows rows)))
    as [colors k].
  rewrite (bind_len _ rows)
    by (world_simpl; rewrite lookup_insert_ne by (by eapply fresh_lookup_ne); done).
  destruct rows as [|r rows]; [done|]. cbn [length].
  rewrite bind_truediv_S. run_draws.
  destruct txt, pos as [name|[x y]]; run_draws;
    unfold mret, M_ret, ret; rewrite <- !app_assoc; cbn [app fst snd];
    eexists _, _; (split; [reflexivity|]);
    (split; [repeat constructor|]);
    (split; [reflexivity|]); (split; [reflexivity|]); (split; [reflexivity|]);
    (split; [reflexivity|]); (split; [reflexivity|]); reflexivity.
Qed.

End map_panel_calls.

Section percentage_facts.
Import Spec.
Local Open Scope Q_scope.

Lemma pct_zero_iff (k n : nat) :
  (0 < n)%nat →
  inject_Z (Z.of_nat k) / inject_Z (Z.of_nat n) * 100 == 0 ↔ k = 0%nat.
Proof.
  intros Hn. destruct n as [|n]; [lia|].
  unfold Qeq, Qdiv, Qmult, Qinv, inject_Z. simpl. lia.
Qed.

Lemma pct_hundred_iff (k n : nat) :
  (0 < n)%nat →
  inject_Z (Z.of_nat k) / inject_Z (Z.of_nat n) * 100 == 100 ↔ k = n.
Proof.
  intros Hn. destruct n as [|n]; [lia|].
  unfold Qeq, Qdiv, Qmult, Qinv, inject_Z. simpl. lia.
Qed.

Lemma positive_count_zero_iff (values : list Q) :
  positive_count values = 0%nat ↔ Forall (λ v, v < 0) values.
Proof.
  unfold positive_count. induction values as [|v values IH]; simpl.
  - split; [constructor|done].
  - destruct (Qle_bool 0 v) eqn:Hv; simpl.
    + apply Qle_bool_iff in Hv. split; [lia|].
      intros [Hlt _]%Forall_cons. exfalso. lra.
    + assert (v < 0).
      { apply Qnot_le_lt. rewrite <- Qle_bool_iff. congruence. }
      rewrite IH. split; [by constructor|by intros [_ ?]%Forall_cons].
Qed.

Lemma positive_count_all_iff (values : list Q) :
  positive_count values = length values ↔ Forall (λ v, 0 <= v) values.
Proof.
  induction values as [|v values IH].
  - split; [constructor|done].
  - pose proof (positive_count_le values) as Hle.
    unfold positive_count in *. simpl.
    destruct (Qle_bool 0 v) eqn:Hv; simpl.
    + apply Qle_bool_iff in Hv. split.
      * intros [= Heq]. constructor; [done|by apply IH].
      * intros [_ Hall]%Forall_cons. f_equal. by apply IH.
    + split; [lia|]. intros [Hle0 _]%Forall_cons.
      apply Qle_bool_iff in Hle0. congruence.
Qed.

End percentage_facts.

Section map_panel_more.
Context `{!np.Argsort}.
Import Fig Spec Vocabulary.
Local Open Scope Q_scope.

(** X4.  Along the sequence that [create_global_map_only] draws, the
    categories only go up: the colors of the scatter call are the colors
    of a list of categories, one per drawn row and each the category of
    that row's value, in which no category comes after a higher one.  So
    every strong-positive point is drawn after every point of another
    category. *)
Theorem drawn_categories_ascend w ax l rows COLORS txt pos fs ms cs asp :
  arrays w !! l = Some rows → rows ≠ [] →
  ∃ w' pct drawn cats added,
    figure1_components.create_global_map_only ax l COLORS txt pos fs ms cs asp w
    = (w', inr pct)
    ∧ canvas w' = canvas w ++ added
    ∧ head added
      = Some (ax, Call "gdf.plot" [ARows drawn]
                    [("markersize", ANum 20);
                     ("c", AColors (category_color COLORS <$> cats));
                     ("alpha", ANum 0.8)])
    ∧ Forall2 (in_category (-0.1) 0.1) cats (np.column2 drawn)
    ∧ StronglySorted (λ a b, rank a ≤ rank b)%nat cats.
Proof.
  intros Hl Hne.
  destruct (create_global_map_only_calls w ax l rows COLORS txt pos fs ms cs asp Hl Hne)
    as (added & legend & Hrun & _ & _ & Hhead & _).
  destruct (colors_of_categories COLORS _ _
              (classify_loop_colors COLORS (np.column2 (np.sorted_rows rows))))
    as (cats & Hcolors & Hcats).
  rewrite Hcolors in Hhead.
  eexists _, _, (np.sorted_rows rows), cats, added.
  split; [exact Hrun|]. split; [done|]. split; [exact Hhead|]. split; [done|].
  eapply categories_ascend; [apply sorted_rows_sorted|done].
Qed.

(** X5.  For a non-empty dataset the returned percentage is 0 exactly
    when every value is negative, and 100 exactly when no value is. *)
Theorem enhancement_pct_extremes w ax l rows COLORS txt pos fs ms cs asp :
  arrays w !! l = Some rows → rows ≠ [] →
  ∃ w' pct,
    figure1_components.create_global_map_only ax l COLORS txt pos fs ms cs asp w
    = (w', inr pct)
    ∧ (pct == 0 ↔ Forall (λ r, np.value r < 0) rows)
    ∧ (pct == 100 ↔ Forall (λ r, 0 <= np.value r) rows).
Proof.
  intros Hl Hne.
  destruct (create_global_map_only_returns w ax l rows COLORS txt pos fs ms cs asp Hl Hne)
    as [rest ->].
  assert (0 < length rows)%nat as Hlen by (destruct rows; [done|simpl; lia]).
  eexists _, _. split; [reflexivity|]. cbn [float.fl float.exact].
  rewrite classify_loop_count.
  rewrite (pct_zero_iff _ _ Hlen), (pct_hundred_iff _ _ Hlen).
  rewrite <- (length_fmap np.value rows). fold (np.column2 rows).
  rewrite positive_count_zero_iff, positive_count_all_iff.
  unfold np.column2. by rewrite !Forall_fmap.
Qed.

End map_panel_more.

Section map_panel_independence.
Import Fig Spec Vocabulary.
Local Open Scope Q_scope.

(** X6.  What [create_global_map_only] returns depends on the values of
    the dataset only, not on the order of its rows: two calls with the
    same axes, color table and display options on datasets that are
    permutations of each other give the same result (the same
    percentage, or the same exception), whatever the sorting procedure
    behind [argsort] and whatever the rounding of the float operations. *)
Theorem enhancement_pct_order_independent
    (rounding : float.Rounding) (sort1 sort2 : np.Argsort)
    w1 w2 l1 l2 rows1 rows2 ax COLORS txt pos fs ms cs asp :
  arrays w1 !! l1 = Some rows1 → arrays w2 !! l2 = Some rows2 →
  rows1 ≡ₚ rows2 →
  (@figure1_components.create_global_map_only rounding sort1
     ax l1 COLORS txt pos fs ms cs asp w1).2
  = (@figure1_components.create_global_map_only rounding sort2
       ax l2 COLORS txt pos fs ms cs asp w2).2.
Proof.
  intros Hl1 Hl2 Hperm.
  destruct (@create_global_map_only_run rounding sort1
              w1 ax l1 rows1 COLORS txt pos fs ms cs asp Hl1) as [rest1 ->].
  destruct (@create_global_map_only_run rounding sort2
              w2 ax l2 rows2 COLORS txt pos fs ms cs asp Hl2) as [rest2 ->].
  cbv zeta. rewrite !classify_loop_count.
  assert (length rows1 = length rows2) as Hlen by (by rewrite Hperm).
  assert (positive_count (np.column2 rows1) = positive_count (np.column2 rows2))
    as Hcount.
  { apply positive_count_perm. unfold np.column2. by rewrite Hperm. }
  rewrite Hlen, Hcount. by destruct (length rows2).
Qed.

End map_panel_independence.

Section map_panel_agreement.
Context `{!np.Argsort}.
Import Fig Spec Vocabulary.
Local Open Scope Q_scope.

Lemma COLORS_tables_equal : composite_figure1.COLORS = data_loader.COLORS.
Proof. reflexivity. Qed.

(** X7.  The two map panels agree.  On the same non-empty dataset, and
    with the color table of [data_loader] given to
    [create_global_map_only], [plot_global_map] draws the same rows in
    the same order with the same colors (only the marker size differs),
    and the percentage in its annotation is the percentage that
    [create_global_map_only] returns. *)
Theorem map_panels_agree w ax l rows txt pos fs ms cs asp :
  arrays w !! l = Some rows → rows ≠ [] →
  ∃ w1 w2 pct drawn colors rest1 rest2 kw,
    figure1_components.create_global_map_only ax l data_loader.COLORS
      txt pos fs ms cs asp w = (w1, inr pct)
    ∧ composite_figure1.plot_global_map ax l w = (w2, inr tt)
    ∧ canvas w1
      = canvas w ++
          (ax, Call "gdf.plot" [ARows drawn]
                 [("markersize", ANum 20); ("c", AColors colors);
                  ("alpha", ANum 0.8)]) :: rest1
    ∧ canvas w2
      = canvas w ++
          (ax, Call "gdf.plot" [ARows drawn]
                 [("markersize", ANum 3); ("c", AColors colors);
                  ("alpha", ANum 0.8)]) :: rest2
    ∧ (ax, Call "text"
             [ANum 0.02; ANum 0.95;
              AFormat pct ".1f" ("% of cities" +:+ newline +:+ "show enhancement")]
             kw) ∈ rest2
    ∧ arrays w1 = arrays w2.
Proof.
  intros Hl Hne.
  destruct (create_global_map_only_returns
              w ax l rows data_loader.COLORS txt pos fs ms cs asp Hl Hne) as [rest1 ->].
  destruct (plot_global_map_returns w ax l rows Hl Hne) as (rest2 & kw & -> & Hin).
  rewrite COLORS_tables_equal in *.
  eexists _, _, _, _, _, rest1, rest2, kw.
  split; [reflexivity|]. split; [reflexivity|]. cbn [canvas arrays].
  split; [reflexivity|]. split; [reflexivity|]. split; [exact Hin|done].
Qed.

(** X8.  [create_global_map_only] acts on its axes and on nothing else
    that existed: whether it returns or raises, the files on disk, the
    number of axes, the paths saved and the lines printed are as before,
    the canvas only grows, and every call added is a call on [ax]. *)
Theorem create_global_map_only_frame w ax l rows COLORS txt pos fs ms cs asp :
  arrays w !! l = Some rows →
  ∃ w' r added,
    figure1_components.create_global_map_only ax l COLORS txt pos fs ms cs asp w
    = (w', r)
    ∧ disk w' = disk w ∧ n_axes w' = n_axes w
    ∧ saved w' = saved w ∧ stdout w' = stdout w
    ∧ canvas w' = canvas w ++ added
    ∧ Forall (λ c, c.1 = ax) added
    ∧ (rows = [] → added = []).
Proof.
  intros Hl. destruct rows as [|r0 rows].
  - destruct (create_global_map_only_run w ax l [] COLORS txt pos fs ms cs asp Hl)
      as [rest ->]. cbv zeta. cbn [length].
    eexists _, _, []. split; [reflexivity|]. cbn [disk n_axes saved stdout canvas].
    by rewrite app_nil_r.
  - destruct (create_global_map_only_calls
                w ax l (r0 :: rows) COLORS txt pos fs ms cs asp Hl)
      as (added & legend & -> & Hon & _); [done|].
    eexists _, _, added. split; [reflexivity|]. by cbn [disk n_axes saved stdout canvas].
Qed.

(** X9.  The display options of [create_global_map_only].  Whenever a
    call returns, the calls it has added to the canvas are such that: the
    annotation was drawn exactly when [show_enhancement_text] is set; the
    legend is the last call and the only legend call, with the four
    category patches as handles; a position given as a pair anchors the
    legend box there by its center, a position given as a name is passed
    on as the location and no anchor is set. *)
Theorem annotation_and_legend_options
    w ax l rows COLORS txt pos fs ms cs asp w' pct :
  arrays w !! l = Some rows →
  figure1_components.create_global_map_only ax l COLORS txt pos fs ms cs asp w
  = (w', inr pct) →
  ∃ added legend,
    canvas w' = canvas w ++ added
    ∧ ("text" ∈ methods added ↔ txt = true)
    ∧ last added = Some (ax, legend)
    ∧ method legend = "legend"
    ∧ length (filter (λ m, m = "legend") (methods added)) = 1%nat
    ∧ kwarg "handles" legend
      = Some (figure1_components.legend_elements COLORS (0.8 * ms))
    ∧ (kwarg "loc" legend, kwarg "bbox_to_anchor" legend)
      = match pos with
        | inl name => (Some (AStr name), None)
        | inr (x, y) => (Some (AStr "center"), Some (APair x y))
        end.
Proof.
  intros Hl Hrun.
  assert (rows ≠ []) as Hne.
  { intros ->.
    destruct (create_global_map_only_run w ax l [] COLORS txt pos fs ms cs asp Hl)
      as [rest Hraise].
    rewrite Hraise in Hrun. cbv zeta in Hrun. cbn [length] in Hrun. discriminate Hrun. }
  destruct (create_global_map_only_calls w ax l rows COLORS txt pos fs ms cs asp Hl Hne)
    as (added & legend & Hcalls & _ & Hmethods & _ & Hlast & Hmethod & Hhandles & Hpos).
  rewrite Hcalls in Hrun. injection Hrun as <- _.
  exists added, legend. cbn [canvas].
  split; [done|]. rewrite Hmethods.
  split; [|split; [done|split; [done|split; [|done]]]].
  - destruct txt; split; try done.
    + intros _. repeat first [apply list_elem_of_here | apply list_elem_of_further].
    + intros Hin.
      repeat (apply elem_of_cons in Hin as [Hin|Hin]; [discriminate|]).
      by apply elem_of_nil in Hin.
  - by destruct txt.
Qed.

End map_panel_agreement.

(** ** The temporal stability inset *)

Section inset.
Import Fig Spec Vocabulary.
Local Open Scope Q_scope.

Lemma bind_inset_axes {A} parent position (k : nat → M A) w :
  (figure1_panels.inset_axes parent position ≫= k) w
  = k (n_axes w)
      (World (disk w) (arrays w) (S (n_axes w))
         (canvas w ++ [(parent, Call "inset_axes" [ANums position] [])])
         (saved w) (stdout w)).
Proof. reflexivity. Qed.

Lemma bind_twinx {A} ax (k : nat → M A) w :
  (figure1_panels.twinx ax ≫= k) w
  = k (n_axes w)
      (World (disk w) (arrays w) (S (n_axes w))
         (canvas w ++ [(ax, Call "twinx" [] [])]) (saved w) (stdout w)).
Proof. reflexivity. Qed.

(** What the inset does, for every frame and every world. *)
Lemma create_temporal_stability_inset_run parent df position w :
  ∃ added kw kw',
    figure1_panels.create_temporal_stability_inset parent df position w
    = (World (disk w) (arrays w) (S (S (n_axes w)))
         (canvas w ++
            (parent, Call "inset_axes" [ANums position] []) ::
            (n_axes w, Call "twinx" [] []) :: added)
         (saved w) (stdout w),
       inr (n_axes w, S (n_axes w)))
    ∧ Forall (λ c, c.1 = n_axes w ∨ c.1 = S (n_axes w)) added
    ∧ (n_axes w,
       Call "axhline"
         [figure1_panels.float_arg (pd.mean (data_loader.enhancement_pct df))] kw)
      ∈ added
    ∧ (n_axes w,
       Call "text"
         [ANum 2002;
          figure1_panels.float_arg
            (figure1_panels.float_add (pd.mean (data_loader.enhancement_pct df)) 0.5);
          figure1_panels.float_format
            (pd.mean (data_loader.enhancement_pct df)) ".1f" "%"] kw')
      ∈ added.
Proof.
  unfold figure1_panels.create_temporal_stability_inset.
  rewrite bind_inset_axes, bind_twinx. world_simpl. cbv zeta. run_draws.
  unfold mret, M_ret, ret. rewrite <- !app_assoc. cbn [app].
  eexists _, _, _. split; [reflexivity|].
  split.
  { repeat (apply List.Forall_cons;
            [first [left; reflexivity | right; reflexivity]|]).
    apply List.Forall_nil. }
  split; repeat first [apply list_elem_of_here | apply list_elem_of_further].
Qed.

(** X10.  [create_temporal_stability_inset] draws its dashed average line
    at the mean of the enhancement column and labels it half a point
    above, on the first of the two axes it creates; the parent axes gets
    the one call that creates the inset.  An empty frame does not stop
    it: the line and the label are then at NaN and the label reads
    [nan%]. *)
Theorem inset_average_line parent df position w :
  ∃ w' inset_ax inset_ax2 added line_kw label_kw,
    figure1_panels.create_temporal_stability_inset parent df position w
    = (w', inr (inset_ax, inset_ax2))
    ∧ inset_ax = n_axes w ∧ inset_ax2 = S (n_axes w) ∧ n_axes w' = S (S (n_axes w))
    ∧ canvas w'
      = canvas w ++ (parent, Call "inset_axes" [ANums position] []) :: added
    ∧ Forall (λ c, c.1 = inset_ax ∨ c.1 = inset_ax2) added
    ∧ match data_loader.enhancement_pct df with
      | [] =>
          (inset_ax, Call "axhline" [ARef "nan"] line_kw) ∈ added
          ∧ (inset_ax, Call "text" [ANum 2002; ARef "nan"; AStr "nan%"] label_kw)
            ∈ added
      | x :: s =>
          let mean := pd.Qsum (x :: s) / inject_Z (Z.of_nat (length (x :: s))) in
          (inset_ax, Call "axhline" [ANum mean] line_kw) ∈ added
          ∧ (inset_ax,
             Call "text" [ANum 2002; ANum (mean + 0.5); AFormat mean ".1f" "%"]
               label_kw) ∈ added
      end.
Proof.
  destruct (create_temporal_stability_inset_run parent df position w)
    as (added & kw & kw' & -> & Hon & Hline & Hlabel).
  eexists _, _, _, ((n_axes w, Call "twinx" [] []) :: added), kw, kw'.
  split; [reflexivity|]. cbn [n_axes canvas].
  do 4 (split; [done|]). split; [constructor; [by left|done]|].
  destruct (data_loader.enhancement_pct df) as [|x s];
    split; by apply list_elem_of_further.
Qed.

End inset.

Section map_with_inset.
Context `{!np.Argsort}.
Import Fig Spec Vocabulary.
Local Open Scope Q_scope.

(** X11.  [create_global_map_with_temporal_inset] is the map panel
    followed by the inset.  It returns what [create_global_map_only]
    returns with the default column spacing and aspect; when the map
    panel raises (an empty dataset), the exception goes through and no
    inset is created; when it returns, the inset's two axes are created
    after the map is drawn and the arrays are left as the map panel left
    them. *)
Theorem map_with_inset_is_map_then_inset
    w ax1 df spatial_2020 COLORS txt pos fs ms :
  let '(w1, r) :=
    figure1_components.create_global_map_only ax1 spatial_2020 COLORS
      txt pos fs ms 1.0 (inl "auto") w in
  match r with
  | inl e =>
      figure1_panels.create_global_map_with_temporal_inset
        ax1 df spatial_2020 COLORS txt pos fs ms w = (w1, inl e)
  | inr pct =>
      ∃ w2 added,
        figure1_panels.create_global_map_with_temporal_inset
          ax1 df spatial_2020 COLORS txt pos fs ms w = (w2, inr pct)
        ∧ n_axes w2 = S (S (n_axes w1))
        ∧ arrays w2 = arrays w1 ∧ saved w2 = saved w1
        ∧ canvas w2
          = canvas w1 ++
              (ax1, Call "inset_axes" [ANums [0.62; 0.65; 0.35; 0.28]] []) :: added
        ∧ Forall (λ c, c.1 = n_axes w1 ∨ c.1 = S (n_axes w1)) added
  end.
Proof.
  unfold figure1_panels.create_global_map_with_temporal_inset.
  destruct (figure1_components.create_global_map_only ax1 spatial_2020 COLORS
              txt pos fs ms 1.0 (inl "auto") w) as [w1 [e|pct]] eqn:Hmap.
  - unfold mbind, M_bind, bind. by rewrite Hmap.
  - rewrite (bind_returns _ _ _ _ _ Hmap).
    destruct (create_temporal_stability_inset_run ax1 df [0.62; 0.65; 0.35; 0.28] w1)
      as (added & kw & kw' & Hinset & Hon & _).
    rewrite (bind_returns _ _ _ _ _ Hinset).
    eexists _, ((n_axes w1, Call "twinx" [] []) :: added).
    split; [reflexivity|]. cbn [n_axes arrays saved canvas].
    do 4 (split; [done|]). constructor; [by left|done].
Qed.

End map_with_inset.

(** ** The temporal panels of figure1_components *)

Section temporal_panel_steps.
Import Fig Spec Vocabulary.
Local Open Scope Q_scope.

Lemma bind_plot_xy_mismatch {A} ax y kw (k : unit → M A) w :
  length y ≠ 1000%nat →
  (composite_figure1.plot_xy ax composite_figure1.arange_1000 y kw ≫= k) w
  = (w, inl Py.ValueError).
Proof.
  intros Hy. unfold composite_figure1.plot_xy. rewrite length_arange_1000.
  destruct (Nat.eqb_spec 1000 (length y)) as [Heq|_]; [by rewrite <- Heq in Hy|done].
Qed.

(** Against a series of [m] samples, with [m] other than 1, a series
    broadcasts if it has [m] samples or one. *)
Lemma broadcastable_3 (m n1 n2 : nat) :
  m ≠ 1%nat →
  composite_figure1.broadcastable [m; n1; n2]
  = (Nat.eqb n1 m || Nat.eqb n1 1) && (Nat.eqb n2 m || Nat.eqb n2 1).
Proof.
  intros Hm. unfold composite_figure1.broadcastable. cbn [List.filter].
  destruct (Nat.eqb_spec m 1) as [|_]; [done|]. cbn [negb].
  destruct (Nat.eqb_spec n1 1) as [->|H1], (Nat.eqb_spec n2 1) as [->|H2];
    cbn [negb forallb];
    repeat match goal with
           | |- context [Nat.eqb ?a ?b] => destruct (Nat.eqb_spec a b)
           end; subst; cbn; try done; lia.
Qed.

Lemma bind_fill_between_broadcast {A} ax y1 y2 kw (k : unit → M A) w :
  length y1 = 1000%nat ∨ length y1 = 1%nat →
  length y2 = 1000%nat ∨ length y2 = 1%nat →
  (composite_figure1.fill_between ax composite_figure1.arange_1000 y1 y2 kw ≫= k) w
  = k tt (World (disk w) (arrays w) (n_axes w)
            (canvas w ++
               [(ax, Call "fill_between"
                       [ANums composite_figure1.arange_1000; ANums y1; ANums y2] kw)])
            (saved w) (stdout w)).
Proof.
  intros Hy1 Hy2. unfold composite_figure1.fill_between.
  rewrite length_arange_1000, broadcastable_3 by lia.
  assert ((Nat.eqb (length y1) 1000 || Nat.eqb (length y1) 1)
          && (Nat.eqb (length y2) 1000 || Nat.eqb (length y2) 1) = true) as ->.
  { apply andb_true_intro. split; apply orb_true_iff;
      rewrite !Nat.eqb_eq; done. }
  apply bind_draw.
Qed.

Lemma bind_fill_between_mismatch {A} ax y1 y2 kw (k : unit → M A) w :
  ¬ (length y1 = 1000%nat ∨ length y1 = 1%nat)
  ∨ ¬ (length y2 = 1000%nat ∨ length y2 = 1%nat) →
  (composite_figure1.fill_between ax composite_figure1.arange_1000 y1 y2 kw ≫= k) w
  = (w, inl Py.ValueError).
Proof.
  intros Hy. unfold composite_figure1.fill_between.
  rewrite length_arange_1000, broadcastable_3 by lia.
  assert ((Nat.eqb (length y1) 1000 || Nat.eqb (length y1) 1)
          && (Nat.eqb (length y2) 1000 || Nat.eqb (length y2) 1) = false) as ->; [|done].
  apply andb_false_iff.
  destruct Hy as [Hy|Hy]; [left|right]; apply orb_false_iff;
    rewrite !Nat.eqb_neq; split; intros Heq; apply Hy; auto.
Qed.

Lemma bind_assoc {A B C} (m : M A) (f : A → M B) (k : B → M C) w :
  ((m ≫= f) ≫= k) w = (m ≫= (λ a, f a ≫= k)) w.
Proof. unfold mbind, M_bind, bind. by destruct (m w) as [w' [e|a]]. Qed.

(** The axes configuration, by its four options. *)
Lemma configure_axes_run ax label y_lim y_ticks
    (show_legend show_title show_ylabel show_xlabel : bool) w :
  ∃ added,
    figure1_panels.configure_axes ax label y_lim y_ticks
      show_legend show_title show_ylabel show_xlabel w
    = (World (disk w) (arrays w) (n_axes w) (canvas w ++ added) (saved w) (stdout w),
       inr tt)
    ∧ Forall (λ c, c.1 = ax) added
    ∧ methods added
      = ["set_xticks"; "set_xticklabels"]
        ++ (if show_xlabel then ["get_xticklabels()[1].set_fontweight"] else [])
        ++ (if show_ylabel then ["set_ylabel"] else [])
        ++ ["set_ylim"; "set_yticks"]
        ++ (if show_title then ["set_title"] else [])
        ++ (if show_legend then ["legend"] else [])
    ∧ (ax, Call "set_ylim" [APair y_lim.1 y_lim.2] []) ∈ added
    ∧ (ax, Call "set_yticks" [ANums y_ticks] []) ∈ added
    ∧ (ax, Call "set_xticklabels"
             [AStrs (if show_xlabel then ["Midday"; "Sunset"] else [])]
             (if show_xlabel then [("fontsize", ANum 9)] else [])) ∈ added
    ∧ (show_title = true →
       (ax, Call "set_title" [AStr label] [("fontsize", ANum 10); ("pad", ANum 10)])
       ∈ added).
Proof.
  unfold figure1_panels.configure_axes.
  destruct show_legend, show_title, show_ylabel, show_xlabel; cbv iota;
    repeat (first [rewrite bind_assoc | rewrite bind_draw | rewrite bind_ret];
            world_simpl);
    unfold mret, M_ret, ret, draw; world_simpl; rewrite <- ?app_assoc; cbn [app];
    eexists; (split; [reflexivity|]);
    (split; [repeat constructor|]); (split; [reflexivity|]);
    repeat split; try done;
    try (intros _);
    repeat first [apply list_elem_of_here | apply list_elem_of_further].
Qed.

End temporal_panel_steps.

Section temporal_panels_options.
Import Fig Spec Vocabulary.
Local Open Scope Q_scope.

Lemma elem_of_iff_bool (name : string) (l : list string) (b : bool) :
  bool_decide (name ∈ l) = b → (name ∈ l ↔ b = true).
Proof. intros <-. symmetry. apply bool_decide_eq_true. Qed.

Lemma create_urban_rural_comparison_tail
    ax um ul uh rm rl rh COLORS label y_lim y_ticks sl st sy sx :
  figure1_panels.create_urban_rural_comparison
    ax um ul uh rm rl rh COLORS label y_lim y_ticks sl st sy sx
  = (let x := composite_figure1.arange_1000 in
     composite_figure1.plot_xy ax x um
       [("color", AStr (data_loader.urban COLORS)); ("linewidth", ANum 1.5);
        ("label", AStr "Urban"); ("alpha", ANum 0.9)];;
     composite_figure1.plot_xy ax x rm
       [("color", AStr (data_loader.rural COLORS)); ("linewidth", ANum 1.5);
        ("label", AStr "Rural"); ("alpha", ANum 0.9)];;
     composite_figure1.fill_between ax x ul uh
       [("color", AStr (data_loader.urban COLORS)); ("alpha", ANum 0.2)];;
     composite_figure1.fill_between ax x rl rh
       [("color", AStr (data_loader.rural COLORS)); ("alpha", ANum 0.2)];;
     draw ax (Call "axvline" [ANum 856]
                [("color", AStr "black"); ("linestyle", AStr "--");
                 ("linewidth", ANum 1.2); ("alpha", ANum 0.7)]);;
     figure1_panels.configure_axes ax label y_lim y_ticks sl st sy sx).
Proof. reflexivity. Qed.

Lemma create_urban_only_events_tail
    ax tm tl th COLORS label y_lim y_ticks sl st sy sx :
  figure1_panels.create_urban_only_events
    ax tm tl th COLORS label y_lim y_ticks sl st sy sx
  = (let x := composite_figure1.arange_1000 in
     composite_figure1.plot_xy ax x tm
       [("color", AStr (data_loader.urban_only COLORS)); ("linewidth", ANum 1.5);
        ("label", AStr "Urban Only"); ("alpha", ANum 0.9)];;
     composite_figure1.fill_between ax x tl th
       [("color", AStr (data_loader.urban_only COLORS)); ("alpha", ANum 0.2)];;
     draw ax (Call "axvline" [ANum 856]
                [("color", AStr "black"); ("linestyle", AStr "--");
                 ("linewidth", ANum 1.2); ("alpha", ANum 0.7)]);;
     figure1_panels.configure_axes ax label y_lim y_ticks sl st sy sx).
Proof. reflexivity. Qed.

(** X12.  [create_urban_rural_comparison] with six series of a thousand
    samples returns, changes nothing but the canvas, and draws on its
    axes only.  Its options decide what is drawn: a legend, a title, a
    y-axis label exactly when the option is set; the tick labels
    'Midday' and 'Sunset' when [show_xlabel] is set and no tick labels
    otherwise.  The limits and the ticks of the y axis are the ones
    given. *)
Theorem urban_rural_comparison_options
    w ax um ul uh rm rl rh COLORS label y_lim y_ticks
    (show_legend show_title show_ylabel show_xlabel : bool) :
  Forall (λ s : list Q, length s = 1000%nat) [um; ul; uh; rm; rl; rh] →
  ∃ added,
    figure1_panels.create_urban_rural_comparison
      ax um ul uh rm rl rh COLORS label y_lim y_ticks
      show_legend show_title show_ylabel show_xlabel w
    = (World (disk w) (arrays w) (n_axes w) (canvas w ++ added) (saved w) (stdout w),
       inr tt)
    ∧ Forall (λ c, c.1 = ax) added
    ∧ ("legend" ∈ methods added ↔ show_legend = true)
    ∧ ("set_title" ∈ methods added ↔ show_title = true)
    ∧ ("set_ylabel" ∈ methods added ↔ show_ylabel = true)
    ∧ (ax, Call "set_ylim" [APair y_lim.1 y_lim.2] []) ∈ added
    ∧ (ax, Call "set_yticks" [ANums y_ticks] []) ∈ added
    ∧ (ax, Call "set_xticklabels"
             [AStrs (if show_xlabel then ["Midday"; "Sunset"] else [])]
             (if show_xlabel then [("fontsize", ANum 9)] else [])) ∈ added
    ∧ (show_title = true →
       (ax, Call "set_title" [AStr label] [("fontsize", ANum 10); ("pad", ANum 10)])
       ∈ added).
Proof.
  intros Hlen.
  apply Forall_cons in Hlen as [Hum Hlen]. apply Forall_cons in Hlen as [Hul Hlen].
  apply Forall_cons in Hlen as [Huh Hlen]. apply Forall_cons in Hlen as [Hrm Hlen].
  apply Forall_cons in Hlen as [Hrl Hlen]. apply Forall_cons in Hlen as [Hrh _].
  rewrite create_urban_rural_comparison_tail. cbv zeta.
  rewrite !bind_plot_xy by done. world_simpl.
  rewrite !bind_fill_between by done. world_simpl.
  rewrite bind_draw. world_simpl.
  match goal with |- context [figure1_panels.configure_axes _ _ _ _ _ _ _ _ ?w5] =>
    destruct (configure_axes_run ax label y_lim y_ticks
                show_legend show_title show_ylabel show_xlabel w5)
      as (conf & -> & Hon & Hmethods & Hylim & Hyticks & Hxlabels & Htitle)
  end.
  world_simpl. rewrite <- !app_assoc. cbn [app].
  eexists. split; [reflexivity|].
  split; [repeat (constructor; [done|]); exact Hon|].
  unfold methods in *. rewrite !fmap_cons, Hmethods. cbn [method snd].
  split; [apply elem_of_iff_bool;
          by destruct show_legend, show_title, show_ylabel, show_xlabel|].
  split; [apply elem_of_iff_bool;
          by destruct show_legend, show_title, show_ylabel, show_xlabel|].
  split; [apply elem_of_iff_bool;
          by destruct show_legend, show_title, show_ylabel, show_xlabel|].
  repeat split; try (intros Ht; specialize (Htitle Ht));
    by do 5 apply list_elem_of_further.
Qed.

(** X13.  [create_urban_only_events] with three series of a thousand
    samples behaves in the same way: it returns, draws on its axes
    only, and its four options and its y-axis limits and ticks decide
    the axes configuration as in the comparison panel. *)
Theorem urban_only_events_options
    w ax tm tl th COLORS label y_lim y_ticks
    (show_legend show_title show_ylabel show_xlabel : bool) :
  Forall (λ s : list Q, length s = 1000%nat) [tm; tl; th] →
  ∃ added,
    figure1_panels.create_urban_only_events
      ax tm tl th COLORS label y_lim y_ticks
      show_legend show_title show_ylabel show_xlabel w
    = (World (disk w) (arrays w) (n_axes w) (canvas w ++ added) (saved w) (stdout w),
       inr tt)
    ∧ Forall (λ c, c.1 = ax) added
    ∧ ("legend" ∈ methods added ↔ show_legend = true)
    ∧ ("set_title" ∈ methods added ↔ show_title = true)
    ∧ ("set_ylabel" ∈ methods added ↔ show_ylabel = true)
    ∧ (ax, Call "set_ylim" [APair y_lim.1 y_lim.2] []) ∈ added
    ∧ (ax, Call "set_yticks" [ANums y_ticks] []) ∈ added
    ∧ (ax, Call "set_xticklabels"
             [AStrs (if show_xlabel then ["Midday"; "Sunset"] else [])]
             (if show_xlabel then [("fontsize", ANum 9)] else [])) ∈ added
    ∧ (show_title = true →
       (ax, Call "set_title" [AStr label] [("fontsize", ANum 10); ("pad", ANum 10)])
       ∈ added).
Proof.
  intros Hlen.
  apply Forall_cons in Hlen as [Htm Hlen]. apply Forall_cons in Hlen as [Htl Hlen].
  apply Forall_cons in Hlen as [Hth _].
  rewrite create_urban_only_events_tail. cbv zeta.
  rewrite !bind_plot_xy by done. world_simpl.
  rewrite !bind_fill_between by done. world_simpl.
  rewrite bind_draw. world_simpl.
  match goal with |- context [figure1_panels.configure_axes _ _ _ _ _ _ _ _ ?w5] =>
    destruct (configure_axes_run ax label y_lim y_ticks
                show_legend show_title show_ylabel show_xlabel w5)
      as (conf & -> & Hon & Hmethods & Hylim & Hyticks & Hxlabels & Htitle)
  end.
  world_simpl. rewrite <- !app_assoc. cbn [app].
  eexists. split; [reflexivity|].
  split; [repeat (constructor; [done|]); exact Hon|].
  unfold methods in *. rewrite !fmap_cons, Hmethods. cbn [method snd].
  split; [apply elem_of_iff_bool;
          by destruct show_legend, show_title, show_ylabel, show_xlabel|].
  split; [apply elem_of_iff_bool;
          by destruct show_legend, show_title, show_ylabel, show_xlabel|].
  split; [apply elem_of_iff_bool;
          by destruct show_legend, show_title, show_ylabel, show_xlabel|].
  repeat split; try (intros Ht; specialize (Htitle Ht));
    by do 3 apply list_elem_of_further.
Qed.

(** X14.  A series of the wrong length makes
    [create_urban_rural_comparison] raise a [ValueError].  The two mean
    series have to have a thousand samples; a series of a band has to
    have a thousand samples or one (a band given by one sample is
    broadcast).  If that fails, the lines and bands drawn before the bad
    series stay on the canvas, but the axes are not configured (no
    ticks, labels, limits, title or legend), and nothing else changes. *)
Theorem urban_rural_comparison_wrong_length
    w ax um ul uh rm rl rh COLORS label y_lim y_ticks
    (show_legend show_title show_ylabel show_xlabel : bool) :
  ¬ (length um = 1000%nat ∧ length rm = 1000%nat
     ∧ Forall (λ s : list Q, length s = 1000%nat ∨ length s = 1%nat) [ul; uh; rl; rh]) →
  ∃ added,
    figure1_panels.create_urban_rural_comparison
      ax um ul uh rm rl rh COLORS label y_lim y_ticks
      show_legend show_title show_ylabel show_xlabel w
    = (World (disk w) (arrays w) (n_axes w) (canvas w ++ added) (saved w) (stdout w),
       inl Py.ValueError)
    ∧ Forall (λ m, m = "plot" ∨ m = "fill_between") (methods added)
    ∧ (length um ≠ 1000%nat → added = []).
Proof.
  intros Hbad.
  rewrite create_urban_rural_comparison_tail. cbv zeta.
  destruct (decide (length um = 1000%nat)) as [Hum|Hum].
  2:{ rewrite bind_plot_xy_mismatch by done. exists [].
      rewrite app_nil_r. by destruct w. }
  rewrite bind_plot_xy by done. world_simpl.
  destruct (decide (length rm = 1000%nat)) as [Hrm|Hrm].
  2:{ rewrite bind_plot_xy_mismatch by done. eexists. split; [reflexivity|].
      split; [repeat constructor; by left|done]. }
  rewrite bind_plot_xy by done. world_simpl.
  destruct (decide ((length ul = 1000%nat ∨ length ul = 1%nat)
                    ∧ (length uh = 1000%nat ∨ length uh = 1%nat))) as [[Hul Huh]|Hu].
  2:{ rewrite bind_fill_between_mismatch by (apply not_and_l in Hu; tauto).
      rewrite <- !app_assoc. eexists. split; [reflexivity|].
      split; [repeat constructor; by left|done]. }
  rewrite bind_fill_between_broadcast by done. world_simpl.
  destruct (decide ((length rl = 1000%nat ∨ length rl = 1%nat)
                    ∧ (length rh = 1000%nat ∨ length rh = 1%nat))) as [[Hrl Hrh]|Hr].
  2:{ rewrite bind_fill_between_mismatch by (apply not_and_l in Hr; tauto).
      rewrite <- !app_assoc. eexists. split; [reflexivity|].
      split; [|done].
      cbn. repeat (constructor; [first [by left|by right]|]). constructor. }
  exfalso. apply Hbad. split; [done|]. split; [done|].
  repeat (apply Forall_cons_2; [done|]). apply Forall_nil_2.
Qed.

(** X25.  A band given by one sample is accepted.  With mean series of
    a thousand samples and band series of a thousand samples or one
    each, [create_urban_rural_comparison] returns, and its two
    [fill_between] calls get the band series as they were given (the
    library broadcasts them). *)
Theorem urban_rural_comparison_constant_band
    w ax um ul uh rm rl rh COLORS label y_lim y_ticks
    (show_legend show_title show_ylabel show_xlabel : bool) :
  length um = 1000%nat → length rm = 1000%nat →
  Forall (λ s : list Q, length s = 1000%nat ∨ length s = 1%nat) [ul; uh; rl; rh] →
  ∃ added,
    figure1_panels.create_urban_rural_comparison
      ax um ul uh rm rl rh COLORS label y_lim y_ticks
      show_legend show_title show_ylabel show_xlabel w
    = (World (disk w) (arrays w) (n_axes w) (canvas w ++ added) (saved w) (stdout w),
       inr tt)
    ∧ (ax, Call "fill_between"
             [ANums composite_figure1.arange_1000; ANums ul; ANums uh]
             [("color", AStr (data_loader.urban COLORS)); ("alpha", ANum 0.2)]) ∈ added
    ∧ (ax, Call "fill_between"
             [ANums composite_figure1.arange_1000; ANums rl; ANums rh]
             [("color", AStr (data_loader.rural COLORS)); ("alpha", ANum 0.2)]) ∈ added.
Proof.
  intros Hum Hrm Hbands.
  apply Forall_cons in Hbands as [Hul Hbands]. apply Forall_cons in Hbands as [Huh Hbands].
  apply Forall_cons in Hbands as [Hrl Hbands]. apply Forall_cons in Hbands as [Hrh _].
  rewrite create_urban_rural_comparison_tail. cbv zeta.
  rewrite !bind_plot_xy by done. world_simpl.
  rewrite !bind_fill_between_broadcast by done. world_simpl.
  rewrite bind_draw. world_simpl.
  match goal with |- context [figure1_panels.configure_axes _ _ _ _ _ _ _ _ ?w5] =>
    destruct (configure_axes_run ax label y_lim y_ticks
                show_legend show_title show_ylabel show_xlabel w5)
      as (conf & -> & _)
  end.
  world_simpl. rewrite <- !app_assoc. cbn [app].
  eexists. split; [reflexivity|].
  split; repeat first [apply list_elem_of_here | apply list_elem_of_further].
Qed.

End temporal_panels_options.

(** ** Loading the spatial snapshots (data_loader) *)

Section spatial_snapshots.
Import Fig Spec Vocabulary.

Lemma load_year_present data_dir acc yr rows w :
  disk w !! snapshot_path data_dir yr = Some (Txt rows) →
  data_loader_files.load_year data_dir acc yr w
  = (World (disk w) (<[fresh (dom (arrays w)) := rows]> (arrays w)) (n_axes w)
       (canvas w) (saved w) (stdout w),
     inr (<[yr := fresh (dom (arrays w))]> acc)).
Proof.
  intros Hf. unfold data_loader_files.load_year,
    data_loader_files.except_FileNotFoundError, mbind, M_bind, bind, np_loadtxt.
  unfold snapshot_path in Hf. by rewrite Hf.
Qed.

Lemma load_year_missing data_dir acc yr w :
  missing w data_dir yr →
  data_loader_files.load_year data_dir acc yr w
  = (World (disk w) (arrays w) (n_axes w) (canvas w) (saved w)
       (stdout w ++ [warning yr]),
     inr acc).
Proof.
  intros Hf. unfold data_loader_files.load_year,
    data_loader_files.except_FileNotFoundError, mbind, M_bind, bind, np_loadtxt.
  unfold missing, snapshot_path in Hf. by rewrite Hf.
Qed.

Lemma load_year_not_text data_dir acc yr a w :
  disk w !! snapshot_path data_dir yr = Some (Npy a) →
  data_loader_files.load_year data_dir acc yr w = (w, inl Py.ValueError).
Proof.
  intros Hf. unfold data_loader_files.load_year,
    data_loader_files.except_FileNotFoundError, mbind, M_bind, bind, np_loadtxt.
  unfold snapshot_path in Hf. by rewrite Hf.
Qed.

(** The loop over the years, from any dict and any world. *)
Lemma load_years_loop data_dir (ys : list Z) : ∀ acc w,
  (∀ yr a, yr ∈ ys → disk w !! snapshot_path data_dir yr ≠ Some (Npy a)) →
  ∃ w' d,
    data_loader_files.for_each ys (data_loader_files.load_year data_dir) acc w
    = (w', inr d)
    ∧ disk w' = disk w ∧ n_axes w' = n_axes w
    ∧ canvas w' = canvas w ∧ saved w' = saved w
    ∧ stdout w' = stdout w ++ (warning <$> filter (missing w data_dir) ys)
    ∧ (∀ k, is_Some (arrays w !! k) → arrays w' !! k = arrays w !! k)
    ∧ (∀ yr, yr ∉ ys → d !! yr = acc !! yr)
    ∧ (∀ yr, yr ∈ ys → missing w data_dir yr → d !! yr = acc !! yr)
    ∧ (∀ yr rows, yr ∈ ys →
         disk w !! snapshot_path data_dir yr = Some (Txt rows) →
         ∃ l, d !! yr = Some l ∧ arrays w' !! l = Some rows ∧ arrays w !! l = None).
Proof.
  induction ys as [|y ys IH]; intros acc w Hnpy.
  - exists w, acc. cbn. rewrite app_nil_r.
    repeat split; try done; intros yr; try intros rows; by intros ?%elem_of_nil.
  - cbn [data_loader_files.for_each].
    destruct (disk w !! snapshot_path data_dir y) as [[a|rows]|] eqn:Hy.
    + by destruct (Hnpy y a (list_elem_of_here _ _)).
    + rewrite (bind_returns _ _ _ _ _ (load_year_present data_dir acc y rows w Hy)).
      set (l := fresh (dom (arrays w))).
      set (w1 := World (disk w) (<[l := rows]> (arrays w)) (n_axes w)
                   (canvas w) (saved w) (stdout w)).
      assert (arrays w !! l = None) as Hl by apply not_elem_of_dom, is_fresh.
      destruct (IH (<[y := l]> acc) w1) as
        (w' & d & Hrun & Hdisk & Hax & Hcanvas & Hsaved & Hout & Hold & Hout_of
         & Hmiss & Hpres).
      { intros yr a Hin. apply Hnpy. by right. }
      exists w', d. split; [exact Hrun|]. do 4 (split; [done|]).
      assert (∀ k, is_Some (arrays w !! k) → arrays w1 !! k = arrays w !! k) as Hw1.
      { intros k [x Hk]. apply lookup_insert_ne. intros ->. congruence. }
      split; [|split; [|split; [|split]]].
      * rewrite Hout. cbn [stdout w1]. f_equal. f_equal.
        rewrite filter_cons_False; [done|]. unfold missing. by rewrite Hy.
      * intros k Hk. rewrite Hold; [by apply Hw1|]. rewrite Hw1; done.
      * intros yr Hnin. apply not_elem_of_cons in Hnin as [Hne Hnin].
        rewrite (Hout_of yr Hnin). by apply lookup_insert_ne.
      * intros yr Hin Hm. apply elem_of_cons in Hin as [->|Hin].
        { unfold missing in Hm. congruence. }
        rewrite (Hmiss yr Hin Hm). apply lookup_insert_ne. intros ->.
        unfold missing in Hm. congruence.
      * intros yr rows' Hin Hf.
        destruct (decide (yr ∈ ys)) as [Hin'|Hnin].
        { destruct (Hpres yr rows' Hin' Hf) as (l' & Hd & Ha & Hnone).
          exists l'. split; [done|]. split; [done|].
          destruct (arrays w !! l') eqn:Hwl'; [|done].
          rewrite Hw1 in Hnone by eauto. congruence. }
        apply elem_of_cons in Hin as [->|Hin]; [|done].
        exists l. rewrite (Hout_of y Hnin), lookup_insert_eq.
        split; [done|]. split; [|done].
        rewrite Hold by (cbn; rewrite lookup_insert_eq; eauto).
        cbn. rewrite lookup_insert_eq. congruence.
    + rewrite (bind_returns _ _ _ _ _ (load_year_missing data_dir acc y w Hy)).
      set (w1 := World (disk w) (arrays w) (n_axes w) (canvas w) (saved w)
                   (stdout w ++ [warning y])).
      destruct (IH acc w1) as
        (w' & d & Hrun & Hdisk & Hax & Hcanvas & Hsaved & Hout & Hold & Hout_of
         & Hmiss & Hpres).
      { intros yr a Hin. apply Hnpy. by right. }
      exists w', d. split; [exact Hrun|]. do 4 (split; [done|]).
      split; [|split; [|split; [|split]]].
      * rewrite Hout. cbn [stdout w1]. rewrite <- app_assoc. f_equal.
        rewrite filter_cons_True by done. done.
      * done.
      * intros yr Hnin. apply not_elem_of_cons in Hnin as [Hne Hnin]. by apply Hout_of.
      * intros yr Hin Hm. destruct (decide (yr ∈ ys)) as [Hin'|Hnin].
        { by apply Hmiss. }
        by apply Hout_of.
      * intros yr rows' Hin Hf. apply elem_of_cons in Hin as [->|Hin].
        { congruence. }
        by apply Hpres.
Qed.

End spatial_snapshots.

Section spatial_snapshots_claims.
Import Fig Spec Vocabulary.

(** X15.  [load_spatial_data] with [year='all'] does not fail on a
    missing year.  If no snapshot path of 2001..2020 holds a binary
    array file, it returns a dict whose keys are exactly the years of
    that range that have a snapshot on disk, each bound to a new array
    that holds the rows of that year's file; the arrays that existed
    before are untouched. *)
Theorem load_all_years_skips_missing data_dir w :
  (∀ yr a, yr ∈ years → disk w !! snapshot_path data_dir yr ≠ Some (Npy a)) →
  ∃ w' d,
    data_loader_files.load_spatial_data data_dir (inl "all") w = (w', inr (inl d))
    ∧ (∀ yr l, d !! yr = Some l →
         (2001 ≤ yr ≤ 2020)%Z
         ∧ ∃ rows, disk w !! snapshot_path data_dir yr = Some (Txt rows)
                   ∧ arrays w' !! l = Some rows ∧ arrays w !! l = None)
    ∧ (∀ yr rows, (2001 ≤ yr ≤ 2020)%Z →
         disk w !! snapshot_path data_dir yr = Some (Txt rows) →
         ∃ l, d !! yr = Some l ∧ arrays w' !! l = Some rows)
    ∧ (∀ yr, missing w data_dir yr → d !! yr = None)
    ∧ (∀ k, is_Some (arrays w !! k) → arrays w' !! k = arrays w !! k).
Proof.
  intros Hnpy.
  destruct (load_years_loop data_dir years ∅ w Hnpy) as
    (w' & d & Hrun & _ & _ & _ & _ & _ & Hold & Hout_of & Hmiss & Hpres).
  exists w', d. split.
  { unfold data_loader_files.load_spatial_data. cbn [data_loader_files.is_all].
    change (String.eqb "all" "all") with true. cbv iota.
    fold years. by rewrite (bind_returns _ _ _ _ _ Hrun). }
  assert (∀ yr, yr ∈ years ↔ (2001 ≤ yr ≤ 2020)%Z) as Hyears.
  { intros yr. unfold years. rewrite elem_of_seqZ. lia. }
  split; [|split; [|split; [|done]]].
  - intros yr l Hd.
    destruct (decide (yr ∈ years)) as [Hin|Hnin].
    2:{ rewrite (Hout_of yr Hnin) in Hd. by rewrite lookup_empty in Hd. }
    split; [by apply Hyears|].
    destruct (disk w !! snapshot_path data_dir yr) as [[a|rows]|] eqn:Hf.
    + by destruct (Hnpy yr a Hin).
    + destruct (Hpres yr rows Hin Hf) as (l' & Hd' & Ha & Hnone).
      exists rows. split; [done|]. by simplify_eq.
    + rewrite (Hmiss yr Hin Hf) in Hd. by rewrite lookup_empty in Hd.
  - intros yr rows Hyr Hf. apply Hyears in Hyr.
    destruct (Hpres yr rows Hyr Hf) as (l & Hd & Ha & _). eauto.
  - intros yr Hm. destruct (decide (yr ∈ years)) as [Hin|Hnin].
    + by rewrite (Hmiss yr Hin Hm), lookup_empty.
    + by rewrite (Hout_of yr Hnin), lookup_empty.
Qed.

(** X16.  With [year='all'], [load_spatial_data] prints one warning for
    each year of 2001..2020 without a snapshot, in the order of the
    years, and nothing else; it draws nothing, saves nothing and leaves
    the disk as it was. *)
Theorem load_all_years_warnings data_dir w :
  (∀ yr a, yr ∈ years → disk w !! snapshot_path data_dir yr ≠ Some (Npy a)) →
  ∃ w' d,
    data_loader_files.load_spatial_data data_dir (inl "all") w = (w', inr (inl d))
    ∧ stdout w' = stdout w ++ (warning <$> filter (missing w data_dir) years)
    ∧ disk w' = disk w ∧ n_axes w' = n_axes w
    ∧ canvas w' = canvas w ∧ saved w' = saved w.
Proof.
  intros Hnpy.
  destruct (load_years_loop data_dir years ∅ w Hnpy) as
    (w' & d & Hrun & Hdisk & Hax & Hcanvas & Hsaved & Hout & _).
  exists w', d. split; [|done].
  unfold data_loader_files.load_spatial_data. cbn [data_loader_files.is_all].
  change (String.eqb "all" "all") with true. cbv iota.
  fold years. by rewrite (bind_returns _ _ _ _ _ Hrun).
Qed.

(** X17.  Asked for one year, [load_spatial_data] does fail on a missing
    snapshot: it raises [FileNotFoundError], prints no warning and
    changes nothing.  If the snapshot is there, it returns a new array
    with the rows of the file. *)
Theorem load_one_year data_dir (year : Z) w :
  match disk w !! snapshot_path data_dir year with
  | None =>
      data_loader_files.load_spatial_data data_dir (inr year) w
      = (w, inl Py.FileNotFoundError)
  | Some (Txt rows) =>
      ∃ w' l,
        data_loader_files.load_spatial_data data_dir (inr year) w = (w', inr (inr l))
        ∧ arrays w !! l = None ∧ arrays w' = <[l := rows]> (arrays w)
        ∧ stdout w' = stdout w ∧ disk w' = disk w
  | Some (Npy _) =>
      data_loader_files.load_spatial_data data_dir (inr year) w
      = (w, inl Py.ValueError)
  end.
Proof.
  unfold data_loader_files.load_spatial_data. cbn [data_loader_files.is_all].
  cbv iota. unfold mbind, M_bind, bind, np_loadtxt.
  change (data_dir +:+ "/spa_" +:+ data_loader_files.str_of_year (inr year) +:+ ".txt")
    with (snapshot_path data_dir year).
  destruct (disk w !! snapshot_path data_dir year) as [[a|rows]|]; [done| |done].
  eexists _, _. split; [reflexivity|]. cbn.
  split; [apply not_elem_of_dom, is_fresh|done].
Qed.

End spatial_snapshots_claims.

(** ** Loading the intensity profiles (data_loader) *)

Section intensity_profiles.
Import Fig Spec Vocabulary.

Lemma bind_np_load_cases {A} path (k : list Q → M A) w :
  (np_load path ≫= k) w
  = match disk w !! path with
    | Some (Npy a) => k a w
    | Some (Txt _) => (w, inl Py.ValueError)
    | None => (w, inl Py.FileNotFoundError)
    end.
Proof.
  unfold mbind, M_bind, bind, np_load.
  by destruct (disk w !! path) as [[a|rows]|].
Qed.

(** The dict of one intensity, from the content of the nine files. *)
Lemma load_intensity_returns data_dir suffix (content : string → string → list Q) w :
  (∀ domain stat, domain ∈ domains → stat ∈ stats →
     disk w !! series_path data_dir domain suffix stat
     = Some (Npy (content domain stat))) →
  ∃ entry,
    data_loader_files.load_intensity data_dir suffix w = (w, inr entry)
    ∧ ∀ domain stat, domain ∈ domains → stat ∈ stats →
        stat_of entry domain stat = Some (content domain stat).
Proof.
  intros Hfiles.
  assert (∀ domain stat, bool_decide (domain ∈ domains) = true →
            bool_decide (stat ∈ stats) = true →
            disk w !! series_path data_dir domain suffix stat
            = Some (Npy (content domain stat))) as Hf.
  { intros domain stat Hd%bool_decide_eq_true Hs%bool_decide_eq_true. by apply Hfiles. }
  unfold data_loader_files.load_intensity.
  erewrite bind_np_load by exact (Hf "urban" "mean" eq_refl eq_refl).
  erewrite bind_np_load by exact (Hf "urban" "low" eq_refl eq_refl).
  erewrite bind_np_load by exact (Hf "urban" "high" eq_refl eq_refl).
  erewrite bind_np_load by exact (Hf "rural" "mean" eq_refl eq_refl).
  erewrite bind_np_load by exact (Hf "rural" "low" eq_refl eq_refl).
  erewrite bind_np_load by exact (Hf "rural" "high" eq_refl eq_refl).
  erewrite bind_np_load by exact (Hf "turban" "mean" eq_refl eq_refl).
  erewrite bind_np_load by exact (Hf "turban" "low" eq_refl eq_refl).
  erewrite bind_np_load by exact (Hf "turban" "high" eq_refl eq_refl).
  eexists. split; [reflexivity|].
  intros domain stat Hd Hs. unfold domains, stats in Hd, Hs.
  repeat (apply elem_of_cons in Hd as [->|Hd]);
    try (by apply elem_of_nil in Hd);
    repeat (apply elem_of_cons in Hs as [->|Hs]);
    try (by apply elem_of_nil in Hs); reflexivity.
Qed.

(** X18.  The naming convention of [load_temporal_data].  If the data
    directory holds, for each of the suffixes 02_05, 05_1 and 1, each
    domain (urban, rural, turban) and each statistic (mean, low, high),
    the file [{data_dir}/{domain}_{suffix}_{stat}.npy], the function
    returns without changing anything, and in the nested dict it
    returns, [data[name][domain][stat]] is the content of the file of
    the suffix that goes with [name] (low: 02_05, moderate: 05_1, other:
    1). *)
Theorem load_temporal_data_by_name data_dir
    (content : string → string → string → list Q) w :
  (∀ suffix domain stat,
     suffix ∈ data_loader_files.intensities.*2 → domain ∈ domains → stat ∈ stats →
     disk w !! series_path data_dir domain suffix stat
     = Some (Npy (content suffix domain stat))) →
  ∃ data,
    data_loader_files.load_temporal_data data_dir w = (w, inr data)
    ∧ dom data = {["low"; "moderate"; "other"]}
    ∧ ∀ name suffix domain stat,
        (name, suffix) ∈ data_loader_files.intensities →
        domain ∈ domains → stat ∈ stats →
        series_of data name domain stat = Some (content suffix domain stat).
Proof.
  intros Hfiles.
  assert (∀ suffix, bool_decide (suffix ∈ data_loader_files.intensities.*2) = true →
            ∃ entry,
              data_loader_files.load_intensity data_dir suffix w = (w, inr entry)
              ∧ ∀ domain stat, domain ∈ domains → stat ∈ stats →
                  stat_of entry domain stat
                  = Some (content suffix domain stat)) as Hload.
  { intros suffix Hs%bool_decide_eq_true.
    apply (load_intensity_returns data_dir suffix (content suffix)).
    intros domain stat Hd Hst. by apply Hfiles. }
  destruct (Hload "02_05" eq_refl) as (e1 & Hrun1 & He1).
  destruct (Hload "05_1" eq_refl) as (e2 & Hrun2 & He2).
  destruct (Hload "1" eq_refl) as (e3 & Hrun3 & He3).
  unfold data_loader_files.load_temporal_data, data_loader_files.intensities.
  cbn [data_loader_files.for_each].
  rewrite !bind_assoc, (bind_returns _ _ _ _ _ Hrun1), !bind_ret.
  rewrite !bind_assoc, (bind_returns _ _ _ _ _ Hrun2), !bind_ret.
  rewrite !bind_assoc, (bind_returns _ _ _ _ _ Hrun3), !bind_ret.
  eexists. split; [reflexivity|]. split.
  { rewrite !dom_insert_L, dom_empty_L. set_solver. }
  intros name suffix domain stat Hin Hd Hs. unfold series_of.
  repeat (apply elem_of_cons in Hin as [[= -> ->]|Hin]).
  - rewrite lookup_insert_ne, lookup_insert_ne, lookup_insert_eq by done.
    by apply He1.
  - rewrite lookup_insert_ne, lookup_insert_eq by done. by apply He2.
  - rewrite lookup_insert_eq. by apply He3.
  - by apply elem_of_nil in Hin.
Qed.

End intensity_profiles.

Section intensity_profiles_missing.
Import Fig Spec Vocabulary.

Ltac series_file_at domain stat H :=
  exists domain, stat; eexists;
  split; [apply (bool_decide_unpack _); vm_compute; exact I|];
  split; [apply (bool_decide_unpack _); vm_compute; exact I|exact H].

Ltac series_file H :=
  first
    [ series_file_at "urban" "mean" H | series_file_at "urban" "low" H
    | series_file_at "urban" "high" H | series_file_at "rural" "mean" H
    | series_file_at "rural" "low" H | series_file_at "rural" "high" H
    | series_file_at "turban" "mean" H | series_file_at "turban" "low" H
    | series_file_at "turban" "high" H ].

(** [load_intensity] reads and changes nothing; it returns only if all
    nine files are there. *)
Lemma load_intensity_inv data_dir suffix w :
  ∃ r,
    data_loader_files.load_intensity data_dir suffix w = (w, r)
    ∧ match r with
      | inr _ =>
          ∀ domain stat, domain ∈ domains → stat ∈ stats →
            ∃ a, disk w !! series_path data_dir domain suffix stat = Some (Npy a)
      | inl e =>
          e = Py.FileNotFoundError
          ∨ (e = Py.ValueError ∧ text_in_profile w data_dir suffix)
      end.
Proof.
  unfold data_loader_files.load_intensity.
  do 9 (rewrite bind_np_load_cases;
        match goal with
        | |- context [disk w !! ?p] =>
            let H := fresh "Hfile" in
            destruct (disk w !! p) as [[?|?]|] eqn:H;
            [ | eexists; split; [reflexivity|]; right; split; [done|]; series_file H
              | eexists; split; [reflexivity|]; by left ]
        end).
  eexists. split; [reflexivity|].
  intros domain stat Hd Hs. unfold domains, stats in Hd, Hs.
  repeat (apply elem_of_cons in Hd as [->|Hd]);
    try (by apply elem_of_nil in Hd);
    repeat (apply elem_of_cons in Hs as [->|Hs]);
    try (by apply elem_of_nil in Hs);
    eexists;
    match goal with H : disk w !! _ = Some (Npy _) |- _ => exact H end.
Qed.

End intensity_profiles_missing.

Section intensity_profiles_fatal.
Import Fig Spec Vocabulary.

Lemma bind_raises {A B} (m : M A) (k : A → M B) w w1 e :
  m w = (w1, inl e) → (m ≫= k) w = (w1, inl e).
Proof. intros Hm. unfold mbind, M_bind, bind. by rewrite Hm. Qed.

Lemma load_temporal_data_inv data_dir w :
  ∃ r,
    data_loader_files.load_temporal_data data_dir w = (w, r)
    ∧ match r with
      | inr _ =>
          ∀ suffix domain stat,
            suffix ∈ data_loader_files.intensities.*2 →
            domain ∈ domains → stat ∈ stats →
            ∃ a, disk w !! series_path data_dir domain suffix stat = Some (Npy a)
      | inl e =>
          e = Py.FileNotFoundError
          ∨ (e = Py.ValueError
             ∧ ∃ suffix, suffix ∈ data_loader_files.intensities.*2
                         ∧ text_in_profile w data_dir suffix)
      end.
Proof.
  unfold data_loader_files.load_temporal_data, data_loader_files.intensities.
  cbn [data_loader_files.for_each].
  rewrite !bind_assoc.
  destruct (load_intensity_inv data_dir "02_05" w) as ([e|e1] & Hrun1 & H1).
  { rewrite (bind_raises _ _ _ _ _ Hrun1). eexists. split; [reflexivity|].
    destruct H1 as [->|[-> Ht]]; [by left|right]. split; [done|].
    exists "02_05". split; [|done]. apply (bool_decide_unpack _). vm_compute. exact I. }
  rewrite (bind_returns _ _ _ _ _ Hrun1), !bind_ret, !bind_assoc.
  destruct (load_intensity_inv data_dir "05_1" w) as ([e|e2] & Hrun2 & H2).
  { rewrite (bind_raises _ _ _ _ _ Hrun2). eexists. split; [reflexivity|].
    destruct H2 as [->|[-> Ht]]; [by left|right]. split; [done|].
    exists "05_1". split; [|done]. apply (bool_decide_unpack _). vm_compute. exact I. }
  rewrite (bind_returns _ _ _ _ _ Hrun2), !bind_ret, !bind_assoc.
  destruct (load_intensity_inv data_dir "1" w) as ([e|e3] & Hrun3 & H3).
  { rewrite (bind_raises _ _ _ _ _ Hrun3). eexists. split; [reflexivity|].
    destruct H3 as [->|[-> Ht]]; [by left|right]. split; [done|].
    exists "1". split; [|done]. apply (bool_decide_unpack _). vm_compute. exact I. }
  rewrite (bind_returns _ _ _ _ _ Hrun3), !bind_ret.
  eexists. split; [reflexivity|].
  intros suffix domain stat Hs Hd Hst. cbn in Hs.
  repeat (apply elem_of_cons in Hs as [->|Hs]); [by apply H1|by apply H2|by apply H3|].
  by apply elem_of_nil in Hs.
Qed.

(** X19.  For [load_temporal_data] a missing file is fatal.  If one of
    the 27 files of the naming convention is missing, the function
    raises and returns no data, and it changes nothing.  The exception
    is [FileNotFoundError], unless a file of the convention that is
    loaded earlier holds a text table, which is a [ValueError]. *)
Theorem load_temporal_data_missing_file data_dir w suffix domain stat :
  suffix ∈ data_loader_files.intensities.*2 → domain ∈ domains → stat ∈ stats →
  disk w !! series_path data_dir domain suffix stat = None →
  ∃ e,
    data_loader_files.load_temporal_data data_dir w = (w, inl e)
    ∧ (e = Py.FileNotFoundError
       ∨ (e = Py.ValueError
          ∧ ∃ suffix', suffix' ∈ data_loader_files.intensities.*2
                       ∧ text_in_profile w data_dir suffix')).
Proof.
  intros Hs Hd Hst Hnone.
  destruct (load_temporal_data_inv data_dir w) as ([e|data] & Hrun & Hr).
  - by exists e.
  - destruct (Hr suffix domain stat Hs Hd Hst) as [a Ha]. congruence.
Qed.

End intensity_profiles_fatal.

(** ** The driver: paths and failures *)

Section replace_more.

Lemma replace_no_occurrence (s : string) :
  Py.contains ".pdf" s = false → Py.str_replace s ".pdf" ".png" = s.
Proof.
  unfold Py.str_replace. induction s as [|c s IH]; [done|].
  intros Hc. cbn [Py.contains] in Hc.
  destruct (String.prefix ".pdf" (String c s)) eqn:Hp; [done|].
  cbn [Py.replace_from]. rewrite Hp. f_equal. by apply IH.
Qed.

Lemma prefix_pdf_inv (s : string) :
  String.prefix ".pdf" s = true → ∃ s', s = ".pdf" +:+ s'.
Proof.
  destruct s as [|c1 [|c2 [|c3 [|c4 s]]]]; cbn [String.prefix];
    repeat (match goal with
            | |- context [ascii_dec ?a ?b] =>
                destruct (ascii_dec a b) as [e|]; [try discriminate e; subst|done]
            end; cbn [String.prefix]); try done.
  intros _. by exists s.
Qed.

Lemma replace_inner_occurrence (base : string) :
  Py.contains ".pdf" base = true →
  Py.str_replace (base +:+ ".pdf") ".pdf" ".png" ≠ base +:+ ".png".
Proof.
  unfold Py.str_replace. induction base as [|c base IH]; [done|].
  intros Hc. cbn [Py.contains] in Hc.
  destruct (String.prefix ".pdf" (String c base)) eqn:Hp.
  - apply prefix_pdf_inv in Hp as [s' ->].
    change ((".pdf" +:+ s') +:+ ".pdf") with (".pdf" +:+ (s' +:+ ".pdf")).
    change ((".pdf" +:+ s') +:+ ".png") with (".pdf" +:+ (s' +:+ ".png")).
    destruct (s' +:+ ".pdf"); intros [=].
  - rewrite !append_cons. cbn [Py.replace_from].
    rewrite <- append_cons, (prefix_pdf_append _ _ Hp).
    intros [= Heq]. by apply IH.
Qed.

End replace_more.

Section driver_paths.
Context `{!float.Rounding, !np.Argsort, !Fig.Savefig}.
Import Fig Spec Vocabulary.

(** X20.  Given an output path without [.pdf] in it that [savefig]
    accepts, the driver (with its input files in place) returns and has
    saved to that same path twice: [png_path] is the output path itself,
    the second save goes to the file of the first, and no other path is
    saved to. *)
Theorem composite_figure_same_path_twice w data rows output_path :
  inputs_ready w data rows → Py.contains ".pdf" output_path = false →
  savefig_error output_path = None →
  Py.str_replace output_path ".pdf" ".png" = output_path
  ∧ ∃ w',
      composite_figure1.create_composite_figure output_path w = (w', inr tt)
      ∧ saved w' = saved w ++ [output_path; output_path].
Proof.
  intros Hin Hpath Hok.
  pose proof (replace_no_occurrence output_path Hpath) as Hsame.
  split; [done|].
  destruct (create_composite_figure_returns w data rows output_path Hin Hok)
    as (w' & Hrun & Hsaved); [by rewrite Hsame|].
  exists w'. split; [done|]. by rewrite Hsaved, Hsame.
Qed.

(** X21.  [str.replace] changes every [.pdf], not only the extension.
    Given an output path [base.pdf] whose base has a [.pdf] in it (a
    directory named so, say), the second path of the driver is not
    [base.png]; if [savefig] accepts both paths (the directory of the
    second one exists), the driver returns with the PDF saved under the
    path given and the second file saved elsewhere. *)
Theorem composite_figure_png_elsewhere w data rows base :
  inputs_ready w data rows → Py.contains ".pdf" base = true →
  savefig_error (base +:+ ".pdf") = None →
  savefig_error (Py.str_replace (base +:+ ".pdf") ".pdf" ".png") = None →
  ∃ w' png_path,
    composite_figure1.create_composite_figure (base +:+ ".pdf") w = (w', inr tt)
    ∧ saved w' = saved w ++ [base +:+ ".pdf"; png_path]
    ∧ png_path = Py.str_replace (base +:+ ".pdf") ".pdf" ".png"
    ∧ png_path ≠ base +:+ ".png".
Proof.
  intros Hin Hbase Hpdf Hpng.
  destruct (create_composite_figure_returns w data rows (base +:+ ".pdf") Hin Hpdf Hpng)
    as (w' & Hrun & Hsaved).
  exists w', (Py.str_replace (base +:+ ".pdf") ".pdf" ".png").
  split; [done|]. split; [done|]. split; [done|]. by apply replace_inner_occurrence.
Qed.

End driver_paths.

Section saved_paths.
Import Fig Spec Vocabulary.

Lemma keeps_saved_bind {A B} (m : M A) (k : A → M B) :
  keeps_saved m → (∀ a, keeps_saved (k a)) → keeps_saved (m ≫= k).
Proof.
  intros Hm Hk w. unfold mbind, M_bind, bind.
  specialize (Hm w). destruct (m w) as [w1 [e|a]]; [done|].
  cbn in Hm. rewrite <- Hm. apply Hk.
Qed.

Lemma keeps_saved_ret {A} (a : A) : keeps_saved (mret a).
Proof. by intros w. Qed.

Lemma keeps_saved_raise {A} e : keeps_saved (raise e : M A).
Proof. by intros w. Qed.

Lemma keeps_saved_deref l : keeps_saved (deref l).
Proof. intros w. unfold deref. by destruct (arrays w !! l). Qed.

Lemma keeps_saved_alloc a : keeps_saved (alloc a).
Proof. by intros w. Qed.

Lemma keeps_saved_draw ax c : keeps_saved (draw ax c).
Proof. by intros w. Qed.

Lemma keeps_saved_print line : keeps_saved (print line).
Proof. by intros w. Qed.

Lemma keeps_saved_add_subplot : keeps_saved add_subplot.
Proof. by intros w. Qed.

Lemma keeps_saved_np_load path : keeps_saved (np_load path).
Proof. intros w. unfold np_load. by destruct (disk w !! path) as [[a|rows]|]. Qed.

Lemma keeps_saved_np_loadtxt path : keeps_saved (np_loadtxt path).
Proof. intros w. unfold np_loadtxt. by destruct (disk w !! path) as [[a|rows]|]. Qed.

Lemma keeps_saved_index_rows l idx : keeps_saved (index_rows l idx).
Proof.
  unfold index_rows. apply keeps_saved_bind; [apply keeps_saved_deref|].
  intros rows. destruct (np.index_rows rows idx);
    [apply keeps_saved_alloc|apply keeps_saved_raise].
Qed.

Lemma keeps_saved_len l : keeps_saved (len l).
Proof.
  unfold len. apply keeps_saved_bind; [apply keeps_saved_deref|].
  intros rows. apply keeps_saved_ret.
Qed.

Lemma keeps_saved_truediv `{!float.Rounding} x y : keeps_saved (truediv x y).
Proof. destruct y; [apply keeps_saved_raise|apply keeps_saved_ret]. Qed.

Lemma keeps_saved_item a i : keeps_saved (item a i).
Proof. unfold item. destruct (a !! i); [apply keeps_saved_ret|apply keeps_saved_raise]. Qed.

Lemma keeps_saved_plot_xy ax x y kw : keeps_saved (composite_figure1.plot_xy ax x y kw).
Proof.
  unfold composite_figure1.plot_xy.
  destruct (Nat.eqb _ _); [apply keeps_saved_draw|apply keeps_saved_raise].
Qed.

Lemma keeps_saved_fill_between ax x y1 y2 kw :
  keeps_saved (composite_figure1.fill_between ax x y1 y2 kw).
Proof.
  unfold composite_figure1.fill_between.
  destruct (composite_figure1.broadcastable _);
    [apply keeps_saved_draw|apply keeps_saved_raise].
Qed.

End saved_paths.

Ltac keeps_saved_step :=
  first
    [ apply keeps_saved_bind; [|intros ?]
    | apply keeps_saved_ret | apply keeps_saved_raise | apply keeps_saved_deref
    | apply keeps_saved_alloc | apply keeps_saved_draw | apply keeps_saved_print
    | apply keeps_saved_add_subplot | apply keeps_saved_np_load
    | apply keeps_saved_np_loadtxt | apply keeps_saved_index_rows
    | apply keeps_saved_len | apply keeps_saved_truediv | apply keeps_saved_item
    | apply keeps_saved_plot_xy | apply keeps_saved_fill_between
    | match goal with
      | |- Vocabulary.keeps_saved (match ?x with _ => _ end) => destruct x
      end ].

Section driver_failures.
Context `{!float.Rounding, !np.Argsort, !Fig.Savefig}.
Import Fig Spec Vocabulary.

Lemma keeps_saved_load_temporal_data data_dir :
  keeps_saved (composite_figure1.load_temporal_data data_dir).
Proof. unfold composite_figure1.load_temporal_data. repeat keeps_saved_step. Qed.

Lemma keeps_saved_load_spatial_data year data_dir :
  keeps_saved (composite_figure1.load_spatial_data year data_dir).
Proof. unfold composite_figure1.load_spatial_data. repeat keeps_saved_step. Qed.

Lemma keeps_saved_plot_global_map ax l :
  keeps_saved (composite_figure1.plot_global_map ax l).
Proof.
  unfold composite_figure1.plot_global_map, composite_figure1.add_map_legend.
  repeat keeps_saved_step.
Qed.

Lemma keeps_saved_plot_temporal_comparison ax data :
  keeps_saved (composite_figure1.plot_temporal_comparison ax data).
Proof.
  unfold composite_figure1.plot_temporal_comparison. cbv zeta.
  repeat keeps_saved_step.
Qed.

Lemma keeps_saved_plot_urban_only ax data :
  keeps_saved (composite_figure1.plot_urban_only ax data).
Proof.
  unfold composite_figure1.plot_urban_only. cbv zeta. repeat keeps_saved_step.
Qed.

Lemma saves_pair_bind {A B} pdf png (m : M A) (k : A → M B) :
  keeps_saved m → (∀ a, saves_pair pdf png (k a)) → saves_pair pdf png (m ≫= k).
Proof.
  intros Hm Hk w. unfold mbind, M_bind, bind.
  specialize (Hm w). destruct (m w) as [w1 [e|a]]; [by left|].
  cbn in Hm. specialize (Hk a w1). rewrite Hm in Hk. exact Hk.
Qed.

(** The last lines of the driver: the two [savefig] calls and the three
    messages. *)
Lemma saves_pair_savefig pdf png (rest : M unit) :
  (∀ w, ∃ w', rest w = (w', inr tt) ∧ saved w' = saved w) →
  saves_pair pdf png (savefig pdf;; savefig png;; rest).
Proof.
  intros Hrest w.
  destruct (savefig_error pdf) as [e|] eqn:Hpdf.
  { rewrite (bind_savefig_error _ _ _ _ Hpdf). by left. }
  rewrite (bind_savefig _ _ _ Hpdf).
  destruct (savefig_error png) as [e|] eqn:Hpng.
  { rewrite (bind_savefig_error _ _ _ _ Hpng). right. by world_simpl. }
  rewrite (bind_savefig _ _ _ Hpng). world_simpl.
  match goal with |- context [rest ?w2] =>
    destruct (Hrest w2) as (w' & -> & ->) end.
  world_simpl. by rewrite <- app_assoc.
Qed.

(** X22.  The figures saved by one run of the driver, for every world,
    every output path and every behaviour of [savefig].  The paths saved
    to are none, or the output path, or the output path and then
    [png_path] (the output path with every [.pdf] replaced by [.png]):
    no other path is saved to.  A run that returns has saved to both.
    The output path alone is left only when [savefig] refused
    [png_path], and then the run raises that exception.  If [savefig]
    refuses the output path, nothing is saved. *)
Theorem composite_figure_files_by_outcome output_path w :
  ∃ w' r paths,
    composite_figure1.create_composite_figure output_path w = (w', r)
    ∧ saved w' = saved w ++ paths
    ∧ (paths = [] ∨ paths = [output_path]
       ∨ paths = [output_path; Py.str_replace output_path ".pdf" ".png"])
    ∧ (∀ u, r = inr u →
         paths = [output_path; Py.str_replace output_path ".pdf" ".png"])
    ∧ (paths = [output_path] →
         ∃ e, r = inl e
              ∧ savefig_error (Py.str_replace output_path ".pdf" ".png") = Some e)
    ∧ (∀ e, savefig_error output_path = Some e → paths = []).
Proof.
  assert (saves_pair output_path (Py.str_replace output_path ".pdf" ".png")
            (composite_figure1.create_composite_figure output_path)) as Hpair.
  { unfold composite_figure1.create_composite_figure.
    apply saves_pair_bind; [apply keeps_saved_print|intros _].
    apply saves_pair_bind; [apply keeps_saved_load_temporal_data|intros data].
    apply saves_pair_bind; [apply keeps_saved_load_spatial_data|intros l].
    apply saves_pair_bind; [apply keeps_saved_print|intros _].
    do 3 (apply saves_pair_bind; [apply keeps_saved_add_subplot|intros ?]).
    apply saves_pair_bind; [apply keeps_saved_print|intros _].
    apply saves_pair_bind; [apply keeps_saved_plot_global_map|intros _].
    apply saves_pair_bind; [apply keeps_saved_print|intros _].
    apply saves_pair_bind; [apply keeps_saved_plot_temporal_comparison|intros _].
    apply saves_pair_bind; [apply keeps_saved_print|intros _].
    apply saves_pair_bind; [apply keeps_saved_plot_urban_only|intros _].
    do 3 (apply saves_pair_bind; [apply keeps_saved_draw|intros _]).
    apply saves_pair_bind; [apply keeps_saved_print|intros _].
    cbv zeta. apply saves_pair_savefig.
    intros w1. rewrite !bind_print. world_simpl. unfold print. world_simpl.
    by eexists. }
  specialize (Hpair w).
  destruct (composite_figure1.create_composite_figure output_path w) as [w' [e|[]]].
  - destruct Hpair as [Hsame|(Hone & Hpdf & Hpng)].
    + exists w', (inl e), []. rewrite app_nil_r.
      split; [done|]. split; [done|]. split; [by left|].
      split; [done|]. split; [done|]. done.
    + exists w', (inl e), [output_path].
      split; [done|]. split; [done|]. split; [right; by left|].
      split; [done|]. split; [by exists e|].
      intros e' He'. congruence.
  - destruct Hpair as (Hboth & Hpdf & Hpng).
    exists w', (inr tt), [output_path; Py.str_replace output_path ".pdf" ".png"].
    split; [done|]. split; [done|]. split; [right; by right|].
    split; [done|]. split; [done|].
    intros e' He'. congruence.
Qed.

End driver_failures.

(** ** The midday peak of the urban-only panel *)

Section midday_peak.
Import Fig Spec Vocabulary.
Local Open Scope Q_scope.

Lemma argmax_from_spec a : ∀ best besti i,
  ∃ v,
    ((np.argmax_from best besti i a = besti ∧ v = best)
     ∨ ∃ j, np.argmax_from best besti i a = (i + j)%nat ∧ a !! j = Some v)
    ∧ best <= v ∧ Forall (λ x, x <= v) a.
Proof.
  induction a as [|x a IH]; intros best besti i; cbn [np.argmax_from].
  - exists best. split; [by left|]. split; [apply Qle_refl|constructor].
  - destruct (Qlt_le_dec best x) as [Hlt|Hle].
    + destruct (IH x i (S i)) as (v & Hv & Hxv & Hall).
      exists v. split; [|split; [lra|by constructor]]. right.
      destruct Hv as [[-> ->]|(j & -> & Hj)].
      * exists 0%nat. split; [lia|done].
      * exists (S j). split; [lia|done].
    + destruct (IH best besti (S i)) as (v & Hv & Hbv & Hall).
      exists v. split; [|split; [done|constructor; [lra|done]]].
      destruct Hv as [[-> ->]|(j & -> & Hj)]; [by left|right].
      exists (S j). split; [lia|done].
Qed.

(** [np.argmax] gives the position of a largest element. *)
Lemma argmax_spec a i :
  np.argmax a = Some i → ∃ v, a !! i = Some v ∧ Forall (λ x, x <= v) a.
Proof.
  destruct a as [|x a]; [done|]. intros [= <-].
  destruct (argmax_from_spec a x 0%nat 1%nat) as (v & Hv & Hxv & Hall).
  exists v. split; [|by constructor].
  destruct Hv as [[-> ->]|(j & -> & Hj)]; done.
Qed.

Lemma slice_lookup (a : list Q) (lo hi i : nat) :
  (i < hi - lo)%nat → np.slice lo hi a !! i = a !! (lo + i)%nat.
Proof.
  intros Hi. unfold np.slice.
  change (List.firstn (hi - lo) (List.skipn lo a)) with (take (hi - lo) (drop lo a)).
  rewrite lookup_take_lt by done. apply lookup_drop.
Qed.

(** X23.  [plot_urban_only] marks the midday peak of the urban-only
    series inside the window of samples 400..499: with series of a
    thousand samples the panel returns, one of its calls is a round
    marker at a position of that window and at the value of the series
    there, and no sample of the window is larger than that value.  The
    other marker is at sample 856, the sunset. *)
Theorem urban_only_midday_peak w ax (data : composite_figure1.temporal) :
  length (composite_figure1.turban_mean data) = 1000%nat →
  length (composite_figure1.turban_low data) = 1000%nat →
  length (composite_figure1.turban_high data) = 1000%nat →
  ∃ added i peak sunset marker_kw,
    composite_figure1.plot_urban_only ax data w
    = (World (disk w) (arrays w) (n_axes w) (canvas w ++ added) (saved w) (stdout w),
       inr tt)
    ∧ (ax, Call "plot" [ANum (inject_Z (Z.of_nat i)); ANum peak; AStr "o"] marker_kw)
      ∈ added
    ∧ (400 ≤ i < 500)%nat
    ∧ composite_figure1.turban_mean data !! i = Some peak
    ∧ (∀ j x, (400 ≤ j < 500)%nat →
         composite_figure1.turban_mean data !! j = Some x → x <= peak)
    ∧ (ax, Call "plot" [ANum (inject_Z (Z.of_nat 856)); ANum sunset; AStr "o"] marker_kw)
      ∈ added
    ∧ composite_figure1.turban_mean data !! 856%nat = Some sunset.
Proof.
  intros Htm Htl Hth.
  set (window := np.slice 400 500 (composite_figure1.turban_mean data)).
  assert (length window = 100%nat) as Hwin by (by apply length_slice_400_500).
  destruct (argmax_is_Some window) as (i & Hi & Hlt).
  { intros Hnil. by rewrite Hnil in Hwin. }
  rewrite Hwin in Hlt.
  destruct (argmax_spec window i Hi) as (peak & Hpeak & Hmax).
  unfold window in Hpeak. rewrite slice_lookup in Hpeak by lia.
  replace (400 + i)%nat with (i + 400)%nat in Hpeak by lia.
  destruct (lookup_lt_is_Some_2 (composite_figure1.turban_mean data) 856)
    as [sunset Hsunset]; [lia|].
  unfold composite_figure1.plot_urban_only. cbv zeta.
  rewrite !bind_plot_xy by done. world_simpl.
  rewrite !bind_fill_between by done. world_simpl.
  run_draws. fold window. rewrite Hi. rewrite bind_ret.
  rewrite (bind_item _ _ _ _ _ Hpeak). run_draws.
  rewrite (bind_item _ _ _ _ _ Hsunset). run_draws.
  unfold draw. world_simpl. rewrite <- !app_assoc. cbn [app].
  eexists _, (i + 400)%nat, peak, sunset, _. split; [reflexivity|].
  split; [repeat first [apply list_elem_of_here | apply list_elem_of_further]|].
  split; [lia|]. split; [done|]. split.
  - intros j x Hj Hx.
    rewrite List.Forall_forall in Hmax. apply Hmax.
    apply list_elem_of_In, list_elem_of_lookup. exists (j - 400)%nat.
    unfold window. rewrite slice_lookup by lia.
    by replace (400 + (j - 400))%nat with j by lia.
  - split; [|done].
    repeat first [apply list_elem_of_here | apply list_elem_of_further].
Qed.

End midday_peak.

(** ** The further properties at sample inputs *)

Section more_samples.
Import Fig Spec Vocabulary.
Local Open Scope Q_scope.

Lemma drawn_categories_ascend_witness :
  ∃ w' pct,
    figure1_components.create_global_map_only 0 1 data_loader.COLORS false
      (inl "lower right") 8 1 1 (inl "auto") (Example.world_of Example.unsorted_cities)
    = (w', inr pct).
Proof.
  destruct (drawn_categories_ascend
              (Example.world_of Example.unsorted_cities) 0 1 Example.unsorted_cities
              data_loader.COLORS false (inl "lower right") 8 1 1 (inl "auto")
              eq_refl ltac:(discriminate))
    as (w' & pct & drawn & cats & added & Hrun & _).
  exists w', pct. exact Hrun.
Defined.

Lemma enhancement_pct_extremes_witness :
  ∃ w' pct,
    figure1_components.create_global_map_only 0 1 data_loader.COLORS false
      (inl "lower right") 8 1 1 (inl "auto") (Example.world_of Example.unsorted_cities)
    = (w', inr pct)
    ∧ ¬ pct == 0.
Proof.
  destruct (enhancement_pct_extremes
              (Example.world_of Example.unsorted_cities) 0 1 Example.unsorted_cities
              data_loader.COLORS false (inl "lower right") 8 1 1 (inl "auto")
              eq_refl ltac:(discriminate))
    as (w' & pct & Hrun & Hzero & _).
  exists w', pct. split; [exact Hrun|].
  intros Hpct. apply Hzero in Hpct. apply Forall_cons in Hpct as [Hneg _].
  vm_compute in Hneg. discriminate Hneg.
Defined.

Lemma enhancement_pct_order_independent_witness :
  (@figure1_components.create_global_map_only float.binary64 insertion_Argsort
     0 1 data_loader.COLORS true (inr (0.7, 0.2)) 9 2 1 (inl "equal")
     (Example.world_of Example.unsorted_cities)).2
  = (@figure1_components.create_global_map_only float.binary64 insertion_Argsort
       0 1 data_loader.COLORS true (inr (0.7, 0.2)) 9 2 1 (inl "equal")
       (Example.world_of Sample.shuffled_cities)).2.
Proof.
  apply (enhancement_pct_order_independent float.binary64 _ _ _ _ _ _
           Example.unsorted_cities Sample.shuffled_cities);
    [reflexivity|reflexivity|].
  unfold Example.unsorted_cities, Sample.shuffled_cities.
  etrans; [apply perm_skip, perm_swap|apply perm_swap].
Defined.

Lemma map_panels_agree_witness :
  ∃ w1 w2 pct,
    figure1_components.create_global_map_only 0 1 data_loader.COLORS false
      (inl "lower right") 8 1 1 (inl "auto") (Example.world_of Example.unsorted_cities)
    = (w1, inr pct)
    ∧ composite_figure1.plot_global_map 0 1 (Example.world_of Example.unsorted_cities)
      = (w2, inr tt).
Proof.
  destruct (map_panels_agree
              (Example.world_of Example.unsorted_cities) 0 1 Example.unsorted_cities
              false (inl "lower right") 8 1 1 (inl "auto")
              eq_refl ltac:(discriminate))
    as (w1 & w2 & pct & drawn & colors & rest1 & rest2 & kw & H1 & H2 & _).
  exists w1, w2, pct. split; [exact H1|exact H2].
Defined.

Lemma create_global_map_only_frame_witness :
  ∃ w' r,
    figure1_components.create_global_map_only 0 1 data_loader.COLORS false
      (inl "lower right") 8 1 1 (inl "auto") (Example.world_of Example.unsorted_cities)
    = (w', r)
    ∧ saved w' = [] ∧ stdout w' = [].
Proof.
  destruct (create_global_map_only_frame
              (Example.world_of Example.unsorted_cities) 0 1 Example.unsorted_cities
              data_loader.COLORS false (inl "lower right") 8 1 1 (inl "auto") eq_refl)
    as (w' & r & added & Hrun & _ & _ & Hsaved & Hout & _).
  exists w', r. split; [exact Hrun|]. split; [exact Hsaved|exact Hout].
Defined.

Lemma annotation_and_legend_options_witness :
  ∃ w' pct added,
    figure1_components.create_global_map_only 0 1 data_loader.COLORS false
      (inl "lower right") 8 1 1 (inl "auto") (Example.world_of Example.unsorted_cities)
    = (w', inr pct)
    ∧ canvas w' = added ∧ ¬ "text" ∈ methods added.
Proof.
  assert (∃ w' pct,
            figure1_components.create_global_map_only 0 1 data_loader.COLORS false
              (inl "lower right") 8 1 1 (inl "auto")
              (Example.world_of Example.unsorted_cities)
            = (w', inr pct)) as (w' & pct & Hrun)
    by (vm_compute; eexists _, _; reflexivity).
  destruct (annotation_and_legend_options
              (Example.world_of Example.unsorted_cities) 0 1 Example.unsorted_cities
              data_loader.COLORS false (inl "lower right") 8 1 1 (inl "auto")
              w' pct eq_refl Hrun)
    as (added & legend & Hcanvas & Htext & _).
  exists w', pct, added. split; [exact Hrun|]. split; [exact Hcanvas|].
  intros Hin. apply Htext in Hin. discriminate Hin.
Defined.

Lemma series_lengths (n : nat) :
  Forall (λ s : list Q, length s = 1000%nat) (replicate n Example.series).
Proof. apply Forall_replicate. reflexivity. Qed.

Lemma urban_rural_comparison_options_witness :
  ∃ added,
    figure1_panels.create_urban_rural_comparison 0
      Example.series Example.series Example.series
      Example.series Example.series Example.series
      data_loader.COLORS "Light Precipitation (0.2-0.5 mm/hr)" (6.8, 9.8) [7; 8; 9]
      false true true true Sample.empty_world
    = (World ∅ ∅ 0 added [] [], inr tt)
    ∧ ¬ "legend" ∈ methods added.
Proof.
  destruct (urban_rural_comparison_options Sample.empty_world 0
              Example.series Example.series Example.series
              Example.series Example.series Example.series
              data_loader.COLORS "Light Precipitation (0.2-0.5 mm/hr)"
              (6.8, 9.8) [7; 8; 9] false true true true (series_lengths 6))
    as (added & Hrun & _ & Hlegend & _).
  exists added. split; [exact Hrun|].
  intros Hin. apply Hlegend in Hin. discriminate Hin.
Defined.

Lemma urban_only_events_options_witness :
  ∃ added,
    figure1_panels.create_urban_only_events 0
      Example.series Example.series Example.series
      data_loader.COLORS "Urban-Specific Events" (2.8, 4.2) [3.0; 3.5; 4.0]
      true false true true Sample.empty_world
    = (World ∅ ∅ 0 added [] [], inr tt)
    ∧ ¬ "set_title" ∈ methods added.
Proof.
  destruct (urban_only_events_options Sample.empty_world 0
              Example.series Example.series Example.series
              data_loader.COLORS "Urban-Specific Events"
              (2.8, 4.2) [3.0; 3.5; 4.0] true false true true (series_lengths 3))
    as (added & Hrun & _ & _ & Htitle & _).
  exists added. split; [exact Hrun|].
  intros Hin. apply Htitle in Hin. discriminate Hin.
Defined.

Lemma urban_rural_comparison_wrong_length_witness :
  ∃ added,
    figure1_panels.create_urban_rural_comparison 0
      Example.series [6.9; 7.1] Example.series Example.series Example.series Example.series
      data_loader.COLORS "Light Precipitation (0.2-0.5 mm/hr)" (6.8, 9.8) [7; 8; 9]
      true true true true Sample.empty_world
    = (World ∅ ∅ 0 added [] [], inl Py.ValueError)
    ∧ Forall (λ m, m = "plot" ∨ m = "fill_between") (methods added).
Proof.
  destruct (urban_rural_comparison_wrong_length Sample.empty_world 0
              Example.series [6.9; 7.1] Example.series Example.series
              Example.series Example.series
              data_loader.COLORS "Light Precipitation (0.2-0.5 mm/hr)"
              (6.8, 9.8) [7; 8; 9] true true true true)
    as (added & Hrun & Hmethods & _).
  { intros (_ & _ & Hall). apply Forall_cons in Hall as [[Hlen|Hlen] _];
      discriminate Hlen. }
  exists added. split; [exact Hrun|exact Hmethods].
Defined.

Lemma urban_rural_comparison_constant_band_witness :
  ∃ added,
    figure1_panels.create_urban_rural_comparison 0
      Example.series [6.9] [9.7] Example.series Example.series Example.series
      data_loader.COLORS "Light Precipitation (0.2-0.5 mm/hr)" (6.8, 9.8) [7; 8; 9]
      true true true true Sample.empty_world
    = (World ∅ ∅ 0 added [] [], inr tt)
    ∧ (0%nat, Call "fill_between"
                [ANums composite_figure1.arange_1000; ANums [6.9]; ANums [9.7]]
                [("color", AStr "#D32F2F"); ("alpha", ANum 0.2)]) ∈ added.
Proof.
  destruct (urban_rural_comparison_constant_band Sample.empty_world 0
              Example.series [6.9] [9.7] Example.series Example.series Example.series
              data_loader.COLORS "Light Precipitation (0.2-0.5 mm/hr)"
              (6.8, 9.8) [7; 8; 9] true true true true eq_refl eq_refl)
    as (added & Hrun & Hband & _).
  { repeat (apply Forall_cons_2; [first [by left|by right]|]). apply Forall_nil_2. }
  exists added. split; [exact Hrun|exact Hband].
Defined.

Lemma two_snapshots_text_only yr a :
  yr ∈ years →
  disk Sample.two_snapshots !! snapshot_path "data" yr ≠ Some (Npy a).
Proof.
  intros Hin Heq. unfold years in Hin.
  assert (seqZ 2001 20
          = [2001; 2002; 2003; 2004; 2005; 2006; 2007; 2008; 2009; 2010;
             2011; 2012; 2013; 2014; 2015; 2016; 2017; 2018; 2019; 2020]%Z)
    as Hyears by reflexivity.
  rewrite Hyears in Hin.
  repeat (apply elem_of_cons in Hin as [->|Hin]; [vm_compute in Heq; discriminate|]).
  by apply elem_of_nil in Hin.
Qed.

Lemma load_all_years_skips_missing_witness :
  ∃ w' d l,
    data_loader_files.load_spatial_data "data" (inl "all") Sample.two_snapshots
    = (w', inr (inl d))
    ∧ d !! 2020%Z = Some l ∧ arrays w' !! l = Some Example.cities
    ∧ d !! 2001%Z = None.
Proof.
  destruct (load_all_years_skips_missing "data" Sample.two_snapshots
              (λ yr a, two_snapshots_text_only yr a))
    as (w' & d & Hrun & _ & Hpresent & Hmissing & _).
  destruct (Hpresent 2020%Z Example.cities) as (l & Hd & Ha); [lia|reflexivity|].
  exists w', d, l. split; [exact Hrun|]. split; [exact Hd|]. split; [exact Ha|].
  apply Hmissing. reflexivity.
Defined.

Lemma load_all_years_warnings_witness :
  ∃ w' d,
    data_loader_files.load_spatial_data "data" (inl "all") Sample.two_snapshots
    = (w', inr (inl d))
    ∧ length (stdout w') = 18%nat.
Proof.
  destruct (load_all_years_warnings "data" Sample.two_snapshots
              (λ yr a, two_snapshots_text_only yr a))
    as (w' & d & Hrun & Hout & _).
  exists w', d. split; [exact Hrun|]. rewrite Hout. reflexivity.
Defined.

Lemma profiles_in_place suffix domain stat :
  suffix ∈ data_loader_files.intensities.*2 → domain ∈ domains → stat ∈ stats →
  disk Sample.profiles !! series_path "data" domain suffix stat
  = Some (Npy (Sample.content suffix domain stat)).
Proof.
  intros Hs Hd Hst. cbn in Hs. unfold domains, stats in Hd, Hst.
  repeat (apply elem_of_cons in Hs as [->|Hs]);
    try (by apply elem_of_nil in Hs);
    repeat (apply elem_of_cons in Hd as [->|Hd]);
    try (by apply elem_of_nil in Hd);
    repeat (apply elem_of_cons in Hst as [->|Hst]);
    try (by apply elem_of_nil in Hst);
    vm_compute; reflexivity.
Qed.

Lemma load_temporal_data_by_name_witness :
  ∃ data,
    data_loader_files.load_temporal_data "data" Sample.profiles
    = (Sample.profiles, inr data)
    ∧ series_of data "moderate" "rural" "high"
      = Some (Sample.content "05_1" "rural" "high").
Proof.
  destruct (load_temporal_data_by_name "data" Sample.content Sample.profiles
              profiles_in_place)
    as (data & Hrun & _ & Hdata).
  exists data. split; [exact Hrun|].
  apply Hdata; apply (bool_decide_unpack _); vm_compute; exact I.
Defined.

Lemma load_temporal_data_missing_file_witness :
  ∃ e,
    data_loader_files.load_temporal_data "data" Sample.empty_world
    = (Sample.empty_world, inl e).
Proof.
  destruct (load_temporal_data_missing_file "data" Sample.empty_world
              "02_05" "urban" "mean")
    as (e & Hrun & _);
    [apply (bool_decide_unpack _); vm_compute; exact I ..|reflexivity|].
  exists e. exact Hrun.
Defined.

Lemma composite_figure_same_path_twice_witness :
  Py.str_replace "figures/figure1.svg" ".pdf" ".png" = "figures/figure1.svg"
  ∧ ∃ w',
      @composite_figure1.create_composite_figure _ _ Example.writable
        "figures/figure1.svg" Example.driver_world
      = (w', inr tt)
      ∧ saved w' = ["figures/figure1.svg"; "figures/figure1.svg"].
Proof.
  exact (@composite_figure_same_path_twice _ _ Example.writable
           Example.driver_world Example.profile Example.cities
           "figures/figure1.svg" driver_world_ready eq_refl eq_refl).
Defined.

Lemma composite_figure_png_elsewhere_witness :
  ∃ w' png_path,
    @composite_figure1.create_composite_figure _ _ Example.writable
      "out.pdf.d/figure1.pdf" Example.driver_world
    = (w', inr tt)
    ∧ saved w' = ["out.pdf.d/figure1.pdf"; png_path]
    ∧ png_path = "out.png.d/figure1.png"
    ∧ png_path ≠ "out.pdf.d/figure1.png".
Proof.
  exact (@composite_figure_png_elsewhere _ _ Example.writable
           Example.driver_world Example.profile Example.cities
           "out.pdf.d/figure1" driver_world_ready eq_refl eq_refl eq_refl).
Defined.

Lemma urban_only_midday_peak_witness :
  ∃ added i,
    composite_figure1.plot_urban_only 0 Example.profile Sample.empty_world
    = (World ∅ ∅ 0 added [] [], inr tt)
    ∧ (400 ≤ i < 500)%nat
    ∧ composite_figure1.turban_mean Example.profile !! i = Some 3.5.
Proof.
  destruct (urban_only_midday_peak Sample.empty_world 0 Example.profile
              eq_refl eq_refl eq_refl)
    as (added & i & peak & sunset & kw & Hrun & _ & Hi & Hpeak & _).
  exists added, i. split; [exact Hrun|]. split; [exact Hi|].
  rewrite Hpeak. f_equal.
  apply lookup_replicate in Hpeak as [Heq _]. exact Heq.
Defined.

End more_samples.
